(** * Dagster core: config-schema synthesis, execution-plan builder and
    queued run coordinator, embedded in Rocq.

  The development follows three source files:
  - [dagster/core/definitions/environment_configs.py]
  - [dagster/core/execution/plan/plan.py]
  - [dagster/core/run_coordinator/queued_run_coordinator.py]

  Python dictionaries are [gmap]s, Python sets are [gset]s, the
  insertion-ordered dictionaries whose order is observable
  ([OrderedDict], [list(step_dict.values())]) are association lists, and
  code that can raise returns in the [Result] error monad. *)

From Stdlib Require Import String Ascii List.
From stdpp Require Import base option list gmap strings fin_maps.

Set Warnings "-register-all".

(* ===================================================================== *)
(** * Python prelude: exceptions, the error monad, ordered dictionaries *)
(* ===================================================================== *)

Module Py.

(** The exception classes the three files raise, or that the Python
    runtime raises inside them. *)
Inductive PyError : Type :=
| DagsterInvariantViolationError (msg : string)
| DagsterInvalidDefinitionError (msg : string)
| DagsterExecutionStepNotFoundError (msg : string) (step_keys : list string)
| CheckError (msg : string)
| KeyError (key : string)
| AttributeError (msg : string)
| TypeError (msg : string).

Inductive Result (A : Type) : Type :=
| Ok (a : A)
| Raise (e : PyError).
Arguments Ok {A} a.
Arguments Raise {A} e.

Definition bind {A B} (r : Result A) (k : A → Result B) : Result B :=
  match r with
  | Ok a => k a
  | Raise e => Raise e
  end.

#[global] Instance Result_bind : MBind Result := λ A B k r, bind r k.
#[global] Instance Result_ret : MRet Result := λ A a, Ok a.

(** A loop whose body can raise: the first exception stops it. *)
Fixpoint for_each {A S} (body : S → A → Result S) (xs : list A) (s : S)
  : Result S :=
  match xs with
  | [] => Ok s
  | x :: xs' => s' ← body s x; for_each body xs' s'
  end.

(** A list comprehension whose element expression can raise. *)
Fixpoint comprehension {A B} (f : A → Result B) (xs : list A)
  : Result (list B) :=
  match xs with
  | [] => Ok []
  | x :: xs' => y ← f x; ys ← comprehension f xs'; Ok (y :: ys)
  end.

(** [d[k]] on a [dict]: [KeyError] when the key is absent. *)
Definition subscript {V} (d : gmap string V) (k : string) : Result V :=
  match d !! k with
  | Some v => Ok v
  | None => Raise (KeyError k)
  end.

(** Truthiness of a [str]: the empty string is falsy. *)
Definition str_truthy (s : string) : bool :=
  match s with
  | EmptyString => false
  | String _ _ => true
  end.

(** Truthiness of an optional [str] ([None] is falsy). *)
Definition opt_str_truthy (o : option string) : bool :=
  match o with
  | Some s => str_truthy s
  | None => false
  end.

(** Truthiness of an optional [list] ([None] and [[]] are falsy). *)
Definition opt_list_truthy {A} (o : option (list A)) : bool :=
  match o with
  | Some (_ :: _) => true
  | _ => false
  end.

(** [", ".join(xs)] *)
Fixpoint join (sep : string) (xs : list string) : string :=
  match xs with
  | [] => EmptyString
  | [x] => x
  | x :: xs' => x +:+ sep +:+ join sep xs'
  end.

(** [repr] of a list of [str] without quotes to escape: ['a', 'b']. *)
Definition repr_str (s : string) : string := "'" +:+ s +:+ "'".
Definition repr_list (xs : list string) : string :=
  "[" +:+ join ", " (map repr_str xs) +:+ "]".

Definition dquote : string := String "034"%char EmptyString.

(** [needle in haystack] for [str], as a proposition. *)
Definition mentions (haystack needle : string) : Prop :=
  ∃ pre post, haystack = pre +:+ needle +:+ post.

(** ** Insertion-ordered dictionaries ([OrderedDict], and [dict] where the
    order of [.values()] is observable) *)
Section odict.
Context {V : Type}.

Definition odict := list (string * V).

Fixpoint od_get (d : list (string * V)) (k : string) : option V :=
  match d with
  | [] => None
  | (k', v) :: d' => if decide (k' = k) then Some v else od_get d' k
  end.

(** [d[k] = v]: an existing key keeps its position, a new one is
    appended. *)
Fixpoint od_set (d : list (string * V)) (k : string) (v : V)
  : list (string * V) :=
  match d with
  | [] => [(k, v)]
  | (k', v') :: d' =>
      if decide (k' = k) then (k, v) :: d' else (k', v') :: od_set d' k v
  end.

Definition od_keys (d : list (string * V)) : list string := d.*1.
Definition od_values (d : list (string * V)) : list V := d.*2.

(** [k in d] *)
Definition od_mem (d : list (string * V)) (k : string) : bool :=
  bool_decide (is_Some (od_get d k)).

Definition od_subscript (d : list (string * V)) (k : string) : Result V :=
  match od_get d k with
  | Some v => Ok v
  | None => Raise (KeyError k)
  end.
End odict.
Arguments odict V : clear implicits.

End Py.
Import Py.

(* ===================================================================== *)
(** * dagster.config: the schema primitives used by the synthesizer *)
(* ===================================================================== *)

Module Config.

(** Python values that travel through the plan and the schema: run-config
    values, input defaults, the default of a [Field]. *)
Inductive PyValue : Type :=
| VStr (s : string)
| VInt (n : Z)
| VBool (b : bool)
| VDict (items : list (string * PyValue))
| VList (items : list PyValue).

(** The Python class of a config type, what [type(config_type)] returns. *)
Inductive ConfigClass : Type :=
| ClsScalar (scalar : string)
| ClsEnum
| ClsShape
| ClsSelector
| ClsArray
| ClsOther (cls : string).

#[global] Instance ConfigClass_eq_dec : EqDecision ConfigClass.
Proof. solve_decision. Defined.

(** [ConfigType] objects: scalars and enums, [Shape] and [Selector] with
    their [fields] dictionary, [Array] with its inner type.  A [Field]
    object holds the attributes [config_type], [default_value]
    ([FIELD_NO_DEFAULT_PROVIDED] is [None]), [is_required] and
    [description], as its constructor left them. *)
Inductive ConfigType : Type :=
| Scalar (scalar : string)
| Enum (enum_name : string) (values : list string)
| Shape (fields : gmap string Field)
| Selector (fields : gmap string Field)
| Array (inner : ConfigType)
| OtherType (cls : string) (tag : string)
with Field : Type :=
| mkField (config_type : ConfigType) (default_value : option PyValue)
          (is_required : bool) (description : option string).

Definition config_type (f : Field) : ConfigType :=
  match f with mkField t _ _ _ => t end.
Definition default_value (f : Field) : option PyValue :=
  match f with mkField _ d _ _ => d end.
Definition is_required (f : Field) : bool :=
  match f with mkField _ _ r _ => r end.
Definition description (f : Field) : option string :=
  match f with mkField _ _ _ d => d end.

(** [config_type.fields] *)
Definition fields (t : ConfigType) : gmap string Field :=
  match t with
  | Shape fs | Selector fs => fs
  | _ => ∅
  end.

(** [type(config_type)] *)
Definition type_of (t : ConfigType) : ConfigClass :=
  match t with
  | Scalar s => ClsScalar s
  | Enum _ _ => ClsEnum
  | Shape _ => ClsShape
  | Selector _ => ClsSelector
  | Array _ => ClsArray
  | OtherType c _ => ClsOther c
  end.

(** Modelled from the spec: [all_optional_type] of
    [dagster.config.field_utils] is not among the sources.  The spec, 4.1:
    "[all_optional_type(t)] is true when [t] is a Shape all of whose fields
    are individually optional, or a Selector whose single field is
    optional". *)
Definition all_optional_type (t : ConfigType) : bool :=
  match t with
  | Shape fs => map_fold (λ _ f acc, acc && negb (is_required f)) true fs
  | Selector fs =>
      match map_to_list fs with
      | [(_, f)] => negb (is_required f)
      | _ => false
      end
  | _ => false
  end.

(** Modelled from the spec: the constructor [Field(config, default_value,
    is_required, description)] of [dagster.config.field] is not among the
    sources.  The spec, 3: "a schema type plus optional default and
    required-flag.  A Field is required unless it carries a default or all
    of its nested fields are themselves optional"; 4.1: "an [is_required]
    override". *)
Definition Field_ (config : ConfigType) (default : option PyValue)
    (is_required_arg : option bool) (descr : option string) : Field :=
  let required :=
    match is_required_arg with
    | Some r => r
    | None => negb (all_optional_type config || bool_decide (is_Some default))
    end in
  mkField config default required descr.

End Config.
Import Config.

(* ===================================================================== *)
(** * dagster.core.definitions: the objects the three files read *)
(* ===================================================================== *)

Module Definitions.

(** [IDefinitionConfigSchema]: only [as_field()] is called on it. *)
Record IDefinitionConfigSchema : Type := mkSchema { as_field : Field }.

(** A [ConfigurableDefinition] (resource, logger, executor, intermediate
    storage): the attributes the synthesizer and the guard read.  The class
    defines no [__eq__], so [==] is object identity: [obj_id]. *)
Record ConfigurableDefinition : Type := mkConfigurable {
  obj_id : positive;
  name : string;
  config_schema : option IDefinitionConfigSchema;
  has_config_field : bool;
  config_field : Field;
  is_persistent : bool
}.

Abbreviation ResourceDefinition := ConfigurableDefinition.
Abbreviation LoggerDefinition := ConfigurableDefinition.
Abbreviation IntermediateStorageDefinition := ConfigurableDefinition.
Abbreviation ExecutorDefinition := ConfigurableDefinition.

(** [a == b] on definitions *)
Definition def_eqb (a b : ConfigurableDefinition) : bool :=
  bool_decide (obj_id a = obj_id b).

(** Truthiness of [resource_def.config_schema]: an object without [__bool__]
    or [__len__] is truthy, [None] is not. *)
Definition schema_truthy (o : option IDefinitionConfigSchema) : bool :=
  bool_decide (is_Some o).

Record ModeDefinition : Type := mkMode {
  mode_name : string;
  resource_defs : gmap string ResourceDefinition;
  logger_defs : gmap string LoggerDefinition;
  executor_defs : list ExecutorDefinition;
  intermediate_storage_defs : list IntermediateStorageDefinition
}.

Inductive DagsterTypeKind : Type :=
| ANY | SCALAR | LIST | NOTHING | NULLABLE | REGULAR.

#[global] Instance DagsterTypeKind_eq_dec : EqDecision DagsterTypeKind.
Proof. solve_decision. Defined.

(** [DagsterType]: [kind], and the schema types of its optional loader and
    materializer. *)
Record DagsterType : Type := mkDagsterType {
  type_name : string;
  kind : DagsterTypeKind;
  loader : option ConfigType;
  materializer : option ConfigType
}.

Record InputDefinition : Type := mkInputDef {
  input_name : string;
  input_dagster_type : DagsterType
}.

Record OutputDefinition : Type := mkOutputDef {
  output_name : string;
  output_dagster_type : DagsterType
}.

(** [SolidInputHandle] and [SolidOutputHandle] hash and compare by solid
    name and definition name. *)
Definition SolidInputHandle : Type := string * string.
Definition SolidOutputHandle : Type := string * string.

(** Modelled from the spec: [DependencyStructure] of
    [dagster.core.definitions.dependency] is not among the sources.  The
    spec, 3: "for each input handle of a child node, either no dependency,
    exactly one upstream output handle (singular), or an ordered list of
    upstream output handles (fan-in)". *)
Inductive Dependency : Type :=
| Singular (upstream : SolidOutputHandle)
| FanIn (upstreams : list SolidOutputHandle).

Record DependencyStructure : Type := mkDeps {
  handle_dict : gmap (string * string) Dependency
}.

Definition has_singular_dep (ds : DependencyStructure) (h : SolidInputHandle)
  : bool :=
  match handle_dict ds !! h with Some (Singular _) => true | _ => false end.

Definition get_singular_dep (ds : DependencyStructure) (h : SolidInputHandle)
  : Result SolidOutputHandle :=
  match handle_dict ds !! h with
  | Some (Singular o) => Ok o
  | _ => Raise (CheckError "not a singular dependency")
  end.

Definition has_multi_deps (ds : DependencyStructure) (h : SolidInputHandle)
  : bool :=
  match handle_dict ds !! h with Some (FanIn _) => true | _ => false end.

Definition get_multi_deps (ds : DependencyStructure) (h : SolidInputHandle)
  : Result (list SolidOutputHandle) :=
  match handle_dict ds !! h with
  | Some (FanIn os) => Ok os
  | _ => Raise (CheckError "not a fan-in dependency")
  end.

Definition has_deps (ds : DependencyStructure) (h : SolidInputHandle) : bool :=
  bool_decide (is_Some (handle_dict ds !! h)).

(** What is common to both kinds of node definition. *)
Record NodeData : Type := mkNodeData {
  def_name : string;
  input_dict : list (string * InputDefinition);
  output_dict : list (string * OutputDefinition);
  (* [input_has_default] / [default_value_for_input] *)
  input_defaults : gmap string PyValue;
  node_has_config_field : bool;
  node_config_field : Field
}.

(** A [Solid] is a named invocation of a [NodeDefinition] inside a graph;
    [mapped_inputs] records, per input, the name of the input of the
    enclosing graph it is mapped from ([container_mapped_input]).  A
    [NodeDefinition] is a [SolidDefinition] or a [GraphDefinition]; there is
    no third subclass. *)
Inductive Solid : Type :=
| mkSolid (solid_name : string) (definition : NodeDefinition)
          (mapped_inputs : gmap string string)
with NodeDefinition : Type :=
| SolidDefinition (data : NodeData)
| GraphDefinition (data : NodeData) (solids : list Solid)
                  (solids_in_topological_order : list Solid)
                  (dependency_structure : DependencyStructure).

Definition solid_name (s : Solid) : string :=
  match s with mkSolid n _ _ => n end.
Definition definition (s : Solid) : NodeDefinition :=
  match s with mkSolid _ d _ => d end.
Definition mapped_inputs (s : Solid) : gmap string string :=
  match s with mkSolid _ _ m => m end.

Definition node_data (d : NodeDefinition) : NodeData :=
  match d with
  | SolidDefinition data => data
  | GraphDefinition data _ _ _ => data
  end.

Definition input_has_default (d : NodeDefinition) (input : string) : bool :=
  bool_decide (is_Some (input_defaults (node_data d) !! input)).

Definition default_value_for_input (d : NodeDefinition) (input : string)
  : option PyValue :=
  input_defaults (node_data d) !! input.

Definition container_maps_input (s : Solid) (input : string) : bool :=
  bool_decide (is_Some (mapped_inputs s !! input)).

Definition input_handle (s : Solid) (input : string) : SolidInputHandle :=
  (solid_name s, input).

Definition output_handle (s : Solid) (output : string) : SolidOutputHandle :=
  (solid_name s, output).

(** [SolidHandle(name, parent)] *)
Inductive SolidHandle : Type :=
| mkHandle (handle_name : string) (parent : option SolidHandle).

(** Modelled from the spec: [SolidHandle.to_string] (and [__str__], the same
    string) is not among the sources.  The spec, 6: "the handle path, joined
    with [.], e.g. [outer.inner.leaf]". *)
Fixpoint to_string (h : SolidHandle) : string :=
  match h with
  | mkHandle n None => n
  | mkHandle n (Some p) => to_string p +:+ "." +:+ n
  end.

End Definitions.
Import Definitions.

(* ===================================================================== *)
(** * dagster/core/definitions/environment_configs.py *)
(* ===================================================================== *)

Module EnvironmentConfigs.

Definition def_config_field (configurable_def : ConfigurableDefinition)
    (is_required : option bool) : Field :=
  Field_
    (Shape (if has_config_field configurable_def
            then {[ "config" := config_field configurable_def ]}
            else ∅))
    None is_required None.

(** The loop over [resource_defs.items()] that fills [fields]. *)
Definition define_resource_dictionary_cls
    (resource_defs : gmap string ResourceDefinition) : ConfigType :=
  let fields :=
    map_fold
      (λ resource_name resource_def (fields : gmap string Field),
         if schema_truthy (config_schema resource_def)
         then <[ resource_name := def_config_field resource_def None ]> fields
         else fields)
      ∅ resource_defs in
  Shape fields.

Definition remove_none_entries (ddict : gmap string (option Field))
  : gmap string Field :=
  omap id ddict.

Definition define_solid_config_cls
    (config_schema inputs_field outputs_field : option Field) : ConfigType :=
  Shape (remove_none_entries
           (<[ "outputs" := outputs_field ]>
              (<[ "inputs" := inputs_field ]>
                 {[ "config" := config_schema ]}))).

Definition define_logger_dictionary_cls
    (logger_defs : gmap string LoggerDefinition) : ConfigType :=
  Shape ((λ logger_definition, def_config_field logger_definition (Some false))
           <$> logger_defs).

(** The dict comprehension over [named_defs]: a later definition with the
    same name replaces an earlier one. *)
Definition selector_for_named_defs (named_defs : list ConfigurableDefinition)
  : ConfigType :=
  Selector
    (foldl (λ (acc : gmap string Field) named_def,
              <[ name named_def := def_config_field named_def None ]> acc)
           ∅ named_defs).

Definition define_storage_field (storage_selector : ConfigType)
    (storage_names : list string) (defaults : gset string) : Result Field :=
  if decide (list_to_set storage_names = defaults)
  then Ok (Field_ storage_selector None (Some false) None)
  else
    default_storage ←
      (match storage_names with
       | def_key :: _ =>
           possible_default ← subscript (fields storage_selector) def_key;
           if all_optional_type (config_type possible_default)
           then Ok (Some (VDict [(def_key, VDict [])]))
           else Ok None
       | [] => Ok None
       end);
    Ok (Field_ storage_selector default_storage None None).

(** The [intermediate_storage] entry of [define_environment_cls]. *)
Definition intermediate_storage_field
    (default_intermediate_storage_defs : list IntermediateStorageDefinition)
    (mode_definition : ModeDefinition) : Result Field :=
  define_storage_field
    (selector_for_named_defs (intermediate_storage_defs mode_definition))
    (name <$> intermediate_storage_defs mode_definition)
    (list_to_set (name <$> default_intermediate_storage_defs)).

(** ** The type registry *)
Section registry.

(** What the registry reads from modules that are not among the sources:
    the attributes [key] and [given_name] of a config type,
    [iterate_config_types], the values of
    [construct_dagster_type_dictionary(node_defs)], and the two tables of
    built-ins. *)
Variable key : ConfigType → string.
Variable given_name : ConfigType → option string.
Variable iterate_config_types : ConfigType → list ConfigType.
Variable construct_dagster_type_dictionary :
  list NodeDefinition → list DagsterType.
Variable ALL_RUNTIME_BUILTINS : list DagsterType.
Variable ALL_CONFIG_BUILTINS : list ConfigType.

Fixpoint iterate_node_def_config_types (node_def : NodeDefinition)
  : list ConfigType :=
  match node_def with
  | SolidDefinition data =>
      if node_has_config_field data
      then iterate_config_types (config_type (node_config_field data))
      else []
  | GraphDefinition _ solids _ _ =>
      (fix over_solids (l : list Solid) : list ConfigType :=
         match l with
         | [] => []
         | mkSolid _ d _ :: l' =>
             iterate_node_def_config_types d ++ over_solids l'
         end) solids
  end.

Definition _gather_all_schemas (node_defs : list NodeDefinition)
  : list ConfigType :=
  let dagster_types := construct_dagster_type_dictionary node_defs in
  flat_map
    (λ dagster_type,
       (match loader dagster_type with
        | Some schema_type => iterate_config_types schema_type
        | None => []
        end) ++
       (match materializer dagster_type with
        | Some schema_type => iterate_config_types schema_type
        | None => []
        end))
    (dagster_types ++ ALL_RUNTIME_BUILTINS).

Definition _gather_all_config_types (node_defs : list NodeDefinition)
    (environment_type : ConfigType) : list ConfigType :=
  flat_map iterate_node_def_config_types node_defs
  ++ iterate_config_types environment_type.

Definition all_types (node_defs : list NodeDefinition)
    (environment_type : ConfigType) : list ConfigType :=
  _gather_all_config_types node_defs environment_type
  ++ _gather_all_schemas node_defs.

Definition unique_name_message (n : string) : string :=
  "Type names must be unique. You have constructed two different "
  +:+ "instances of types with the same name " +:+ dquote +:+ n +:+ dquote
  +:+ ".".

(** The two dict comprehensions over [ALL_CONFIG_BUILTINS]. *)
Definition seed_by_name : gmap string ConfigType :=
  foldl (λ (acc : gmap string ConfigType) t,
           match given_name t with
           | Some n => if str_truthy n then <[ n := t ]> acc else acc
           | None => acc
           end)
        ∅ ALL_CONFIG_BUILTINS.

Definition seed_by_key : gmap string ConfigType :=
  foldl (λ (acc : gmap string ConfigType) t, <[ key t := t ]> acc)
        ∅ ALL_CONFIG_BUILTINS.

(** One turn of the loop [for config_type in all_types]. *)
Definition register_type
    (dicts : gmap string ConfigType * gmap string ConfigType)
    (config_type : ConfigType)
  : Result (gmap string ConfigType * gmap string ConfigType) :=
  let '(type_dict_by_name, type_dict_by_key) := dicts in
  type_dict_by_name' ←
    (match given_name config_type with
     | Some n =>
         if str_truthy n then
           match type_dict_by_name !! n with
           | Some registered =>
               if decide (type_of config_type = type_of registered)
               then Ok type_dict_by_name
               else Raise (DagsterInvalidDefinitionError
                             (unique_name_message n))
           | None => Ok (<[ n := config_type ]> type_dict_by_name)
           end
         else Ok type_dict_by_name
     | None => Ok type_dict_by_name
     end);
  Ok (type_dict_by_name', <[ key config_type := config_type ]> type_dict_by_key).

Definition construct_config_type_dictionary (node_defs : list NodeDefinition)
    (environment_type : ConfigType)
  : Result (gmap string ConfigType * gmap string ConfigType) :=
  for_each register_type (all_types node_defs environment_type)
           (seed_by_name, seed_by_key).

End registry.

End EnvironmentConfigs.
Import EnvironmentConfigs.

(* ===================================================================== *)
(** * dagster/core/execution/plan: steps, step inputs, the plan *)
(* ===================================================================== *)

Module Steps.

(** [StepOutputHandle(step_key, output_name)] *)
Record StepOutputHandle : Type := mkStepOutputHandle {
  step_key : string;
  handle_output_name : string
}.

(** The source variants of [plan/inputs.py], as [get_step_input] builds
    them. *)
Inductive StepInputSource : Type :=
| FromConfig (config_data : PyValue) (dagster_type : DagsterType)
             (input_name : string)
| FromStepOutput (step_output_handle : StepOutputHandle)
                 (dagster_type : DagsterType) (check_for_missing : bool)
| FromMultipleSources (sources : list StepInputSource)
| FromDefaultValue (value : PyValue).

(** [StepInput(name, dagster_type, source)] *)
Record StepInput : Type := mkStepInput {
  step_input_name : string;
  step_input_type : DagsterType;
  source : StepInputSource
}.

(** Modelled from the spec: [dependency_keys] of [plan/inputs.py] is not
    among the sources.  The spec, 4.5: "scanning each step's inputs for
    [FromStepOutput] legs and recording their [step_key]s". *)
Fixpoint source_dependency_keys (s : StepInputSource) : gset string :=
  match s with
  | FromStepOutput h _ _ => {[ step_key h ]}
  | FromMultipleSources legs =>
      (fix over (l : list StepInputSource) : gset string :=
         match l with
         | [] => ∅
         | leg :: l' => source_dependency_keys leg ∪ over l'
         end) legs
  | FromConfig _ _ _ | FromDefaultValue _ => ∅
  end.

Definition dependency_keys (i : StepInput) : gset string :=
  source_dependency_keys (source i).

(** [ExecutionStep]: the attributes the plan reads. *)
Record ExecutionStep : Type := mkExecutionStep {
  key : string;
  solid_handle : SolidHandle;
  step_inputs : list StepInput;
  step_outputs : list string
}.

(** [StepOutputHandle.from_step(step, output_name)] *)
Definition from_step (step : ExecutionStep) (output : string)
  : StepOutputHandle :=
  mkStepOutputHandle (key step) output.

(** [EnvironmentConfig]: [solids] maps a handle string to the solid's
    config, of which the planner reads [inputs];
    [intermediate_storage.intermediate_storage_name]. *)
Record SolidConfig : Type := mkSolidConfig {
  inputs : gmap string PyValue
}.

Record EnvironmentConfig : Type := mkEnvironmentConfig {
  solids : gmap string SolidConfig;
  intermediate_storage_name : string
}.

(** [pipeline.get_definition()] *)
Record PipelineDefinition : Type := mkPipelineDefinition {
  pipeline_def_name : string;
  solids_in_topological_order : list Solid;
  dependency_structure : DependencyStructure
}.

(** The collaborators of the planner whose code is not among the sources:
    methods of the type system, of the pipeline and mode definitions and of
    the environment config, the step factory of [plan/compute.py], and the
    two in-memory sentinels. *)
Record Collaborators : Type := mkCollaborators {
  get_inner_type_for_fan_in : DagsterType → DagsterType;
  create_compute_step :
    string → EnvironmentConfig → Solid → list StepInput → SolidHandle →
    Result ExecutionStep;
  resolve_output_to_origin :
    NodeDefinition → string → SolidHandle → Result (string * SolidHandle);
  mem_intermediate_storage : IntermediateStorageDefinition;
  mem_asset_store : ResourceDefinition;
  intermediate_storage_def_for_mode :
    EnvironmentConfig → ModeDefinition → option IntermediateStorageDefinition;
  get_intermediate_storage_def :
    ModeDefinition → string → Result IntermediateStorageDefinition;
  get_mode_definition : PipelineDefinition → string → Result ModeDefinition;
  get_default_mode : PipelineDefinition → ModeDefinition
}.

End Steps.
Import Steps.

(** ** class ExecutionPlan *)
Module ExecutionPlan.

Record t : Type := mk {
  pipeline : PipelineDefinition;
  step_dict : list (string * ExecutionStep);
  deps : gmap string (gset string);
  steps : list ExecutionStep;
  artifacts_persisted : bool;
  step_keys_to_execute : list string;
  environment_config : EnvironmentConfig
}.

Definition not_found_message (missing_steps : list string) : string :=
  "Execution plan does not contain step"
  +:+ (if decide (1 < length missing_steps) then "s" else EmptyString)
  +:+ ": " +:+ join ", " missing_steps.

(** [ExecutionPlan.__new__] *)
Definition new (pipeline : PipelineDefinition)
    (step_dict : list (string * ExecutionStep))
    (deps : gmap string (gset string)) (artifacts_persisted : bool)
    (step_keys_to_execute : list string)
    (environment_config : EnvironmentConfig) : Result t :=
  let missing_steps :=
    filter (λ step_key, od_mem step_dict step_key = false)
           step_keys_to_execute in
  match missing_steps with
  | _ :: _ =>
      Raise (DagsterExecutionStepNotFoundError
               (not_found_message missing_steps) missing_steps)
  | [] =>
      Ok (mk pipeline step_dict deps (od_values step_dict)
             artifacts_persisted step_keys_to_execute environment_config)
  end.

Definition has_step (self : t) (k : string) : bool :=
  od_mem (step_dict self) k.

Definition get_step_by_key (self : t) (k : string) : Result ExecutionStep :=
  od_subscript (step_dict self) k.

Definition missing_steps (self : t) : list string :=
  filter (λ step_key, has_step self step_key = false)
         (step_keys_to_execute self).

Definition build_subset_plan (self : t) (step_keys_to_execute : list string)
  : Result t :=
  new (pipeline self) (step_dict self) (deps self)
      (artifacts_persisted self) step_keys_to_execute
      (environment_config self).

Definition step_key_for_single_step_plans (self : t) : option string :=
  match step_keys_to_execute self with
  | [k] => Some k
  | _ => None
  end.

End ExecutionPlan.

(** ** plan.py: the guard, the builder, the input-source resolver *)
Module Plan.

Section planner.

Variable ext : Collaborators.

Definition only_one_message (intermediate_storage_name : string) : string :=
  "You have specified an intermediate storage, " +:+ dquote
  +:+ intermediate_storage_name +:+ dquote +:+ ", and have "
  +:+ "also specified a default asset store. You must specify only one. "
  +:+ "To avoid specifying "
  +:+ "an intermediate storage, omit the intermediate_storage_defs "
  +:+ "argument to your"
  +:+ "ModeDefinition and omit " +:+ dquote +:+ "intermediate_storage"
  +:+ dquote +:+ " in your run config. To avoid "
  +:+ "specifying a default asset store, omit the " +:+ dquote
  +:+ "asset_store" +:+ dquote +:+ " key from the "
  +:+ "resource_defs argument to your ModeDefinition.".

(** "Only one of asset_store and intermediate_storage should be set." *)
Definition check_asset_store_intermediate_storage (mode_def : ModeDefinition)
    (environment_config : EnvironmentConfig) : Result unit :=
  let intermediate_storage_def :=
    intermediate_storage_def_for_mode ext environment_config mode_def in
  let intermediate_storage_is_default :=
    match intermediate_storage_def with
    | None => true
    | Some d => def_eqb d (mem_intermediate_storage ext)
    end in
  asset_store ← subscript (resource_defs mode_def) "asset_store";
  let asset_store_is_default := def_eqb asset_store (mem_asset_store ext) in
  if negb intermediate_storage_is_default && negb asset_store_is_default
  then
    match intermediate_storage_def with
    | Some d => Raise (DagsterInvariantViolationError (only_one_message (name d)))
    | None =>
        Raise (AttributeError "'NoneType' object has no attribute 'name'")
    end
  else Ok ().

(** *** class _PlanBuilder *)
Record _PlanBuilder : Type := mk_PlanBuilder {
  pipeline : PipelineDefinition;
  environment_config : EnvironmentConfig;
  step_keys_to_execute : option (list string);
  mode_definition : ModeDefinition;
  _steps : list (string * ExecutionStep);
  step_output_map : gmap (string * string) StepOutputHandle;
  _seen_keys : gset string
}.

(** [_PlanBuilder.__init__] *)
Definition init (pipeline : PipelineDefinition)
    (environment_config : EnvironmentConfig) (mode : option string)
    (step_keys_to_execute : option (list string)) : Result _PlanBuilder :=
  mode_definition ←
    (match mode with
     | Some m => get_mode_definition ext pipeline m
     | None => Ok (get_default_mode ext pipeline)
     end);
  Ok (mk_PlanBuilder pipeline environment_config step_keys_to_execute
                     mode_definition [] ∅ ∅).

Definition pipeline_name (self : _PlanBuilder) : string :=
  pipeline_def_name (pipeline self).

(** The objects a comprehension variable can be bound to in [add_step]:
    iterating a dictionary yields its keys, which are [str]s. *)
Inductive PyObject : Type :=
| ObjStr (s : string)
| ObjStep (step : ExecutionStep).

(** [for s in d], [d] a dictionary *)
Definition iter_dict {V} (d : list (string * V)) : list PyObject :=
  ObjStr <$> od_keys d.

(** [s.key] *)
Definition getattr_key (s : PyObject) : Result string :=
  match s with
  | ObjStep step => Ok (key step)
  | ObjStr _ => Raise (AttributeError "'str' object has no attribute 'key'")
  end.

Definition duplicated_key_message (k : string) (keys : list string) : string :=
  "Duplicated key " +:+ k +:+ ". Full list seen so far: "
  +:+ repr_list keys +:+ ".".

Definition add_step (self : _PlanBuilder) (step : ExecutionStep)
  : Result _PlanBuilder :=
  _ ← (if decide (key step ∈ _seen_keys self)
       then
         keys ← comprehension getattr_key (iter_dict (_steps self));
         Raise (CheckError (duplicated_key_message (key step) keys))
       else Ok ());
  Ok (mk_PlanBuilder
        (pipeline self) (environment_config self) (step_keys_to_execute self)
        (mode_definition self)
        (od_set (_steps self) (to_string (solid_handle step)) step)
        (step_output_map self)
        ({[ key step ]} ∪ _seen_keys self)).

Definition add_steps (self : _PlanBuilder) (steps : list ExecutionStep)
  : Result _PlanBuilder :=
  for_each add_step steps self.

Definition get_step_by_handle (self : _PlanBuilder) (handle : SolidHandle)
  : Result ExecutionStep :=
  od_subscript (_steps self) (to_string handle).

Definition get_output_handle (self : _PlanBuilder) (k : SolidOutputHandle)
  : Result StepOutputHandle :=
  match step_output_map self !! k with
  | Some v => Ok v
  | None => Raise (KeyError (k.1 +:+ "." +:+ k.2))
  end.

Definition set_output_handle (self : _PlanBuilder) (k : SolidOutputHandle)
    (val : StepOutputHandle) : _PlanBuilder :=
  mk_PlanBuilder
    (pipeline self) (environment_config self) (step_keys_to_execute self)
    (mode_definition self) (_steps self)
    (<[ k := val ]> (step_output_map self)) (_seen_keys self).

Definition storage_is_persistent (self : _PlanBuilder) : Result bool :=
  d ← get_intermediate_storage_def ext (mode_definition self)
        (intermediate_storage_name (environment_config self));
  Ok (is_persistent d).

(** *** get_step_input *)

Definition must_get_a_value_message (pipeline_name solid_name input_name : string)
  : string :=
  "In pipeline " +:+ pipeline_name +:+ " solid " +:+ solid_name
  +:+ ", input " +:+ input_name +:+ " "
  +:+ "must get a value either (a) from a dependency or (b) from the "
  +:+ "inputs section of its configuration.".

(** [{step_input.name: step_input for step_input in parent_step_inputs}] *)
Definition parent_inputs_dict (parent_step_inputs : list StepInput)
  : gmap string StepInput :=
  foldl (λ (acc : gmap string StepInput) step_input,
           <[ step_input_name step_input := step_input ]> acc)
        ∅ parent_step_inputs.

(** The tail of [get_step_input], from [input_has_default] on. *)
Definition default_or_nothing (plan_builder : _PlanBuilder) (solid : Solid)
    (input_name : string) (input_def : InputDefinition)
  : Result (option StepInput) :=
  match default_value_for_input (definition solid) input_name with
  | Some value =>
      Ok (Some (mkStepInput input_name (input_dagster_type input_def)
                            (FromDefaultValue value)))
  | None =>
      if decide (kind (input_dagster_type input_def) = NOTHING)
      then Ok None
      else Raise (DagsterInvariantViolationError
                    (must_get_a_value_message (pipeline_name plan_builder)
                       (solid_name solid) input_name))
  end.

(** [solid_config and input_name in solid_config.inputs], then
    [solid_config.inputs[input_name]] *)
Definition config_input (environment_config : EnvironmentConfig)
    (handle : SolidHandle) (input_name : string) : option PyValue :=
  solid_config ← solids environment_config !! to_string handle;
  inputs solid_config !! input_name.

Definition get_step_input (plan_builder : _PlanBuilder) (solid : Solid)
    (input_name : string) (input_def : InputDefinition)
    (dependency_structure : DependencyStructure) (handle : SolidHandle)
    (parent_step_inputs : option (list StepInput))
  : Result (option StepInput) :=
  let dagster_type := input_dagster_type input_def in
  match config_input (environment_config plan_builder) handle input_name with
  | Some config_data =>
      Ok (Some (mkStepInput input_name dagster_type
                  (FromConfig config_data dagster_type input_name)))
  | None =>
  let input_handle := input_handle solid input_name in
  if has_singular_dep dependency_structure input_handle then
    solid_output_handle ← get_singular_dep dependency_structure input_handle;
    step_output_handle ← get_output_handle plan_builder solid_output_handle;
    Ok (Some (mkStepInput input_name dagster_type
                (FromStepOutput step_output_handle dagster_type false)))
  else if has_multi_deps dependency_structure input_handle then
    solid_output_handles ← get_multi_deps dependency_structure input_handle;
    legs ← comprehension
           (λ solid_output_handle,
              step_output_handle ←
                get_output_handle plan_builder solid_output_handle;
              Ok (FromStepOutput step_output_handle
                    (get_inner_type_for_fan_in ext dagster_type) true))
           solid_output_handles;
    Ok (Some (mkStepInput input_name dagster_type (FromMultipleSources legs)))
  else
    match mapped_inputs solid !! input_name with
    | Some parent_name =>
        match parent_step_inputs with
        | None => Raise (TypeError "'NoneType' object is not iterable")
        | Some parent_step_inputs =>
            match parent_inputs_dict parent_step_inputs !! parent_name with
            | Some parent_input =>
                Ok (Some (mkStepInput input_name dagster_type
                                      (source parent_input)))
            | None =>
                default_or_nothing plan_builder solid input_name input_def
            end
        end
    | None => default_or_nothing plan_builder solid input_name input_def
    end
  end.

(** *** _PlanBuilder._build_from_sorted_solids *)

(** The loop over [solid.definition.input_dict.items()]: a [None] from
    [get_step_input] adds no step input. *)
Definition collect_step_inputs (self : _PlanBuilder) (solid : Solid)
    (dependency_structure : DependencyStructure) (handle : SolidHandle)
    (parent_step_inputs : option (list StepInput)) : Result (list StepInput) :=
  for_each
    (λ (step_inputs : list StepInput) '(input_name, input_def),
       step_input ← get_step_input self solid input_name input_def
                      dependency_structure handle parent_step_inputs;
       match step_input with
       | None => Ok step_inputs
       | Some step_input => Ok (step_inputs ++ [step_input])
       end)
    (input_dict (node_data (definition solid))) [].

(** The loop over [solid.definition.output_dict.items()]. *)
Definition record_outputs (self : _PlanBuilder) (solid : Solid)
    (handle : SolidHandle) : Result _PlanBuilder :=
  for_each
    (λ (self : _PlanBuilder) '(output_name_, output_def),
       let output_handle := output_handle solid output_name_ in
       '(resolved_output_name, resolved_handle) ←
         resolve_output_to_origin ext (definition solid)
           (output_name output_def) handle;
       compute_step ← get_step_by_handle self resolved_handle;
       Ok (set_output_handle self output_handle
             (from_step compute_step resolved_output_name)))
    (output_dict (node_data (definition solid))) self.

(** One turn of the loop [for solid in solids]; the recursion into a
    [GraphDefinition] is the inner loop over its own solids. *)
Fixpoint build_from_solid (solid : Solid)
    (dependency_structure : DependencyStructure)
    (parent_handle : option SolidHandle)
    (parent_step_inputs : option (list StepInput))
    (self : _PlanBuilder) {struct solid} : Result _PlanBuilder :=
  let handle := mkHandle (solid_name solid) parent_handle in
  step_inputs ← collect_step_inputs self solid dependency_structure handle
                  parent_step_inputs;
  self ←
    (match solid with
     | mkSolid _ (SolidDefinition _) _ =>
         solid_compute_step ←
           create_compute_step ext (pipeline_name self)
             (environment_config self) solid step_inputs handle;
         add_step self solid_compute_step
     | mkSolid _ (GraphDefinition _ _ sorted_solids inner_structure) _ =>
         (fix over_solids (l : list Solid) (self : _PlanBuilder)
            : Result _PlanBuilder :=
            match l with
            | [] => Ok self
            | inner :: l' =>
                self ← build_from_solid inner inner_structure (Some handle)
                         (Some step_inputs) self;
                over_solids l' self
            end) sorted_solids self
     end);
  record_outputs self solid handle.

Definition _build_from_sorted_solids (self : _PlanBuilder)
    (solids : list Solid) (dependency_structure : DependencyStructure)
    (parent_handle : option SolidHandle)
    (parent_step_inputs : option (list StepInput)) : Result _PlanBuilder :=
  for_each
    (λ self solid,
       build_from_solid solid dependency_structure parent_handle
         parent_step_inputs self)
    solids self.

(** *** _PlanBuilder.build *)

(** The dependency dictionary: every step key starts at [set()], then each
    step's entry is updated with the dependency keys of its inputs. *)
Definition construct_deps (steps : list ExecutionStep)
  : gmap string (gset string) :=
  let deps : gmap string (gset string) :=
    foldl (λ (acc : gmap string (gset string)) step, <[ key step := ∅ ]> acc)
          ∅ steps in
  foldl
    (λ (acc : gmap string (gset string)) step,
       foldl (λ (acc : gmap string (gset string)) step_input,
                alter (λ s, s ∪ dependency_keys step_input) (key step) acc)
             acc (step_inputs step))
    deps steps.

(** [{step.key: step for step in self._steps.values()}] *)
Definition construct_step_dict (steps : list ExecutionStep)
  : list (string * ExecutionStep) :=
  foldl (λ acc step, od_set acc (key step) step) [] steps.

(** [self.step_keys_to_execute or [step.key for step in ...]] *)
Definition keys_or_all (step_keys_to_execute : option (list string))
    (steps : list ExecutionStep) : list string :=
  if opt_list_truthy step_keys_to_execute
  then default [] step_keys_to_execute
  else key <$> steps.

(** The part of [build] that follows the traversal. *)
Definition finish (self : _PlanBuilder) : Result ExecutionPlan.t :=
  let values := od_values (_steps self) in
  let deps := construct_deps values in
  let step_dict := construct_step_dict values in
  let step_keys_to_execute :=
    keys_or_all (step_keys_to_execute self) values in
  _ ← check_asset_store_intermediate_storage (mode_definition self)
        (environment_config self);
  artifacts_persisted ← storage_is_persistent self;
  ExecutionPlan.new (pipeline self) step_dict deps artifacts_persisted
    step_keys_to_execute (environment_config self).

(** The traversal [build] starts with. *)
Definition traverse (self : _PlanBuilder) : Result _PlanBuilder :=
  let pipeline_def := pipeline self in
  _build_from_sorted_solids self
    (solids_in_topological_order pipeline_def)
    (dependency_structure pipeline_def) None None.

Definition build (self : _PlanBuilder) : Result ExecutionPlan.t :=
  self ← traverse self;
  finish self.

(** [ExecutionPlan.build], the static method *)
Definition ExecutionPlan_build (pipeline : PipelineDefinition)
    (environment_config : EnvironmentConfig) (mode : option string)
    (step_keys_to_execute : option (list string)) : Result ExecutionPlan.t :=
  plan_builder ← init pipeline environment_config mode step_keys_to_execute;
  build plan_builder.

End planner.
End Plan.

(* ===================================================================== *)
(** * dagster/core/run_coordinator/queued_run_coordinator.py *)
(* ===================================================================== *)

Module RunCoordinator.

Inductive PipelineRunStatus : Type :=
| NOT_STARTED | QUEUED | STARTED | SUCCESS | FAILURE | MANAGED.

#[global] Instance PipelineRunStatus_eq_dec : EqDecision PipelineRunStatus.
Proof. solve_decision. Defined.

Record PipelineRun : Type := mkPipelineRun {
  run_id : string;
  run_pipeline_name : string;
  status : PipelineRunStatus
}.

(** What reaches the event log of the instance. *)
Inductive Event : Type :=
| PIPELINE_ENQUEUED (pipeline_name run_id : string)
| ENGINE_EVENT (message run_id cls : string)
| LAUNCHER_EVENT (message run_id : string).

(** The instance: the run storage and the event log.  It is shared, so
    every method that changes it returns the new instance. *)
Record DagsterInstance : Type := mkInstance {
  runs : gmap string PipelineRun;
  event_log : list Event
}.

Definition get_run_by_id (instance : DagsterInstance) (run_id : string)
  : option PipelineRun :=
  runs instance !! run_id.

Definition handle_new_event (instance : DagsterInstance) (e : Event)
  : DagsterInstance :=
  mkInstance (runs instance) (event_log instance ++ [e]).

(** Modelled from the spec: [DagsterInstance.report_engine_event] is not
    among the sources.  The spec, 4.7: "report an engine event". *)
Definition report_engine_event (instance : DagsterInstance)
    (message : string) (pipeline_run : PipelineRun) (cls : string)
  : DagsterInstance :=
  handle_new_event instance (ENGINE_EVENT message (run_id pipeline_run) cls).

(** Modelled from the spec: [DagsterInstance.report_run_failed] is not
    among the sources.  The spec, 4.7: "mark the run failed". *)
Definition report_run_failed (instance : DagsterInstance)
    (pipeline_run : PipelineRun) : DagsterInstance :=
  mkInstance
    (<[ run_id pipeline_run :=
          mkPipelineRun (run_id pipeline_run)
            (run_pipeline_name pipeline_run) FAILURE ]> (runs instance))
    (event_log instance).

(** The run launcher of the instance, an interface: its two methods may
    read and change the instance. *)
Record RunLauncher : Type := mkRunLauncher {
  can_terminate : string → DagsterInstance → bool;
  terminate : string → DagsterInstance → Result (bool * DagsterInstance)
}.

Section coordinator.

Variable run_launcher : RunLauncher.

(** [self._instance]: the weak reference, [None] once the instance is
    gone. *)
Definition deref (_instance : option DagsterInstance)
  : Result DagsterInstance :=
  match _instance with
  | Some instance => Ok instance
  | None => Raise (AttributeError "'NoneType' object has no attribute")
  end.

Definition submit_run (_instance : option DagsterInstance)
    (pipeline_run : PipelineRun) : Result (PipelineRun * DagsterInstance) :=
  if decide (status pipeline_run = NOT_STARTED) then
    instance ← deref _instance;
    Ok (pipeline_run,
        handle_new_event instance
          (PIPELINE_ENQUEUED (run_pipeline_name pipeline_run)
                             (run_id pipeline_run)))
  else Raise (CheckError "Invariant failed.").

Definition can_cancel_run (_instance : option DagsterInstance)
    (run_id : string) : Result bool :=
  instance ← deref _instance;
  match get_run_by_id instance run_id with
  | None => Ok false
  | Some run =>
      if decide (status run = QUEUED) then Ok true
      else Ok (can_terminate run_launcher run_id instance)
  end.

Definition cancel_run (_instance : option DagsterInstance) (run_id : string)
  : Result (bool * DagsterInstance) :=
  instance ← deref _instance;
  match get_run_by_id instance run_id with
  | None => Ok (false, instance)
  | Some run =>
      if decide (status run = QUEUED) then
        let instance :=
          report_engine_event instance "Cancelling pipeline from the queue."
            run "QueuedRunCoordinator" in
        let instance := report_run_failed instance run in
        Ok (true, instance)
      else terminate run_launcher run_id instance
  end.

End coordinator.

End RunCoordinator.

(* ===================================================================== *)
(** * environment_configs.py: the schema of solids and of the environment *)
(* ===================================================================== *)

Module SchemaSynthesis.

(** Properties of node definitions that [environment_configs.py] reads and
    that [solid.py] and [graph.py], not among the sources, compute. *)
Record NodeAccessors : Type := mkNodeAccessors {
  has_configurable_inputs : NodeDefinition → bool;
  has_configurable_outputs : NodeDefinition → bool;
  has_config_entry : NodeDefinition → bool;
  node_config_schema : NodeDefinition → option IDefinitionConfigSchema;
  has_config_mapping : NodeDefinition → bool
}.

(** [not d], [d] a dictionary *)
Definition dict_is_empty {V} (d : gmap string V) : bool :=
  match map_to_list d with
  | [] => true
  | _ :: _ => false
  end.

Definition ignored_description : string :=
  "This solid is not present in the current solid selection, "
  +:+ "the config values are allowed but ignored.".

(** [EnvironmentClassCreationData] *)
Record EnvironmentClassCreationData : Type := mkCreationData {
  creation_pipeline_name : string;
  creation_solids : list Solid;
  creation_dependency_structure : DependencyStructure;
  creation_mode_definition : ModeDefinition;
  creation_logger_defs : gmap string LoggerDefinition;
  creation_ignored_solids : list Solid
}.

Section synthesis.

Variable acc : NodeAccessors.

(** The loop of [get_inputs_field] over [input_dict.items()]. *)
Definition inputs_field_fields (solid : Solid)
    (dependency_structure : DependencyStructure) : gmap string Field :=
  foldl
    (λ (fields : gmap string Field) '(name, inp),
       match loader (input_dagster_type inp) with
       | Some schema_type =>
           let inp_handle := input_handle solid (input_name inp) in
           if negb (has_deps dependency_structure inp_handle)
              && negb (container_maps_input solid name)
           then <[ name :=
                     Field_ schema_type None
                       (Some (negb (input_has_default (definition solid)
                                      name)))
                       None ]> fields
           else fields
       | None => fields
       end)
    ∅ (input_dict (node_data (definition solid))).

Definition get_inputs_field (solid : Solid) (handle : SolidHandle)
    (dependency_structure : DependencyStructure) : option Field :=
  if negb (has_configurable_inputs acc (definition solid)) then None
  else
    let fields := inputs_field_fields solid dependency_structure in
    if dict_is_empty fields then None
    else Some (Field_ (Shape fields) None None None).

(** The loop of [get_outputs_field] over [output_dict.items()]. *)
Definition output_dict_fields (solid : Solid) : gmap string Field :=
  foldl
    (λ (fields : gmap string Field) '(name, out),
       match materializer (output_dagster_type out) with
       | Some schema_type =>
           <[ name := Field_ schema_type None (Some false) None ]> fields
       | None => fields
       end)
    ∅ (output_dict (node_data (definition solid))).

Definition get_outputs_field (solid : Solid) (handle : SolidHandle)
  : option Field :=
  if negb (has_configurable_outputs acc (definition solid)) then None
  else
    let output_entry_dict := Shape (output_dict_fields solid) in
    Some (Field_ (Array output_entry_dict) None (Some false) None).

Definition solid_config_field (fields : gmap string (option Field))
    (ignored : bool) : Field :=
  if ignored
  then Field_ (Shape (remove_none_entries fields)) None (Some false)
              (Some ignored_description)
  else Field_ (Shape (remove_none_entries fields)) None None None.

Definition construct_leaf_solid_config (solid : Solid) (handle : SolidHandle)
    (dependency_structure : DependencyStructure)
    (config_schema : option IDefinitionConfigSchema) (ignored : bool)
  : Field :=
  solid_config_field
    (<[ "config" := as_field <$> config_schema ]>
       (<[ "outputs" := get_outputs_field solid handle ]>
          {[ "inputs" :=
               get_inputs_field solid handle dependency_structure ]}))
    ignored.

(** [define_isolid_field]; for a graph without config mapping the [solids]
    entry is [define_solid_dictionary_cls] of the graph's solids, written
    here as its loop (the second loop runs over no ignored solid). *)
Fixpoint define_isolid_field (solid : Solid) (handle : SolidHandle)
    (dependency_structure : DependencyStructure) (ignored : bool)
    {struct solid} : Field :=
  match solid with
  | mkSolid _ (SolidDefinition _) _ =>
      construct_leaf_solid_config solid handle dependency_structure
        (node_config_schema acc (definition solid)) ignored
  | mkSolid _ (GraphDefinition _ graph_solids _ graph_structure) _ =>
      if has_config_mapping acc (definition solid) then
        construct_leaf_solid_config solid handle dependency_structure
          (node_config_schema acc (definition solid)) ignored
      else
        solid_config_field
          (<[ "solids" :=
                Some (Field_
                        (Shape
                           ((fix over_solids (l : list Solid)
                                 (fields : gmap string Field)
                               : gmap string Field :=
                               match l with
                               | [] => fields
                               | inner :: l' =>
                                   over_solids l'
                                     (if has_config_entry acc (definition inner)
                                      then
                                        <[ solid_name inner :=
                                             define_isolid_field inner
                                               (mkHandle (solid_name inner)
                                                  (Some handle))
                                               graph_structure false ]> fields
                                      else fields)
                               end) graph_solids ∅))
                        None None None) ]>
             (<[ "outputs" := get_outputs_field solid handle ]>
                {[ "inputs" :=
                     get_inputs_field solid handle dependency_structure ]}))
          ignored
  end.

(** One of the two loops of [define_solid_dictionary_cls]. *)
Definition add_solid_fields (solids : list Solid)
    (dependency_structure : DependencyStructure)
    (parent_handle : option SolidHandle) (ignored : bool)
    (fields : gmap string Field) : gmap string Field :=
  foldl
    (λ (fields : gmap string Field) solid,
       if has_config_entry acc (definition solid)
       then <[ solid_name solid :=
                 define_isolid_field solid
                   (mkHandle (solid_name solid) parent_handle)
                   dependency_structure ignored ]> fields
       else fields)
    fields solids.

Definition define_solid_dictionary_cls (solids : list Solid)
    (ignored_solids : option (list Solid))
    (dependency_structure : DependencyStructure)
    (parent_handle : option SolidHandle) : ConfigType :=
  let ignored_solids := default [] ignored_solids in
  let fields :=
    add_solid_fields solids dependency_structure parent_handle false ∅ in
  let fields :=
    add_solid_fields ignored_solids dependency_structure parent_handle true
      fields in
  Shape fields.

(** [default_intermediate_storage_defs] is imported from
    [dagster.core.storage.system_storage], not among the sources. *)
Variable default_intermediate_storage_defs :
  list IntermediateStorageDefinition.

Definition define_environment_cls (creation_data : EnvironmentClassCreationData)
  : Result ConfigType :=
  let mode_definition := creation_mode_definition creation_data in
  intermediate_storage_field ←
    define_storage_field
      (selector_for_named_defs (intermediate_storage_defs mode_definition))
      (name <$> intermediate_storage_defs mode_definition)
      (list_to_set (name <$> default_intermediate_storage_defs));
  let storage_field :=
    Field_ (selector_for_named_defs (intermediate_storage_defs mode_definition))
           None (Some false) None in
  Ok (Shape
        (remove_none_entries
           (<[ "resources" :=
                 Some (Field_
                         (define_resource_dictionary_cls
                            (resource_defs mode_definition))
                         None None None) ]>
              (<[ "loggers" :=
                    Some (Field_
                            (define_logger_dictionary_cls
                               (creation_logger_defs creation_data))
                            None None None) ]>
                 (<[ "execution" :=
                       Some (Field_
                               (selector_for_named_defs
                                  (executor_defs mode_definition))
                               None (Some false) None) ]>
                    (<[ "intermediate_storage" :=
                          Some intermediate_storage_field ]>
                       (<[ "storage" := Some storage_field ]>
                          {[ "solids" :=
                               Some (Field_
                                       (define_solid_dictionary_cls
                                          (creation_solids creation_data)
                                          (Some (creation_ignored_solids
                                                   creation_data))
                                          (creation_dependency_structure
                                             creation_data)
                                          None)
                                       None None None) ]}))))))).

End synthesis.

End SchemaSynthesis.

(** ** ExecutionPlan.execution_deps *)
Module ExecutionPlanQueries.

(** The dependencies restricted to the steps to execute: every key starts
    at [set()], then the entry of each step is updated with the dependency
    keys of its inputs that are themselves to execute. *)
Definition execution_deps (self : ExecutionPlan.t)
  : Result (list (string * gset string)) :=
  let keys := ExecutionPlan.step_keys_to_execute self in
  let deps : list (string * gset string) :=
    foldl (λ deps k, od_set deps k ∅) [] keys in
  for_each
    (λ (deps : list (string * gset string)) k,
       step ← od_subscript (ExecutionPlan.step_dict self) k;
       for_each
         (λ (deps : list (string * gset string)) step_input,
            current ← od_subscript deps (key step);
            Ok (od_set deps (key step)
                  (current ∪ (dependency_keys step_input ∩ list_to_set keys))))
         (step_inputs step) deps)
    keys deps.

End ExecutionPlanQueries.

(* ===================================================================== *)
(** * Concrete definitions used to exercise the model *)
(* ===================================================================== *)

Module Examples.

Definition String_type : ConfigType := Scalar "String".
Definition Int_type : ConfigType := Scalar "Int".

(** [Field(String)]: required, as a scalar is not all-optional. *)
Definition required_string : Field := Field_ String_type None None None.

(** The placeholder read by nobody when [has_config_field] is false. *)
Definition no_field : Field := Field_ (Shape ∅) None None None.

(** A resource declared without [config_schema]. *)
Definition bare_resource : ResourceDefinition :=
  mkConfigurable 10 "io" None false no_field false.

(** A resource declared with [config_schema=Field(String)]. *)
Definition configured_resource : ResourceDefinition :=
  mkConfigurable 11 "db" (Some (mkSchema required_string)) true
                 required_string false.

Definition two_resources : gmap string ResourceDefinition :=
  <[ "db" := configured_resource ]> {[ "io" := bare_resource ]}.

(** Intermediate storages: [s3] needs config, [filesystem] and [in_memory]
    declare none. *)
Definition s3_storage : IntermediateStorageDefinition :=
  mkConfigurable 20 "s3" (Some (mkSchema required_string)) true
                 required_string true.
Definition fs_storage : IntermediateStorageDefinition :=
  mkConfigurable 21 "filesystem" None false no_field true.
Definition mem_storage : IntermediateStorageDefinition :=
  mkConfigurable 22 "in_memory" None false no_field false.

Definition default_storage_names : gset string :=
  {[ "in_memory"; "filesystem" ]}.

(** A registry of one built-in, reached through the loader of the built-in
    runtime type [Int]; a config type is known by its scalar or enum
    name. *)
Definition ex_given_name (t : ConfigType) : option string :=
  match t with
  | Scalar s => Some s
  | Enum n _ => Some n
  | _ => None
  end.

Definition ex_key (t : ConfigType) : string :=
  match t with
  | Scalar s => s
  | Enum n _ => n
  | Shape _ => "Shape"
  | Selector _ => "Selector"
  | Array _ => "Array"
  | OtherType c tag => c +:+ "." +:+ tag
  end.

Definition ex_iterate_config_types (t : ConfigType) : list ConfigType :=
  t :: (config_type <$> (map_to_list (fields t)).*2).

Definition ex_runtime_builtins : list DagsterType :=
  [mkDagsterType "Int" SCALAR (Some Int_type) None].

Definition ex_config_builtins : list ConfigType := [Int_type].

(** An environment type that reaches a scalar and an enum both called
    [Color]. *)
Definition Color_scalar : ConfigType := Scalar "Color".
Definition Color_enum : ConfigType := Enum "Color" ["RED"; "BLUE"].
Definition two_colors : ConfigType :=
  Shape (<[ "tint" := Field_ Color_enum None None None ]>
           {[ "paint" := Field_ Color_scalar None None None ]}).

(** ** A pipeline to plan *)

Definition Int_dt : DagsterType :=
  mkDagsterType "Int" SCALAR (Some Int_type) None.
Definition Nothing_dt : DagsterType :=
  mkDagsterType "Nothing" NOTHING None None.
Definition IntList_dt : DagsterType :=
  mkDagsterType "[Int]" LIST None None.

Definition mem_asset : ResourceDefinition :=
  mkConfigurable 30 "asset_store" None false no_field false.
Definition custom_asset : ResourceDefinition :=
  mkConfigurable 31 "asset_store" None false no_field false.

Definition default_mode : ModeDefinition :=
  mkMode "default" {[ "asset_store" := mem_asset ]} ∅ []
         [mem_storage; fs_storage].

(** A mode with a custom asset store next to the filesystem storage. *)
Definition custom_mode : ModeDefinition :=
  mkMode "custom" {[ "asset_store" := custom_asset ]} ∅ []
         [mem_storage; fs_storage].

Definition storage_named (mode : ModeDefinition) (n : string)
  : option IntermediateStorageDefinition :=
  List.find (λ d, bool_decide (name d = n)) (intermediate_storage_defs mode).

(** Collaborators as the repository has them for leaf solids: a step is
    keyed by its handle, the origin of a leaf output is the output itself,
    the storage definition is looked up by the configured name. *)
Definition ex_collaborators : Collaborators :=
  mkCollaborators
    (λ _, Int_dt)
    (λ _ _ solid step_inputs handle,
       Ok (mkExecutionStep (to_string handle) handle step_inputs
             (output_dict (node_data (definition solid))).*1))
    (λ _ output handle, Ok (output, handle))
    mem_storage
    mem_asset
    (λ env mode, storage_named mode (intermediate_storage_name env))
    (λ mode n,
       match storage_named mode n with
       | Some d => Ok d
       | None => Raise (CheckError "no such intermediate storage")
       end)
    (λ _ _, Ok default_mode)
    (λ _, default_mode).

Definition leaf (n : string) (ins : list (string * InputDefinition))
    (defaults : gmap string PyValue) : Solid :=
  mkSolid n
    (SolidDefinition
       (mkNodeData n ins [("result", mkOutputDef "result" Int_dt)] defaults
                   false no_field))
    ∅.

(** [A -> B], and [F] whose input [z] nobody provides. *)
Definition solid_A : Solid := leaf "A" [] ∅.
Definition solid_B : Solid := leaf "B" [("x", mkInputDef "x" Int_dt)] ∅.
Definition solid_F : Solid := leaf "F" [("z", mkInputDef "z" Int_dt)] ∅.

Definition chain_deps : DependencyStructure :=
  mkDeps {[ ("B", "x") := Singular ("A", "result") ]}.

Definition chain : PipelineDefinition :=
  mkPipelineDefinition "chain" [solid_A; solid_B] chain_deps.

Definition lonely : PipelineDefinition :=
  mkPipelineDefinition "lonely" [solid_F] (mkDeps ∅).

Definition mem_env : EnvironmentConfig := mkEnvironmentConfig ∅ "in_memory".
Definition fs_env : EnvironmentConfig := mkEnvironmentConfig ∅ "filesystem".

Definition empty_builder (p : PipelineDefinition) : Plan._PlanBuilder :=
  Plan.mk_PlanBuilder p mem_env None default_mode [] ∅ ∅.

Definition step_A : ExecutionStep :=
  mkExecutionStep "A" (mkHandle "A" None) [] ["result"].

(** The builder of [chain] once [A] is planned. *)
Definition builder_after_A : Plan._PlanBuilder :=
  Plan.mk_PlanBuilder chain mem_env None default_mode [("A", step_A)]
    {[ ("A", "result") := mkStepOutputHandle "A" "result" ]} {[ "A" ]}.

Definition step_B : ExecutionStep :=
  mkExecutionStep "B" (mkHandle "B" None)
    [mkStepInput "x" Int_dt
       (FromStepOutput (mkStepOutputHandle "A" "result") Int_dt false)]
    ["result"].

(** The plan of [chain]: [B] depends on [A]. *)
Definition chain_plan : ExecutionPlan.t :=
  ExecutionPlan.mk chain [("A", step_A); ("B", step_B)]
    (Plan.construct_deps [step_A; step_B]) [step_A; step_B] false
    ["A"; "B"] mem_env.

(** The scenarios of the specification: a fan-in, a default, an input of
    kind [NOTHING], a graph whose input [i] is mapped to its child [X]. *)
Definition solid_A2 : Solid := leaf "A2" [] ∅.
Definition solid_C : Solid :=
  leaf "C" [("xs", mkInputDef "xs" IntList_dt)] ∅.
Definition fan_in : PipelineDefinition :=
  mkPipelineDefinition "fan_in" [solid_A; solid_A2; solid_C]
    (mkDeps {[ ("C", "xs") := FanIn [("A", "result"); ("A2", "result")] ]}).

Definition solid_D : Solid :=
  leaf "D" [("x", mkInputDef "x" Int_dt)] {[ "x" := VInt 7 ]}.
Definition solid_E : Solid :=
  leaf "E" [("trigger", mkInputDef "trigger" Nothing_dt)] ∅.
Definition loose_ends : PipelineDefinition :=
  mkPipelineDefinition "loose_ends" [solid_D; solid_E] (mkDeps ∅).

Definition solid_X : Solid :=
  mkSolid "X"
    (SolidDefinition
       (mkNodeData "X" [("i", mkInputDef "i" Int_dt)]
          [("result", mkOutputDef "result" Int_dt)] ∅ false no_field))
    {[ "i" := "i" ]}.
Definition solid_Y : Solid := leaf "Y" [("x", mkInputDef "x" Int_dt)] ∅.
Definition solid_G : Solid :=
  mkSolid "G"
    (GraphDefinition
       (mkNodeData "G" [("i", mkInputDef "i" Int_dt)] [] ∅ false no_field)
       [solid_X; solid_Y] [solid_X; solid_Y]
       (mkDeps {[ ("Y", "x") := Singular ("X", "result") ]}))
    ∅.
Definition composite : PipelineDefinition :=
  mkPipelineDefinition "composite" [solid_G] (mkDeps ∅).
Definition composite_env : EnvironmentConfig :=
  mkEnvironmentConfig {[ "G" := mkSolidConfig {[ "i" := VInt 5 ]} ]}
    "in_memory".

(** ** Runs to cancel *)

Definition queued_run : RunCoordinator.PipelineRun :=
  RunCoordinator.mkPipelineRun "r1" "chain" RunCoordinator.QUEUED.
Definition started_run : RunCoordinator.PipelineRun :=
  RunCoordinator.mkPipelineRun "r2" "chain" RunCoordinator.STARTED.

Definition ex_instance : RunCoordinator.DagsterInstance :=
  RunCoordinator.mkInstance
    (<[ "r2" := started_run ]> {[ "r1" := queued_run ]})
    [RunCoordinator.PIPELINE_ENQUEUED "chain" "r1";
     RunCoordinator.PIPELINE_ENQUEUED "chain" "r2"].

(** A launcher that logs every termination request for a run it knows, and
    terminates the run when it is started. *)
Definition reporting_launcher : RunCoordinator.RunLauncher :=
  RunCoordinator.mkRunLauncher
    (λ run_id instance,
       match RunCoordinator.runs instance !! run_id with
       | Some run =>
           bool_decide (RunCoordinator.status run = RunCoordinator.STARTED)
       | None => false
       end)
    (λ run_id instance,
       match RunCoordinator.runs instance !! run_id with
       | Some run =>
           Ok (bool_decide
                 (RunCoordinator.status run = RunCoordinator.STARTED),
               RunCoordinator.handle_new_event instance
                 (RunCoordinator.LAUNCHER_EVENT
                    "Received pipeline termination request." run_id))
       | None => Ok (false, instance)
       end).

End Examples.

(* ===================================================================== *)
(** * Further concrete definitions *)
(* ===================================================================== *)

Module MoreExamples.

(** A solid definition with the config field [Field(Int)], and a graph
    that wraps a solid of it. *)
Definition configured_data : NodeData :=
  mkNodeData "configured" [] [] ∅ true
    (Field_ Examples.Int_type None None None).

Definition wrapping_graph : NodeDefinition :=
  GraphDefinition (mkNodeData "wrapping" [] [] ∅ false Examples.no_field)
    [mkSolid "inner" (SolidDefinition configured_data) ∅]
    [mkSolid "inner" (SolidDefinition configured_data) ∅]
    (mkDeps ∅).

(** The plan of [chain] with only [B] to execute. *)
Definition only_B : ExecutionPlan.t :=
  ExecutionPlan.mk Examples.chain
    [("A", Examples.step_A); ("B", Examples.step_B)]
    (Plan.construct_deps [Examples.step_A; Examples.step_B])
    [Examples.step_A; Examples.step_B] false ["B"] Examples.mem_env.

(** An enum that takes the given name of the built-in scalar [Int]. *)
Definition Int_enum : ConfigType := Enum "Int" ["ONE"].

End MoreExamples.

(* ===================================================================== *)
(** * The statements of the specification, in its own words *)
(* ===================================================================== *)

Module Specs.

(** The spec's reading of the [resources] shape: every declared resource
    has a field, and the field of a resource without config schema is a
    shape without fields. *)
Definition spec_every_resource_has_field
    (resource_defs : gmap string ResourceDefinition) : Prop :=
  ∀ n d, resource_defs !! n = Some d →
    ∃ f, fields (define_resource_dictionary_cls resource_defs) !! n = Some f
         ∧ (config_schema d = None → fields (config_type f) = ∅).

(** The spec's reading of the default of the storage field: the first
    declared storage whose own config is all-optional. *)
Definition spec_first_optional_storage (storage_selector : ConfigType)
    (storage_names : list string) : option string :=
  List.find
    (λ n, match fields storage_selector !! n with
          | Some f => all_optional_type (config_type f)
          | None => false
          end)
    storage_names.

Definition spec_storage_default (storage_selector : ConfigType)
    (storage_names : list string) : option PyValue :=
  (λ n, VDict [(n, VDict [])])
    <$> spec_first_optional_storage storage_selector storage_names.

(** [t] has the given name [n]: the attribute is a non-empty [str]. *)
Definition named (given_name : ConfigType → option string)
    (t : ConfigType) (n : string) : Prop :=
  given_name t = Some n ∧ str_truthy n = true.

(** A type of [l] and a type of [l0 ++ l] carry the same given name and are
    of different classes. *)
Definition name_clash (given_name : ConfigType → option string)
    (l0 l : list ConfigType) : Prop :=
  ∃ t1 t2 n, t1 ∈ l ∧ t2 ∈ l0 ++ l
             ∧ named given_name t1 n ∧ named given_name t2 n
             ∧ type_of t1 ≠ type_of t2.

(** The builder with another [step_keys_to_execute] argument. *)
Definition with_keys (step_keys_to_execute : option (list string))
    (b : Plan._PlanBuilder) : Plan._PlanBuilder :=
  Plan.mk_PlanBuilder (Plan.pipeline b) (Plan.environment_config b)
    step_keys_to_execute (Plan.mode_definition b) (Plan._steps b)
    (Plan.step_output_map b) (Plan._seen_keys b).

Definition lift_keys (x : option (list string))
    (r : Result Plan._PlanBuilder) : Result Plan._PlanBuilder :=
  r ≫= λ b, Ok (with_keys x b).

(** What the traversal never assigns. *)
Definition static (b : Plan._PlanBuilder)
  : PipelineDefinition * EnvironmentConfig * option (list string)
    * ModeDefinition :=
  (Plan.pipeline b, Plan.environment_config b, Plan.step_keys_to_execute b,
   Plan.mode_definition b).

(** A builder that has added a step has steps to iterate over. *)
Definition seen_implies_steps (b : Plan._PlanBuilder) : Prop :=
  Plan._seen_keys b ≠ ∅ → Plan._steps b ≠ [].

(** Rules 4 to 7 of the resolver are reached without a parent source: the
    input is not mapped from the enclosing graph, or the resolved inputs of
    the enclosing graph have none of the mapped name. *)
Definition no_parent_source (solid : Solid) (input_name : string)
    (parent_step_inputs : option (list StepInput)) : Prop :=
  mapped_inputs solid !! input_name = None
  ∨ ∃ parent_name l,
      mapped_inputs solid !! input_name = Some parent_name
      ∧ parent_step_inputs = Some l
      ∧ Plan.parent_inputs_dict l !! parent_name = None.

(** The spec's reading of repeated cancellation: on a run that is no longer
    queued, [cancel_run] returns false and leaves the instance as it is. *)
Definition spec_cancel_is_idempotent
    (run_launcher : RunCoordinator.RunLauncher) : Prop :=
  ∀ instance run_id run,
    RunCoordinator.runs instance !! run_id = Some run →
    RunCoordinator.status run ≠ RunCoordinator.QUEUED →
    RunCoordinator.cancel_run run_launcher (Some instance) run_id
    = Ok (false, instance).

(** The step inputs of the plan that is built, per step key. *)
Definition planned_inputs (r : Result ExecutionPlan.t)
  : option (list (string * list StepInput)) :=
  match r with
  | Ok plan =>
      Some ((λ step, (key step, step_inputs step))
              <$> ExecutionPlan.steps plan)
  | Raise _ => None
  end.

End Specs.
Import Specs.

(* ===================================================================== *)
(** * Relations and invariants used to state properties of the code *)
(* ===================================================================== *)

Module Invariants.

(** [d'] is [d] or the definition of a solid nested in [d], at any depth. *)
Inductive reaches : NodeDefinition → NodeDefinition → Prop :=
| reaches_here (d : NodeDefinition) : reaches d d
| reaches_inside (data : NodeData) (graph_solids sorted : list Solid)
    (ds : DependencyStructure) (s : Solid) (d' : NodeDefinition) :
    s ∈ graph_solids → reaches (definition s) d' →
    reaches (GraphDefinition data graph_solids sorted ds) d'.

(** The config types that the registry is to hold: those iterated from
    the config field of a solid definition at any depth in the node
    definitions, from the environment type, and from the loader and the
    materializer schemas of the given dagster types. *)
Definition reachable_type (iterate_config_types : ConfigType → list ConfigType)
    (dagster_types : list DagsterType) (node_defs : list NodeDefinition)
    (environment_type : ConfigType) (t : ConfigType) : Prop :=
  (∃ node_def data,
     node_def ∈ node_defs ∧ reaches node_def (SolidDefinition data)
     ∧ node_has_config_field data = true
     ∧ t ∈ iterate_config_types (config_type (node_config_field data)))
  ∨ t ∈ iterate_config_types environment_type
  ∨ ∃ dagster_type schema_type,
      dagster_type ∈ dagster_types
      ∧ (loader dagster_type = Some schema_type
         ∨ materializer dagster_type = Some schema_type)
      ∧ t ∈ iterate_config_types schema_type.

(** [r] is the built-in that the by-name index starts with under [n]: the
    last of the built-ins with that given name. *)
Definition seeded (given_name : ConfigType → option string)
    (builtins : list ConfigType) (n : string) (r : ConfigType) : Prop :=
  ∃ l1 l2, builtins = l1 ++ r :: l2 ∧ named given_name r n
           ∧ ∀ r', r' ∈ l2 → ¬ named given_name r' n.

(** A reachable type meets, under its given name, a type of another class:
    the built-in seeded under that name, or another reachable type. *)
Definition registry_clash (given_name : ConfigType → option string)
    (builtins : list ConfigType) (reachable : ConfigType → Prop) : Prop :=
  ∃ t n, reachable t ∧ named given_name t n
         ∧ ((∃ r, seeded given_name builtins n r ∧ type_of t ≠ type_of r)
            ∨ ∃ t', reachable t' ∧ named given_name t' n
                    ∧ type_of t ≠ type_of t').

(** Two reachable types carry the same given name and are of different
    classes. *)
Definition reachable_clash (given_name : ConfigType → option string)
    (reachable : ConfigType → Prop) : Prop :=
  ∃ t1 t2 n, reachable t1 ∧ reachable t2 ∧ named given_name t1 n
             ∧ named given_name t2 n ∧ type_of t1 ≠ type_of t2.

(** An input that the inputs schema of a solid offers: its type has a
    loader, no dependency feeds it, and it is not mapped from the enclosing
    graph. *)
Definition configurable_input (solid : Solid) (ds : DependencyStructure)
    (n : string) (inp : InputDefinition) : Prop :=
  is_Some (loader (input_dagster_type inp))
  ∧ has_deps ds (input_handle solid (input_name inp)) = false
  ∧ container_maps_input solid n = false.

(** A graph that exposes its children to config. *)
Definition is_open_graph (acc : SchemaSynthesis.NodeAccessors) (s : Solid)
  : Prop :=
  match definition s with
  | GraphDefinition _ _ _ _ =>
      SchemaSynthesis.has_config_mapping acc (definition s) = false
  | SolidDefinition _ => False
  end.

(** The steps of a builder have pairwise distinct keys, all of them seen. *)
Definition keys_distinct (b : Plan._PlanBuilder) : Prop :=
  NoDup (key <$> od_values (Plan._steps b))
  ∧ ∀ step, step ∈ od_values (Plan._steps b) →
            key step ∈ Plan._seen_keys b.

(** A step output handle recorded in the builder names a planned step. *)
Definition names_planned_step (b : Plan._PlanBuilder)
    (o : option StepOutputHandle) : Prop :=
  ∃ handle step,
    o = Some handle ∧ step ∈ od_values (Plan._steps b)
    ∧ step_key handle = key step.

(** The step factory of [plan/compute.py] makes the key of a step from the
    string of its handle, and gives the step that handle and the step
    inputs it is called with. *)
Definition steps_keyed_by_handle (ext : Collaborators)
    (key_of : string → string) : Prop :=
  ∀ pipeline_name env solid inputs handle step,
    create_compute_step ext pipeline_name env solid inputs handle = Ok step →
    key step = key_of (to_string handle) ∧ solid_handle step = handle
    ∧ step_inputs step = inputs.

(** [k] is the key of a step of the builder. *)
Definition planned (b : Plan._PlanBuilder) (k : string) : Prop :=
  ∃ step, step ∈ od_values (Plan._steps b) ∧ key step = k.

(** The dependency keys of step inputs are keys of steps of the builder. *)
Definition inputs_planned (b : Plan._PlanBuilder) (l : list StepInput)
  : Prop :=
  ∀ i k, i ∈ l → k ∈ dependency_keys i → planned b k.

(** The state of a builder during the traversal, when steps are keyed by
    their handles: the key of every entry of [_steps] is made from the
    handle string it is under, the keys of the steps are seen, and step
    output handles and step inputs name planned steps only. *)
Definition well_planned (key_of : string → string)
    (b : Plan._PlanBuilder) : Prop :=
  (∀ h step, (h, step) ∈ Plan._steps b → key step = key_of h)
  ∧ (∀ step, step ∈ od_values (Plan._steps b) →
             key step ∈ Plan._seen_keys b)
  ∧ (∀ k handle, Plan.step_output_map b !! k = Some handle →
                 planned b (step_key handle))
  ∧ (∀ step, step ∈ od_values (Plan._steps b) →
             inputs_planned b (step_inputs step)).

(** The steps of [b] are steps of [b']. *)
Definition extends (b b' : Plan._PlanBuilder) : Prop :=
  ∀ step, step ∈ od_values (Plan._steps b) →
          step ∈ od_values (Plan._steps b').

End Invariants.
Import Invariants.

(* ===================================================================== *)
(** * Facts about the Python prelude *)
(* ===================================================================== *)

Module PyFacts.

Lemma bind_Ok {A B} (a : A) (k : A → Result B) : (Ok a ≫= k) = k a.
Proof. reflexivity. Qed.

Lemma bind_Raise {A B} (e : PyError) (k : A → Result B) :
  (Raise e ≫= k) = Raise e.
Proof. reflexivity. Qed.

Lemma bind_Ok_inv {A B} (r : Result A) (k : A → Result B) (b : B) :
  r ≫= k = Ok b → ∃ a, r = Ok a ∧ k a = Ok b.
Proof. destruct r as [a|e]; [by exists a|done]. Qed.

Lemma for_each_nil {A S} (body : S → A → Result S) (s : S) :
  for_each body [] s = Ok s.
Proof. reflexivity. Qed.

Lemma for_each_cons {A S} (body : S → A → Result S) (x : A) (xs : list A)
    (s : S) :
  for_each body (x :: xs) s = body s x ≫= for_each body xs.
Proof. reflexivity. Qed.

(** A loop keeps what each turn keeps. *)
Lemma for_each_preserves {A S} (P : S → Prop) (body : S → A → Result S)
    (xs : list A) :
  (∀ s x s', x ∈ xs → P s → body s x = Ok s' → P s') →
  ∀ s s', P s → for_each body xs s = Ok s' → P s'.
Proof.
  induction xs as [|x xs IH]; intros Hbody s s' Hs.
  - by intros [= <-].
  - rewrite for_each_cons. intros (s1 & H1 & Hrest)%bind_Ok_inv.
    eapply IH; [|eapply (Hbody s x)|exact Hrest]; try done.
    + intros ??? Hin. apply Hbody. by apply elem_of_cons; right.
    + by apply elem_of_cons; left.
Qed.

Lemma comprehension_Forall2 {A B} (f : A → Result B) (xs : list A)
    (ys : list B) :
  Forall2 (λ x y, f x = Ok y) xs ys → comprehension f xs = Ok ys.
Proof.
  induction 1 as [|x y xs ys Hxy _ IH]; cbn; [done|].
  by rewrite Hxy, bind_Ok, IH.
Qed.

Lemma append_assoc (a b c : string) : (a +:+ b) +:+ c = a +:+ (b +:+ c).
Proof.
  induction a as [|ch a IH]; [done|].
  change (String ch ((a +:+ b) +:+ c) = String ch (a +:+ b +:+ c)).
  by rewrite IH.
Qed.

Lemma mentions_here (pre needle post : string) :
  mentions (pre +:+ needle +:+ post) needle.
Proof. by exists pre, post. Qed.

Lemma mentions_after (pre rest needle : string) :
  mentions rest needle → mentions (pre +:+ rest) needle.
Proof.
  intros (p & q & ->). exists (pre +:+ p), q. by rewrite append_assoc.
Qed.

Lemma od_get_set_eq {V} (d : list (string * V)) (k : string) (v : V) :
  od_get (od_set d k v) k = Some v.
Proof.
  induction d as [|[k' v'] d IH]; cbn.
  - by rewrite decide_True.
  - destruct (decide (k' = k)) as [->|Hne]; cbn.
    + by rewrite decide_True.
    + by rewrite decide_False.
Qed.

Lemma od_get_set_ne {V} (d : list (string * V)) (k k' : string) (v : V) :
  k ≠ k' → od_get (od_set d k v) k' = od_get d k'.
Proof.
  intros Hne. induction d as [|[k0 v0] d IH]; cbn.
  - by rewrite decide_False.
  - destruct (decide (k0 = k)) as [->|Hne0]; cbn.
    + by rewrite !decide_False.
    + destruct (decide (k0 = k')); [done|apply IH].
Qed.

Lemma od_set_nonempty {V} (d : list (string * V)) (k : string) (v : V) :
  od_set d k v ≠ [].
Proof.
  destruct d as [|[k' v'] d]; cbn; [done|]. by destruct (decide (k' = k)).
Qed.

End PyFacts.
Import PyFacts.

Module SelectorFacts.

(** ** Selectors of named definitions *)

Lemma selector_lookup_last (l1 l2 : list ConfigurableDefinition)
    (d : ConfigurableDefinition) :
  (∀ d', d' ∈ l2 → name d' ≠ name d) →
  fields (selector_for_named_defs (l1 ++ d :: l2)) !! name d
  = Some (def_config_field d None).
Proof.
  unfold selector_for_named_defs; cbn [fields].
  rewrite foldl_app; cbn [foldl].
  generalize (foldl (λ (acc : gmap string Field) named_def,
                       <[ name named_def := def_config_field named_def None ]>
                         acc) ∅ l1) as m.
  induction l2 as [|d' l2 IH] using rev_ind; intros m Hlast; cbn.
  - by rewrite lookup_insert_eq.
  - rewrite foldl_app; cbn. rewrite lookup_insert_ne.
    + apply IH. intros d'' Hin. apply Hlast, elem_of_app. by left.
    + apply Hlast, elem_of_app. right. by apply list_elem_of_singleton.
Qed.

Lemma selector_lookup_from (defs : list ConfigurableDefinition) (n : string)
    (f : Field) :
  fields (selector_for_named_defs defs) !! n = Some f →
  ∃ d, d ∈ defs ∧ name d = n ∧ f = def_config_field d None.
Proof.
  unfold selector_for_named_defs; cbn [fields].
  induction defs as [|d defs IH] using rev_ind; cbn.
  - by rewrite lookup_empty.
  - rewrite foldl_app; cbn. destruct (decide (name d = n)) as [<-|Hne].
    + rewrite lookup_insert_eq. intros [= <-]. exists d.
      split; [|done]. apply elem_of_app; right. by apply list_elem_of_singleton.
    + rewrite lookup_insert_ne by done. intros (d' & ? & ? & ?)%IH.
      exists d'. split; [|done]. apply elem_of_app; by left.
Qed.

Lemma selector_lookup_in (defs : list ConfigurableDefinition)
    (d : ConfigurableDefinition) :
  d ∈ defs → is_Some (fields (selector_for_named_defs defs) !! name d).
Proof.
  unfold selector_for_named_defs; cbn [fields].
  induction defs as [|d' defs IH] using rev_ind; intros Hin.
  - by apply elem_of_nil in Hin.
  - rewrite foldl_app; cbn. destruct (decide (name d' = name d)) as [->|Hne].
    + rewrite lookup_insert_eq. by eexists.
    + rewrite lookup_insert_ne by done. apply IH.
      apply elem_of_app in Hin as [?|Heq%list_elem_of_singleton]; [done|].
      by subst.
Qed.

(** The config of the field of a definition is all-optional unless the
    definition has a required config field. *)
Lemma all_optional_def_config_field (d : ConfigurableDefinition)
    (r : option bool) :
  all_optional_type (config_type (def_config_field d r))
  = negb (has_config_field d && is_required (config_field d)).
Proof.
  unfold def_config_field, Field_; cbn [config_type all_optional_type].
  destruct (has_config_field d); cbn [andb negb].
  - by rewrite map_fold_singleton.
  - by rewrite map_fold_empty.
Qed.

End SelectorFacts.
Import SelectorFacts.

(* ===================================================================== *)
(** * Properties of the schema synthesizer *)
(* ===================================================================== *)

Module EnvironmentConfigsProofs.

Lemma resource_fields_lookup (resource_defs : gmap string ResourceDefinition)
    (n : string) :
  fields (define_resource_dictionary_cls resource_defs) !! n
  = resource_defs !! n ≫= λ d,
      if schema_truthy (config_schema d)
      then Some (def_config_field d None) else None.
Proof.
  unfold define_resource_dictionary_cls; cbn [fields].
  apply (map_fold_weak_ind
           (λ (r : gmap string Field) (m : gmap string ResourceDefinition),
              r !! n = m !! n ≫= λ d,
                if schema_truthy (config_schema d)
                then Some (def_config_field d None) else None)).
  - by rewrite !lookup_empty.
  - intros i d m r Hfresh IH.
    destruct (decide (i = n)) as [->|Hne].
    + rewrite lookup_insert_eq; cbn.
      destruct (schema_truthy (config_schema d)).
      * by rewrite lookup_insert_eq.
      * rewrite IH, Hfresh. done.
    + rewrite (lookup_insert_ne m) by done.
      destruct (schema_truthy (config_schema d)); [|done].
      by rewrite lookup_insert_ne.
Qed.

(** C2, as the spec states it, fails: a resource declared without config
    schema gets no field in the [resources] shape. *)
Lemma C2_bare_resource_has_no_field :
  ¬ spec_every_resource_has_field Examples.two_resources.
Proof.
  intros Hspec.
  destruct (Hspec "io" Examples.bare_resource) as (f & Hf & _).
  - by vm_compute.
  - rewrite resource_fields_lookup in Hf. vm_compute in Hf. discriminate.
Qed.

(** C2, amended: the [resources] shape has a field exactly for the declared
    resources whose [config_schema] is set, that field is
    [def_config_field] of the resource, a shape holding [config] when the
    resource has a config field and no field otherwise; a resource without
    config schema contributes no field. *)
Theorem C2_resources_shape (resource_defs : gmap string ResourceDefinition)
    (n : string) :
  fields (define_resource_dictionary_cls resource_defs) !! n
  = (resource_defs !! n ≫= λ d,
       if schema_truthy (config_schema d)
       then Some (def_config_field d None) else None)
  ∧ (∀ d, fields (config_type (def_config_field d None))
          = if has_config_field d
            then {[ "config" := config_field d ]} else ∅)
  ∧ (∀ d, resource_defs !! n = Some d → config_schema d = None →
          fields (define_resource_dictionary_cls resource_defs) !! n = None).
Proof.
  split; [apply resource_fields_lookup|split].
  - intros d. unfold def_config_field, Field_; cbn. done.
  - intros d Hd Hnone. rewrite resource_fields_lookup, Hd; cbn.
    by rewrite Hnone.
Qed.

Lemma C2_resources_shape_witness :
  fields (define_resource_dictionary_cls Examples.two_resources) !! "io"
  = None.
Proof.
  apply (proj2 (proj2 (C2_resources_shape Examples.two_resources "io"))
           Examples.bare_resource); reflexivity.
Defined.

(** C3, as the spec states it, fails: with [s3] (config required) declared
    before [filesystem] (no config), the field carries no default, though a
    later storage has an all-optional config. *)
Lemma C3_only_first_storage_is_tried :
  let selector :=
    selector_for_named_defs [Examples.s3_storage; Examples.fs_storage] in
  let names := ["s3"; "filesystem"] in
  list_to_set names ≠ Examples.default_storage_names
  ∧ spec_storage_default selector names
    = Some (VDict [("filesystem", VDict [])])
  ∧ ∃ f, define_storage_field selector names Examples.default_storage_names
         = Ok f
         ∧ default_value f = None
         ∧ default_value f ≠ spec_storage_default selector names.
Proof.
  cbv zeta. split; [|split].
  - intros Heq.
    assert (Hin : "s3" ∈ Examples.default_storage_names)
      by (rewrite <- Heq; set_solver).
    unfold Examples.default_storage_names in Hin. set_solver.
  - by vm_compute.
  - unfold define_storage_field.
    destruct (decide _) as [Heq|_].
    + exfalso.
      assert (Hin : "s3" ∈ Examples.default_storage_names)
        by (rewrite <- Heq; set_solver).
      unfold Examples.default_storage_names in Hin. set_solver.
    + eexists; split; [by vm_compute|]. split; [done|]. by vm_compute.
Qed.

(** C3, amended: when the declared storage names differ from the default
    set, only the first declared name is tried: the default is
    [{first: {}}] when the config of the field that the selector holds
    under that name is all-optional, and there is no default otherwise, or
    when no storage is declared.  For the storages of a mode, the selector
    holds under a name the field of the last declared storage of that
    name; so the config of the first declared storage decides when no
    later storage bears its name, and that of the last storage of that
    name otherwise. *)
Theorem C3_storage_default (storage_selector : ConfigType)
    (storage_names : list string) (defaults : gset string) :
  list_to_set storage_names ≠ defaults →
  match storage_names with
  | [] =>
      define_storage_field storage_selector storage_names defaults
      = Ok (Field_ storage_selector None None None)
  | first :: _ =>
      (∀ possible_default,
         fields storage_selector !! first = Some possible_default →
         ∃ f, define_storage_field storage_selector storage_names defaults
              = Ok f
              ∧ config_type f = storage_selector
              ∧ default_value f
                = if all_optional_type (config_type possible_default)
                  then Some (VDict [(first, VDict [])])
                  else None)
      ∧ ∀ (storage_defs earlier later : list IntermediateStorageDefinition)
          (storage_def : IntermediateStorageDefinition),
          storage_selector = selector_for_named_defs storage_defs →
          storage_names = name <$> storage_defs →
          storage_defs = earlier ++ storage_def :: later →
          name storage_def = first →
          (∀ d, d ∈ later → name d ≠ first) →
          ∃ f, define_storage_field storage_selector storage_names defaults
               = Ok f
               ∧ config_type f = selector_for_named_defs storage_defs
               ∧ default_value f
                 = if has_config_field storage_def
                      && is_required (config_field storage_def)
                   then None
                   else Some (VDict [(first, VDict [])])
  end.
Proof.
  intros Hne.
  destruct storage_names as [|first rest].
  { unfold define_storage_field. by rewrite decide_False. }
  assert (Hfield : ∀ possible_default,
            fields storage_selector !! first = Some possible_default →
            ∃ f, define_storage_field storage_selector (first :: rest)
                   defaults = Ok f
                 ∧ config_type f = storage_selector
                 ∧ default_value f
                   = if all_optional_type (config_type possible_default)
                     then Some (VDict [(first, VDict [])])
                     else None).
  { intros possible_default Hlook. unfold define_storage_field, subscript.
    rewrite decide_False by done. rewrite Hlook; cbn.
    destruct (all_optional_type (config_type possible_default));
      cbn; eexists; (split; [done|]); by split. }
  split; [done|].
  intros storage_defs earlier later storage_def -> Hnames -> <- Hlast.
  destruct (Hfield (def_config_field storage_def None))
    as (f & Hf & Hty & Hdefault); [by apply selector_lookup_last|].
  exists f. split; [done|]. split; [done|].
  rewrite Hdefault, all_optional_def_config_field.
  by destruct (has_config_field storage_def
               && is_required (config_field storage_def)).
Qed.

Lemma C3_storage_default_witness :
  (∃ f, define_storage_field
          (selector_for_named_defs [Examples.fs_storage; Examples.s3_storage])
          ["filesystem"; "s3"] Examples.default_storage_names
        = Ok f
        ∧ default_value f = Some (VDict [("filesystem", VDict [])]))
  ∧ ∃ f, define_storage_field
           (selector_for_named_defs
              [Examples.s3_storage; Examples.fs_storage])
           ["s3"; "filesystem"] Examples.default_storage_names
         = Ok f
         ∧ default_value f = None.
Proof.
  assert (Hne : ∀ rest : list string,
            list_to_set rest ∪ {[ "s3" ]} ≠ Examples.default_storage_names).
  { intros rest Heq.
    assert (Hin : "s3" ∈ Examples.default_storage_names)
      by (rewrite <- Heq; set_solver).
    unfold Examples.default_storage_names in Hin. set_solver. }
  split.
  - destruct (C3_storage_default
                (selector_for_named_defs
                   [Examples.fs_storage; Examples.s3_storage])
                ["filesystem"; "s3"] Examples.default_storage_names)
      as [Hfield _].
    { intros Heq. apply (Hne ["filesystem"]). rewrite <- Heq. set_solver. }
    destruct (Hfield (def_config_field Examples.fs_storage None))
      as (f & Hf & _ & Hd); [by vm_compute|].
    exists f. split; [done|]. rewrite Hd. by vm_compute.
  - destruct (C3_storage_default
                (selector_for_named_defs
                   [Examples.s3_storage; Examples.fs_storage])
                ["s3"; "filesystem"] Examples.default_storage_names)
      as [_ Hmode].
    { intros Heq. apply (Hne ["filesystem"]). rewrite <- Heq. set_solver. }
    destruct (Hmode [Examples.s3_storage; Examples.fs_storage] []
                [Examples.fs_storage] Examples.s3_storage)
      as (f & Hf & _ & Hd); [reflexivity..| |].
    { by intros d ->%list_elem_of_singleton. }
    exists f. split; [done|]. exact Hd.
Defined.

End EnvironmentConfigsProofs.

(* ===================================================================== *)
(** * Properties of the type registry *)
(* ===================================================================== *)

Module RegistryProofs.

Section registry_proofs.

Variable key : ConfigType → string.
Variable given_name : ConfigType → option string.
Variable iterate_config_types : ConfigType → list ConfigType.
Variable construct_dagster_type_dictionary :
  list NodeDefinition → list DagsterType.
Variable ALL_RUNTIME_BUILTINS : list DagsterType.
Variable ALL_CONFIG_BUILTINS : list ConfigType.

Local Abbreviation register := (register_type key given_name).
Local Abbreviation by_key_of :=
  (foldl (λ (m : gmap string ConfigType) t, <[ key t := t ]> m)).

Local Abbreviation named := (Specs.named given_name).

Lemma register_cases (bn bk : gmap string ConfigType) (t : ConfigType) :
  (∃ n r, named t n ∧ bn !! n = Some r ∧ type_of t ≠ type_of r
          ∧ register (bn, bk) t
            = Raise (DagsterInvalidDefinitionError (unique_name_message n)))
  ∨ (∃ n r, named t n ∧ bn !! n = Some r ∧ type_of t = type_of r
            ∧ register (bn, bk) t = Ok (bn, <[ key t := t ]> bk))
  ∨ (∃ n, named t n ∧ bn !! n = None
          ∧ register (bn, bk) t = Ok (<[ n := t ]> bn, <[ key t := t ]> bk))
  ∨ ((∀ n, ¬ named t n)
     ∧ register (bn, bk) t = Ok (bn, <[ key t := t ]> bk)).
Proof.
  unfold register_type, named.
  destruct (given_name t) as [n|] eqn:Hn.
  - destruct (str_truthy n) eqn:Htr.
    + destruct (bn !! n) as [r|] eqn:Hr.
      * destruct (decide (type_of t = type_of r)) as [Heq|Hneq].
        -- right; left. by exists n, r.
        -- left. by exists n, r.
      * right; right; left. by exists n.
    + right; right; right. split; [|done].
      intros n' [[= <-] Htr']. congruence.
  - right; right; right. split; [|done]. by intros n' [? _].
Qed.

(** The only exception of the loop is the definition error. *)
Lemma loop_total (l : list ConfigType) (bn bk : gmap string ConfigType) :
  (∃ bn' bk', for_each register l (bn, bk) = Ok (bn', bk'))
  ∨ (∃ msg, for_each register l (bn, bk)
            = Raise (DagsterInvalidDefinitionError msg)).
Proof.
  revert bn bk. induction l as [|t l IH]; intros bn bk.
  - left. by eexists _, _.
  - rewrite for_each_cons. destruct (register_cases bn bk t)
      as [(n & r & _ & _ & _ & ->)|[(n & r & _ & _ & _ & ->)|
          [(n & _ & _ & ->)|[_ ->]]]]; rewrite ?bind_Ok, ?bind_Raise; eauto.
Qed.

Lemma loop_by_key (l : list ConfigType) (bn bk bn' bk' : gmap string ConfigType) :
  for_each register l (bn, bk) = Ok (bn', bk') → bk' = by_key_of bk l.
Proof.
  revert bn bk. induction l as [|t l IH]; intros bn bk.
  - by intros [= _ <-].
  - rewrite for_each_cons. destruct (register_cases bn bk t)
      as [(n & r & _ & _ & _ & ->)|[(n & r & _ & _ & _ & ->)|
          [(n & _ & _ & ->)|[_ ->]]]]; rewrite ?bind_Ok, ?bind_Raise;
      [done|apply IH..].
Qed.

(** Entries of the by-name index are never replaced, every type of the
    loop finds an entry of its name and class, and every entry comes from
    the initial index or from the loop. *)
Lemma loop_by_name (l : list ConfigType) (bn bk bn' bk' : gmap string ConfigType) :
  for_each register l (bn, bk) = Ok (bn', bk') →
  (∀ n r, bn !! n = Some r → bn' !! n = Some r)
  ∧ (∀ t n, t ∈ l → named t n →
            ∃ r, bn' !! n = Some r ∧ type_of r = type_of t)
  ∧ (∀ n r, bn' !! n = Some r → bn !! n = Some r ∨ (r ∈ l ∧ named r n)).
Proof.
  revert bn bk. induction l as [|t l IH]; intros bn bk.
  - intros [= <- _]. split; [done|]. split; [|by left].
    intros t n Hin. by apply elem_of_nil in Hin.
  - rewrite for_each_cons. destruct (register_cases bn bk t)
      as [(n & r & _ & _ & _ & ->)|[(n & r & Hn & Hr & Hty & ->)|
          [(n & Hn & Hr & ->)|[Hnone ->]]]]; rewrite ?bind_Ok, ?bind_Raise;
      [done|..];
      intros Hloop; destruct (IH _ _ Hloop) as (Hkeep & Hall & Hfrom);
      (split; [|split]).
    + done.
    + intros t' n' [->|Hin]%elem_of_cons Hn'; [|by eauto].
      destruct Hn as [Hn _], Hn' as [Hn' _].
      assert (n' = n) as -> by congruence. exists r. split; [by apply Hkeep|done].
    + intros n' r' Hr'. destruct (Hfrom _ _ Hr') as [?|[? ?]]; [by left|].
      right. split; [by apply elem_of_cons; right|done].
    + intros n' r' Hr'. apply Hkeep.
      rewrite lookup_insert_ne; [done|]. intros ->. congruence.
    + intros t' n' [->|Hin]%elem_of_cons Hn'; [|by eauto].
      destruct Hn as [Hn ?], Hn' as [Hn' _].
      assert (n' = n) as -> by congruence. exists t.
      split; [|done]. apply Hkeep. by rewrite lookup_insert_eq.
    + intros n' r' Hr'. destruct (Hfrom _ _ Hr') as [Hins|[? ?]].
      * destruct (decide (n = n')) as [->|Hne].
        -- rewrite lookup_insert_eq in Hins. injection Hins as <-.
           right. split; [by apply elem_of_cons; left|done].
        -- rewrite lookup_insert_ne in Hins by done. by left.
      * right. split; [by apply elem_of_cons; right|done].
    + done.
    + intros t' n' [->|Hin]%elem_of_cons Hn'; [|by eauto].
      by destruct (Hnone n').
    + intros n' r' Hr'. destruct (Hfrom _ _ Hr') as [?|[? ?]]; [by left|].
      right. split; [by apply elem_of_cons; right|done].
Qed.

(** When the loop raises, a type of the loop met an entry of its name and
    of another class, registered before the loop or by it. *)
Lemma loop_raise (l : list ConfigType) (bn bk : gmap string ConfigType)
    (e : PyError) :
  for_each register l (bn, bk) = Raise e →
  ∃ t t0 n, t ∈ l ∧ named t n ∧ type_of t ≠ type_of t0
            ∧ (bn !! n = Some t0 ∨ (t0 ∈ l ∧ named t0 n)).
Proof.
  revert bn bk. induction l as [|t l IH]; intros bn bk; [done|].
  rewrite for_each_cons. destruct (register_cases bn bk t)
    as [(n & r & Hn & Hr & Hty & ->)|[(n & r & Hn & Hr & Hty & ->)|
        [(n & Hn & Hr & ->)|[Hnone ->]]]]; rewrite ?bind_Ok, ?bind_Raise.
  - intros _. exists t, r, n. split; [by apply elem_of_cons; left|]. eauto.
  - intros (t' & t0 & n' & Hin & Hn' & Hty' & Hsrc)%IH.
    exists t', t0, n'. split; [by apply elem_of_cons; right|].
    split; [done|]. split; [done|].
    destruct Hsrc as [?|[? ?]]; [by left|].
    right. split; [by apply elem_of_cons; right|done].
  - intros (t' & t0 & n' & Hin & Hn' & Hty' & Hsrc)%IH.
    exists t', t0, n'. split; [by apply elem_of_cons; right|].
    split; [done|]. split; [done|].
    destruct Hsrc as [Hins|[? ?]].
    + destruct (decide (n = n')) as [->|Hne].
      * rewrite lookup_insert_eq in Hins. injection Hins as <-.
        right. split; [by apply elem_of_cons; left|done].
      * rewrite lookup_insert_ne in Hins by done. by left.
    + right. split; [by apply elem_of_cons; right|done].
  - intros (t' & t0 & n' & Hin & Hn' & Hty' & Hsrc)%IH.
    exists t', t0, n'. split; [by apply elem_of_cons; right|].
    split; [done|]. split; [done|].
    destruct Hsrc as [?|[? ?]]; [by left|].
    right. split; [by apply elem_of_cons; right|done].
Qed.

(** The seed of the by-name index holds built-ins under their names. *)
Lemma seed_by_name_lookup (n : string) (r : ConfigType) :
  seed_by_name given_name ALL_CONFIG_BUILTINS !! n = Some r →
  r ∈ ALL_CONFIG_BUILTINS ∧ named r n.
Proof.
  unfold seed_by_name.
  generalize ALL_CONFIG_BUILTINS as l.
  induction l as [|t l IH] using rev_ind; cbn.
  - by rewrite lookup_empty.
  - rewrite foldl_app; cbn. unfold named.
    destruct (given_name t) as [m|] eqn:Hm.
    + destruct (str_truthy m) eqn:Htr.
      * destruct (decide (m = n)) as [->|Hne].
        -- rewrite lookup_insert_eq. intros [= <-].
           split; [apply elem_of_app; right; by apply list_elem_of_singleton|done].
        -- rewrite lookup_insert_ne by done. intros [? ?]%IH.
           split; [apply elem_of_app; by left|done].
      * intros [? ?]%IH. split; [apply elem_of_app; by left|done].
    + intros [? ?]%IH. split; [apply elem_of_app; by left|done].
Qed.

(** Last writer wins in an index filled by successive assignments. *)
Lemma by_key_last (m : gmap string ConfigType) (l1 l2 : list ConfigType)
    (t : ConfigType) :
  (∀ t', t' ∈ l2 → key t' ≠ key t) →
  by_key_of m (l1 ++ t :: l2) !! key t = Some t.
Proof.
  intros Hlast. rewrite foldl_app; cbn.
  generalize (by_key_of m l1) as m'. revert Hlast.
  induction l2 as [|t' l2 IH] using rev_ind; intros Hlast m'; cbn.
  - by rewrite lookup_insert_eq.
  - rewrite foldl_app; cbn. rewrite lookup_insert_ne.
    + apply IH. intros t'' Hin. apply Hlast, elem_of_app. by left.
    + apply Hlast, elem_of_app. right. by apply list_elem_of_singleton.
Qed.

Lemma by_key_present (m : gmap string ConfigType) (l : list ConfigType)
    (t : ConfigType) :
  t ∈ l → ∃ t', by_key_of m l !! key t = Some t' ∧ key t' = key t ∧ t' ∈ l.
Proof.
  revert m. induction l as [|t0 l IH] using rev_ind; intros m Hin.
  - by apply elem_of_nil in Hin.
  - rewrite foldl_app; cbn.
    destruct (decide (key t0 = key t)) as [Heq|Hne].
    + exists t0. rewrite Heq, lookup_insert_eq.
      split; [done|]. split; [done|].
      apply elem_of_app; right. by apply list_elem_of_singleton.
    + rewrite lookup_insert_ne by done.
      apply elem_of_app in Hin as [Hin|Hin%list_elem_of_singleton]; [|by subst].
      destruct (IH m Hin) as (t' & ? & ? & ?). exists t'.
      split; [done|]. split; [done|]. apply elem_of_app; by left.
Qed.

(** Induction on a node definition, with the hypothesis for the solids of
    a graph. *)
Lemma NodeDefinition_nested_ind (P : NodeDefinition → Prop) :
  (∀ data, P (SolidDefinition data)) →
  (∀ data graph_solids sorted ds,
     Forall (λ s, P (definition s)) graph_solids →
     P (GraphDefinition data graph_solids sorted ds)) →
  ∀ d, P d.
Proof.
  intros Hleaf Hgraph. fix IH 1. intros [data|data graph_solids sorted ds].
  - apply Hleaf.
  - apply Hgraph.
    induction graph_solids as [|[n d m] l IHl]; constructor.
    + apply IH.
    + apply IHl.
Qed.

Lemma iterate_graph (data : NodeData) (graph_solids sorted : list Solid)
    (ds : DependencyStructure) (t : ConfigType) :
  t ∈ iterate_node_def_config_types iterate_config_types
        (GraphDefinition data graph_solids sorted ds)
  ↔ ∃ s, s ∈ graph_solids
         ∧ t ∈ iterate_node_def_config_types iterate_config_types
                 (definition s).
Proof.
  cbn [iterate_node_def_config_types].
  induction graph_solids as [|[n d m] l IH].
  - rewrite elem_of_nil. split; [done|]. by intros (s & ?%elem_of_nil & _).
  - rewrite elem_of_app, IH. split.
    + intros [Hin|(s & Hs & Hin)].
      * exists (mkSolid n d m). split; [by apply elem_of_cons; left|done].
      * exists s. split; [by apply elem_of_cons; right|done].
    + intros (s & [->|Hs]%elem_of_cons & Hin); [by left|].
      right. by exists s.
Qed.

(** The types of a node definition are those of the config fields of the
    solid definitions nested in it. *)
Lemma iterate_node_def_reaches (root : NodeDefinition) (t : ConfigType) :
  t ∈ iterate_node_def_config_types iterate_config_types root
  ↔ ∃ data, reaches root (SolidDefinition data)
            ∧ node_has_config_field data = true
            ∧ t ∈ iterate_config_types (config_type (node_config_field data)).
Proof.
  split.
  - induction root as [data|data graph_solids sorted ds IH]
      using NodeDefinition_nested_ind.
    + cbn. destruct (node_has_config_field data) eqn:Hfield;
        [|by intros ?%elem_of_nil].
      intros Ht. exists data. split; [apply reaches_here|done].
    + intros (s & Hs & Ht)%iterate_graph.
      rewrite Forall_forall in IH.
      destruct (IH s Hs Ht) as (data' & Hreach & ? & ?).
      exists data'. split; [by eapply reaches_inside|done].
  - intros (data & Hreach & Hfield & Ht).
    remember (SolidDefinition data) as leaf eqn:Hleaf.
    induction Hreach as [d|data' graph_solids sorted ds s d' Hin _ IH].
    + subst d. cbn. by rewrite Hfield.
    + apply iterate_graph. exists s. split; [done|]. by apply IH.
Qed.

Local Abbreviation construct :=
  (construct_config_type_dictionary key given_name iterate_config_types
     construct_dagster_type_dictionary ALL_RUNTIME_BUILTINS
     ALL_CONFIG_BUILTINS).
Local Abbreviation gathered_types :=
  (all_types iterate_config_types construct_dagster_type_dictionary
     ALL_RUNTIME_BUILTINS).
Local Abbreviation reachable :=
  (λ node_defs,
     reachable_type iterate_config_types
       (construct_dagster_type_dictionary node_defs ++ ALL_RUNTIME_BUILTINS)
       node_defs).

(** What is gathered is what is reachable. *)
Lemma gathered_reachable (node_defs : list NodeDefinition)
    (environment_type : ConfigType) (t : ConfigType) :
  t ∈ gathered_types node_defs environment_type
  ↔ reachable node_defs environment_type t.
Proof.
  unfold all_types, _gather_all_config_types, _gather_all_schemas,
    reachable_type.
  rewrite !elem_of_app, !list_elem_of_In, !in_flat_map.
  split.
  - intros [[(d & Hd & Ht)|Ht]|(dt & Hdt & Ht)].
    + left. apply list_elem_of_In, iterate_node_def_reaches in Ht
        as (data & ? & ? & ?).
      exists d, data. by rewrite list_elem_of_In.
    + right; left. done.
    + right; right. apply in_app_or in Ht as [Ht|Ht].
      * destruct (loader dt) as [schema_type|] eqn:Hl; [|done].
        exists dt, schema_type. rewrite list_elem_of_In.
        split; [done|]. split; [by left|by apply list_elem_of_In].
      * destruct (materializer dt) as [schema_type|] eqn:Hm; [|done].
        exists dt, schema_type. rewrite list_elem_of_In.
        split; [done|]. split; [by right|by apply list_elem_of_In].
  - intros [(d & data & Hd & Hreach & Hfield & Ht)|[Ht|
              (dt & schema_type & Hdt & Hschema & Ht)]].
    + left; left. exists d. split; [by apply list_elem_of_In|].
      apply list_elem_of_In, iterate_node_def_reaches. by exists data.
    + left; right. done.
    + right. exists dt. split; [by apply list_elem_of_In|].
      apply in_or_app. destruct Hschema as [->| ->];
        [left|right]; by apply list_elem_of_In.
Qed.

(** The seed of the by-name index holds, under a name, the last built-in
    of that name. *)
Lemma seed_by_name_seeded (n : string) (r : ConfigType) :
  seed_by_name given_name ALL_CONFIG_BUILTINS !! n = Some r
  ↔ seeded given_name ALL_CONFIG_BUILTINS n r.
Proof.
  unfold seed_by_name, seeded.
  generalize ALL_CONFIG_BUILTINS as l.
  split.
  - revert r. induction l as [|t l IH] using rev_ind; intros r; cbn.
    + by rewrite lookup_empty.
    + rewrite foldl_app; cbn.
      assert (Hold : foldl
                (λ (acc : gmap string ConfigType) t0,
                   match given_name t0 with
                   | Some n0 => if str_truthy n0 then <[ n0 := t0 ]> acc
                                else acc
                   | None => acc
                   end) ∅ l !! n = Some r →
              ¬ named t n →
              ∃ l1 l2, l ++ [t] = l1 ++ r :: l2 ∧ named r n
                       ∧ ∀ r', r' ∈ l2 → ¬ named r' n).
      { intros (l1 & l2 & -> & Hr & Hlast)%IH Hnot.
        exists l1, (l2 ++ [t]). rewrite <- app_assoc. split; [done|].
        split; [done|].
        intros r' [?|Heq%list_elem_of_singleton]%elem_of_app;
          [by apply Hlast|by subst]. }
      destruct (given_name t) as [m|] eqn:Hm.
      * destruct (str_truthy m) eqn:Htr.
        -- destruct (decide (m = n)) as [->|Hne].
           ++ rewrite lookup_insert_eq. intros [= <-].
              exists l, []. split; [done|]. split; [done|].
              by intros r' ?%elem_of_nil.
           ++ rewrite lookup_insert_ne by done. intros Hr.
              apply Hold; [done|]. intros [? _]. congruence.
        -- intros Hr. apply Hold; [done|]. intros [? ?]. congruence.
      * intros Hr. apply Hold; [done|]. intros [? _]. congruence.
  - intros (l1 & l2 & -> & [Hr Htr] & Hlast).
    rewrite foldl_app; cbn [foldl]. rewrite Hr, Htr.
    generalize (foldl
                  (λ (acc : gmap string ConfigType) t0,
                     match given_name t0 with
                     | Some n0 => if str_truthy n0 then <[ n0 := t0 ]> acc
                                  else acc
                     | None => acc
                     end) ∅ l1) as m.
    induction l2 as [|t l2 IH] using rev_ind; intros m; cbn.
    + by rewrite lookup_insert_eq.
    + rewrite foldl_app; cbn.
      assert (Hnot : ¬ named t n)
        by (apply Hlast, elem_of_app; right; by apply list_elem_of_singleton).
      assert (Hrest := IH (λ r' Hin, Hlast r' ltac:(apply elem_of_app; by left)) m).
      destruct (given_name t) as [m'|] eqn:Hm'; [|done].
      destruct (str_truthy m') eqn:Htr'; [|done].
      rewrite lookup_insert_ne; [done|]. intros ->. by apply Hnot.
Qed.


End registry_proofs.



End RegistryProofs.

(* ===================================================================== *)
(** * Properties of the plan builder *)
(* ===================================================================== *)

Module PlanProofs.
Import Plan.

(** Induction on a solid, with the hypothesis for the solids of a graph. *)
Lemma Solid_nested_ind (P : Solid → Prop) :
  (∀ n data m, P (mkSolid n (SolidDefinition data) m)) →
  (∀ n data sl topo ds m,
     Forall P topo → P (mkSolid n (GraphDefinition data sl topo ds) m)) →
  ∀ s, P s.
Proof.
  intros Hleaf Hgraph. fix IH 1. intros [n [data|data sl topo ds] m].
  - apply Hleaf.
  - apply Hgraph. induction topo as [|s topo IHtopo]; constructor.
    + apply IH.
    + apply IHtopo.
Qed.

Section planner_proofs.

Variable ext : Collaborators.

(** [_build_from_sorted_solids] on one solid, with the recursion into a
    graph written as the loop it is. *)
Lemma build_from_solid_unfold (solid : Solid) (ds : DependencyStructure)
    (parent_handle : option SolidHandle)
    (parent_step_inputs : option (list StepInput)) (b : _PlanBuilder) :
  build_from_solid ext solid ds parent_handle parent_step_inputs b
  = let handle := mkHandle (solid_name solid) parent_handle in
    collect_step_inputs ext b solid ds handle parent_step_inputs
    ≫= λ step_inputs,
      (match definition solid with
       | SolidDefinition _ =>
           create_compute_step ext (pipeline_name b) (environment_config b)
             solid step_inputs handle
           ≫= add_step b
       | GraphDefinition _ _ sorted_solids inner_structure =>
           for_each
             (λ self inner,
                build_from_solid ext inner inner_structure (Some handle)
                  (Some step_inputs) self)
             sorted_solids b
       end)
      ≫= λ b1, record_outputs ext b1 solid handle.
Proof.
  destruct solid as [n [data|data sl topo ids] m]; [reflexivity|].
  cbn [build_from_solid definition solid_name]. cbv zeta.
  destruct (collect_step_inputs _ _ _ _ _ _) as [step_inputs|e];
    [|reflexivity].
  rewrite !bind_Ok. f_equal.
  generalize b. induction topo as [|s topo IH]; intros b0; [reflexivity|].
  rewrite for_each_cons.
  destruct (build_from_solid ext s ids _ _ b0) as [b1|e]; [|reflexivity].
  rewrite bind_Ok. apply IH.
Qed.

(** *** The traversal assigns neither the pipeline, nor the config, nor the
    subset argument, nor the mode *)

Lemma add_step_static (b b' : _PlanBuilder) (step : ExecutionStep) :
  add_step b step = Ok b' → static b' = static b.
Proof.
  unfold add_step. intros (? & _ & [= <-])%bind_Ok_inv. reflexivity.
Qed.

Lemma record_outputs_static (b b' : _PlanBuilder) (solid : Solid)
    (handle : SolidHandle) :
  record_outputs ext b solid handle = Ok b' → static b' = static b.
Proof.
  unfold record_outputs.
  apply (for_each_preserves (λ s, static s = static b)); [|done].
  intros s [out_name out_def] s' _ Hs.
  intros ([resolved_name resolved_handle] & _ & Hrest)%bind_Ok_inv.
  apply bind_Ok_inv in Hrest as (step & _ & [= <-]). exact Hs.
Qed.

Lemma build_from_solid_static (solid : Solid) :
  ∀ ds parent_handle parent_step_inputs b b',
    build_from_solid ext solid ds parent_handle parent_step_inputs b = Ok b' →
    static b' = static b.
Proof.
  induction solid as [n data m|n data sl topo ids m IH]
    using Solid_nested_ind;
    intros ds ph psi b b'; rewrite build_from_solid_unfold; cbv zeta;
    intros (step_inputs & _ & Hrest)%bind_Ok_inv;
    apply bind_Ok_inv in Hrest as (b1 & Hb1 & Hout);
    apply record_outputs_static in Hout; rewrite Hout;
    cbn [definition] in Hb1.
  - apply bind_Ok_inv in Hb1 as (step & _ & Hadd).
    by apply add_step_static in Hadd.
  - revert Hb1.
    apply (for_each_preserves (λ s, static s = static b)); [|done].
    intros s inner s' Hin Hs Hbuild.
    rewrite Forall_forall in IH. rewrite (IH inner Hin _ _ _ _ _ Hbuild).
    exact Hs.
Qed.

Lemma traverse_static (b b' : _PlanBuilder) :
  traverse ext b = Ok b' → static b' = static b.
Proof.
  unfold traverse, _build_from_sorted_solids.
  apply (for_each_preserves (λ s, static s = static b)); [|done].
  intros s solid s' _ Hs Hbuild.
  by rewrite (build_from_solid_static _ _ _ _ _ _ Hbuild).
Qed.

(** *** The traversal does not read the subset argument *)

Lemma for_each_with_keys {A} (x : option (list string))
    (body : _PlanBuilder → A → Result _PlanBuilder) (xs : list A) :
  (∀ b a, a ∈ xs → body (with_keys x b) a = lift_keys x (body b a)) →
  ∀ b, for_each body xs (with_keys x b) = lift_keys x (for_each body xs b).
Proof.
  induction xs as [|a xs IH]; intros Hbody b; [reflexivity|].
  rewrite !for_each_cons, Hbody by (by apply elem_of_cons; left).
  destruct (body b a) as [b1|e]; [|reflexivity].
  unfold lift_keys at 1. rewrite !bind_Ok. apply IH.
  intros ???. apply Hbody. by apply elem_of_cons; right.
Qed.

Lemma add_step_with_keys (x : option (list string)) (b : _PlanBuilder)
    (step : ExecutionStep) :
  add_step (with_keys x b) step = lift_keys x (add_step b step).
Proof.
  unfold add_step, lift_keys. cbn [_seen_keys _steps with_keys].
  destruct (decide (key step ∈ _seen_keys b)); [|reflexivity].
  by destruct (comprehension getattr_key (iter_dict (_steps b))).
Qed.

Lemma record_outputs_with_keys (x : option (list string)) (b : _PlanBuilder)
    (solid : Solid) (handle : SolidHandle) :
  record_outputs ext (with_keys x b) solid handle
  = lift_keys x (record_outputs ext b solid handle).
Proof.
  unfold record_outputs. apply for_each_with_keys.
  intros b0 [out_name out_def] _.
  destruct (resolve_output_to_origin ext (definition solid)
              (output_name out_def) handle) as [[rn rh]|e]; [|reflexivity].
  rewrite !bind_Ok. unfold get_step_by_handle. cbn [_steps with_keys].
  by destruct (od_subscript (_steps b0) (to_string rh)).
Qed.

Lemma build_from_solid_with_keys (x : option (list string)) (solid : Solid) :
  ∀ ds parent_handle parent_step_inputs b,
    build_from_solid ext solid ds parent_handle parent_step_inputs
      (with_keys x b)
    = lift_keys x
        (build_from_solid ext solid ds parent_handle parent_step_inputs b).
Proof.
  induction solid as [n data m|n data sl topo ids m IH]
    using Solid_nested_ind;
    intros ds ph psi b; rewrite !build_from_solid_unfold; cbv zeta;
    change (collect_step_inputs ext (with_keys x b))
      with (collect_step_inputs ext b);
    destruct (collect_step_inputs ext b _ ds _ psi) as [step_inputs|e];
    try reflexivity; rewrite !bind_Ok; cbn [definition].
  - change (pipeline_name (with_keys x b)) with (pipeline_name b).
    change (environment_config (with_keys x b)) with (environment_config b).
    destruct (create_compute_step ext _ _ _ _ _) as [step|e];
      [|reflexivity].
    rewrite !bind_Ok, add_step_with_keys.
    destruct (add_step b step) as [b1|e]; [|reflexivity].
    unfold lift_keys at 1. rewrite !bind_Ok.
    apply record_outputs_with_keys.
  - rewrite for_each_with_keys.
    + destruct (for_each _ topo b) as [b1|e]; [|reflexivity].
      unfold lift_keys at 1. rewrite !bind_Ok.
      apply record_outputs_with_keys.
    + intros b0 inner Hin. rewrite Forall_forall in IH. by apply IH.
Qed.

Lemma traverse_with_keys (x : option (list string)) (b : _PlanBuilder) :
  traverse ext (with_keys x b) = lift_keys x (traverse ext b).
Proof.
  unfold traverse, _build_from_sorted_solids. cbn [pipeline with_keys].
  apply for_each_with_keys. intros b0 solid _.
  apply build_from_solid_with_keys.
Qed.

(** *** The input-source resolver *)

(** The dictionary of the parent step inputs holds, under a name, a parent
    step input of that name. *)
Lemma parent_inputs_dict_lookup (l : list StepInput) (n : string)
    (i : StepInput) :
  parent_inputs_dict l !! n = Some i → i ∈ l ∧ step_input_name i = n.
Proof.
  unfold parent_inputs_dict.
  induction l as [|j l IH] using rev_ind; [cbn; by rewrite lookup_empty|].
  rewrite foldl_app; cbn.
  destruct (decide (step_input_name j = n)) as [<-|Hne].
  - rewrite lookup_insert_eq. intros [= <-].
    split; [|done]. apply elem_of_app; right. by apply list_elem_of_singleton.
  - rewrite lookup_insert_ne by done. intros [? ?]%IH.
    split; [|done]. apply elem_of_app; by left.
Qed.

(** Of the parent step inputs of one name, the last one is kept. *)
Lemma parent_inputs_dict_last (earlier later : list StepInput)
    (i : StepInput) :
  (∀ j, j ∈ later → step_input_name j ≠ step_input_name i) →
  parent_inputs_dict (earlier ++ i :: later) !! step_input_name i = Some i.
Proof.
  unfold parent_inputs_dict. rewrite foldl_app; cbn [foldl].
  generalize (foldl (λ (acc : gmap string StepInput) step_input,
                       <[ step_input_name step_input := step_input ]> acc)
                    ∅ earlier) as m.
  induction later as [|j later IH] using rev_ind; intros m Hlast; cbn.
  - by rewrite lookup_insert_eq.
  - rewrite foldl_app; cbn. rewrite lookup_insert_ne.
    + apply IH. intros j' Hin. apply Hlast, elem_of_app. by left.
    + apply Hlast, elem_of_app. right. by apply list_elem_of_singleton.
Qed.

Lemma parent_inputs_dict_None (l : list StepInput) (n : string) :
  (∀ j, j ∈ l → step_input_name j ≠ n) → parent_inputs_dict l !! n = None.
Proof.
  intros Hnone. destruct (parent_inputs_dict l !! n) as [i|] eqn:Hi; [|done].
  apply parent_inputs_dict_lookup in Hi as [Hin Hname].
  by destruct (Hnone i Hin).
Qed.

(** The config entry [solids.<handle>.inputs.<input_name>]. *)
Lemma config_input_entry (env : EnvironmentConfig) (handle : SolidHandle)
    (input_name : string) (solid_config : SolidConfig) :
  solids env !! to_string handle = Some solid_config →
  config_input env handle input_name = inputs solid_config !! input_name.
Proof. intros Hcfg. unfold config_input. by rewrite Hcfg. Qed.

Lemma config_input_no_entry (env : EnvironmentConfig) (handle : SolidHandle)
    (input_name : string) :
  (∀ solid_config,
     solids env !! to_string handle = Some solid_config →
     inputs solid_config !! input_name = None) →
  config_input env handle input_name = None.
Proof.
  intros Hnone. unfold config_input.
  destruct (solids env !! to_string handle) as [solid_config|] eqn:Hcfg;
    [|done].
  cbn. by apply Hnone.
Qed.

Lemma default_or_nothing_message (b : _PlanBuilder) (solid : Solid)
    (input_name : string) (input_def : InputDefinition) :
  default_value_for_input (definition solid) input_name = None →
  kind (input_dagster_type input_def) ≠ NOTHING →
  default_or_nothing b solid input_name input_def
  = Raise (DagsterInvariantViolationError
             (must_get_a_value_message (pipeline_name b) (solid_name solid)
                input_name)).
Proof.
  intros Hdef Hkind. unfold default_or_nothing. rewrite Hdef.
  by rewrite decide_False.
Qed.

(** Without config entry, dependency and parent source, the resolver is
    left with the default and the kind of the type. *)
Lemma get_step_input_tail (b : _PlanBuilder) (solid : Solid)
    (input_name : string) (input_def : InputDefinition)
    (ds : DependencyStructure) (handle : SolidHandle)
    (parent_step_inputs : option (list StepInput)) :
  config_input (environment_config b) handle input_name = None →
  handle_dict ds !! input_handle solid input_name = None →
  no_parent_source solid input_name parent_step_inputs →
  get_step_input ext b solid input_name input_def ds handle
    parent_step_inputs
  = default_or_nothing b solid input_name input_def.
Proof.
  intros Hcfg Hdep Hparent. unfold get_step_input.
  rewrite Hcfg. unfold has_singular_dep, has_multi_deps. rewrite Hdep.
  destruct Hparent as [->|(pn & l & -> & -> & ->)]; reflexivity.
Qed.

(** C1: [get_step_input] applies seven rules, the first that matches
    decides.  (1) An entry of the environment config at
    [solids.<handle>.inputs.<input_name>], the handle as its string, gives
    [FromConfig] of that entry.  (2) A singular dependency gives
    [FromStepOutput] of the step output recorded for the upstream output,
    with [check_for_missing] false.  (3) A fan-in gives
    [FromMultipleSources] with one [FromStepOutput] leg per upstream
    output, of the inner type, with [check_for_missing] true.  (4) An input
    mapped from an input of the enclosing graph that was resolved, that is,
    one of the parent step inputs carries its name, takes the source of the
    last such parent step input as it is.  (5) A default gives
    [FromDefaultValue].  (6) Kind [NOTHING] gives no step input.
    (7) Otherwise an error is raised. *)
Theorem C1_get_step_input_rules (b : _PlanBuilder) (solid : Solid)
    (input_name : string) (input_def : InputDefinition)
    (ds : DependencyStructure) (handle : SolidHandle)
    (parent_step_inputs : option (list StepInput)) :
  let dagster_type := input_dagster_type input_def in
  let no_config_entry :=
    ∀ solid_config,
      solids (environment_config b) !! to_string handle = Some solid_config →
      inputs solid_config !! input_name = None in
  let dependency := handle_dict ds !! input_handle solid input_name in
  let no_parent_input :=
    mapped_inputs solid !! input_name = None
    ∨ ∃ parent_name l,
        mapped_inputs solid !! input_name = Some parent_name
        ∧ parent_step_inputs = Some l
        ∧ ∀ i, i ∈ l → step_input_name i ≠ parent_name in
  let resolved :=
    get_step_input ext b solid input_name input_def ds handle
      parent_step_inputs in
  (∀ solid_config config_data,
     solids (environment_config b) !! to_string handle = Some solid_config →
     inputs solid_config !! input_name = Some config_data →
     resolved
     = Ok (Some (mkStepInput input_name dagster_type
                   (FromConfig config_data dagster_type input_name))))
  ∧ (no_config_entry →
     ∀ upstream step_output,
       dependency = Some (Singular upstream) →
       step_output_map b !! upstream = Some step_output →
       resolved
       = Ok (Some (mkStepInput input_name dagster_type
                     (FromStepOutput step_output dagster_type false))))
  ∧ (no_config_entry →
     ∀ upstreams step_outputs,
       dependency = Some (FanIn upstreams) →
       Forall2 (λ up out, step_output_map b !! up = Some out)
               upstreams step_outputs →
       resolved
       = Ok (Some (mkStepInput input_name dagster_type
                     (FromMultipleSources
                        ((λ out, FromStepOutput out
                                   (get_inner_type_for_fan_in ext dagster_type)
                                   true) <$> step_outputs)))))
  ∧ (no_config_entry → dependency = None →
     ∀ parent_name earlier parent_input later,
       mapped_inputs solid !! input_name = Some parent_name →
       parent_step_inputs = Some (earlier ++ parent_input :: later) →
       step_input_name parent_input = parent_name →
       (∀ i, i ∈ later → step_input_name i ≠ parent_name) →
       resolved
       = Ok (Some (mkStepInput input_name dagster_type
                     (source parent_input))))
  ∧ (no_config_entry → dependency = None → no_parent_input →
     (∀ value,
        default_value_for_input (definition solid) input_name = Some value →
        resolved
        = Ok (Some (mkStepInput input_name dagster_type
                      (FromDefaultValue value))))
     ∧ (default_value_for_input (definition solid) input_name = None →
        kind dagster_type = NOTHING → resolved = Ok None)
     ∧ (default_value_for_input (definition solid) input_name = None →
        kind dagster_type ≠ NOTHING → ∃ e, resolved = Raise e)).
Proof.
  intros dagster_type no_config_entry dependency no_parent_input resolved.
  subst resolved no_config_entry no_parent_input dependency dagster_type.
  split; [|split; [|split; [|split]]].
  - intros solid_config config_data Hcfg Hentry. unfold get_step_input.
    by rewrite (config_input_entry _ _ _ _ Hcfg), Hentry.
  - intros Hcfg%config_input_no_entry upstream step_output Hdep Hout.
    unfold get_step_input.
    rewrite Hcfg. unfold has_singular_dep, get_singular_dep. rewrite Hdep.
    rewrite bind_Ok. unfold get_output_handle. by rewrite Hout.
  - intros Hcfg%config_input_no_entry upstreams step_outputs Hdep Houts.
    unfold get_step_input. rewrite Hcfg.
    unfold has_singular_dep, has_multi_deps, get_multi_deps. rewrite Hdep.
    rewrite bind_Ok.
    rewrite (comprehension_Forall2 _ upstreams
               ((λ out, FromStepOutput out
                          (get_inner_type_for_fan_in ext
                             (input_dagster_type input_def)) true)
                  <$> step_outputs)); [done|].
    apply Forall2_fmap_r. eapply Forall2_impl; [exact Houts|].
    intros up out Hup; cbn. unfold get_output_handle. by rewrite Hup.
  - intros Hcfg%config_input_no_entry Hdep parent_name earlier parent_input
           later Hmap -> <- Hlast.
    unfold get_step_input. rewrite Hcfg.
    unfold has_singular_dep, has_multi_deps. rewrite Hdep, Hmap.
    by rewrite parent_inputs_dict_last.
  - intros Hcfg%config_input_no_entry Hdep Hparent.
    assert (Hnone : no_parent_source solid input_name parent_step_inputs).
    { destruct Hparent as [?|(parent_name & l & ? & ? & Hl)]; [by left|].
      right. exists parent_name, l. split; [done|]. split; [done|].
      by apply parent_inputs_dict_None. }
    rewrite (get_step_input_tail _ _ _ _ _ _ _ Hcfg Hdep Hnone).
    split; [|split].
    + intros value Hdef. unfold default_or_nothing. by rewrite Hdef.
    + intros Hdef Hkind. unfold default_or_nothing. rewrite Hdef.
      by rewrite decide_True.
    + intros Hdef Hkind. eexists. by apply default_or_nothing_message.
Qed.

(** C4, amended: an input without config entry, dependency, parent source
    and default, whose type is not of kind [NOTHING], makes the resolver
    raise [DagsterInvariantViolationError], with a message that names the
    pipeline, the solid and the input. *)
Theorem C4_unsatisfied_input_raises (b : _PlanBuilder) (solid : Solid)
    (input_name : string) (input_def : InputDefinition)
    (ds : DependencyStructure) (handle : SolidHandle)
    (parent_step_inputs : option (list StepInput)) :
  config_input (environment_config b) handle input_name = None →
  handle_dict ds !! input_handle solid input_name = None →
  no_parent_source solid input_name parent_step_inputs →
  default_value_for_input (definition solid) input_name = None →
  kind (input_dagster_type input_def) ≠ NOTHING →
  ∃ msg,
    get_step_input ext b solid input_name input_def ds handle
      parent_step_inputs
    = Raise (DagsterInvariantViolationError msg)
    ∧ mentions msg (pipeline_name b)
    ∧ mentions msg (solid_name solid)
    ∧ mentions msg input_name.
Proof.
  intros Hcfg Hdep Hparent Hdef Hkind.
  rewrite (get_step_input_tail _ _ _ _ _ _ _ Hcfg Hdep Hparent).
  rewrite (default_or_nothing_message _ _ _ _ Hdef Hkind).
  eexists. split; [reflexivity|]. unfold must_get_a_value_message.
  split; [|split].
  - apply mentions_here.
  - do 2 apply mentions_after. apply mentions_here.
  - do 4 apply mentions_after. apply mentions_here.
Qed.

(** *** add_step *)

(** With a step already planned, the comprehension over [self._steps]
    binds [s] to a key of the dictionary, a [str], and [s.key] raises. *)
Lemma add_step_duplicate (b : _PlanBuilder) (step : ExecutionStep) :
  key step ∈ _seen_keys b → _steps b ≠ [] →
  add_step b step
  = Raise (AttributeError "'str' object has no attribute 'key'").
Proof.
  intros Hseen Hsteps. unfold add_step. rewrite decide_True by done.
  destruct (_steps b) as [|[k v] rest]; [done|]. reflexivity.
Qed.

Lemma add_step_seen_implies_steps (b b' : _PlanBuilder)
    (step : ExecutionStep) :
  add_step b step = Ok b' → seen_implies_steps b'.
Proof.
  unfold add_step. intros (? & _ & [= <-])%bind_Ok_inv _. cbn.
  apply od_set_nonempty.
Qed.

(** C5: adding a step whose key was seen does fail, but on the attribute
    access in the comprehension that was to collect the keys: the raised
    error is an [AttributeError], not the check failure with the dump of the
    keys. *)
Theorem C5_duplicate_key_raises_AttributeError :
  ∃ b,
    add_step (Examples.empty_builder Examples.chain) Examples.step_A = Ok b
    ∧ key Examples.step_A ∈ _seen_keys b
    ∧ add_step b Examples.step_A
      = Raise (AttributeError "'str' object has no attribute 'key'")
    ∧ ∀ msg, add_step b Examples.step_A ≠ Raise (CheckError msg).
Proof.
  eexists. split; [reflexivity|]. split; [cbn; set_solver|].
  assert (Hraise : ∀ b0,
            b0 = mk_PlanBuilder Examples.chain Examples.mem_env None
                   Examples.default_mode [("A", Examples.step_A)] ∅
                   ({[ "A" ]} ∪ ∅) →
            add_step b0 Examples.step_A
            = Raise (AttributeError "'str' object has no attribute 'key'")).
  { intros b0 ->. apply add_step_duplicate; cbn; [set_solver|done]. }
  split; [by apply Hraise|]. intros msg. by rewrite Hraise.
Qed.

(** *** The storage guard *)

Lemma mentions_only_one (n : string) :
  mentions (only_one_message n) "You must specify only one."
  ∧ mentions (only_one_message n) "omit".
Proof.
  unfold only_one_message. split.
  - do 5 apply mentions_after.
    by exists "also specified a default asset store. ",
      (" " +:+ "To avoid specifying "
       +:+ "an intermediate storage, omit the intermediate_storage_defs "
       +:+ "argument to your"
       +:+ "ModeDefinition and omit " +:+ dquote +:+ "intermediate_storage"
       +:+ dquote +:+ " in your run config. To avoid "
       +:+ "specifying a default asset store, omit the " +:+ dquote
       +:+ "asset_store" +:+ dquote +:+ " key from the "
       +:+ "resource_defs argument to your ModeDefinition.").
  - do 7 apply mentions_after.
    by exists "an intermediate storage, ",
      (" the intermediate_storage_defs "
       +:+ "argument to your"
       +:+ "ModeDefinition and omit " +:+ dquote +:+ "intermediate_storage"
       +:+ dquote +:+ " in your run config. To avoid "
       +:+ "specifying a default asset store, omit the " +:+ dquote
       +:+ "asset_store" +:+ dquote +:+ " key from the "
       +:+ "resource_defs argument to your ModeDefinition.").
Qed.

(** The guard, by cases on the two definitions. *)
Lemma guard_cases (mode : ModeDefinition) (env : EnvironmentConfig)
    (asset_store : ResourceDefinition) :
  resource_defs mode !! "asset_store" = Some asset_store →
  check_asset_store_intermediate_storage ext mode env
  = match intermediate_storage_def_for_mode ext env mode with
    | Some d =>
        if decide (obj_id d ≠ obj_id (mem_intermediate_storage ext)
                   ∧ obj_id asset_store ≠ obj_id (mem_asset_store ext))
        then Raise (DagsterInvariantViolationError (only_one_message (name d)))
        else Ok ()
    | None => Ok ()
    end.
Proof.
  intros Hasset. unfold check_asset_store_intermediate_storage, subscript.
  rewrite Hasset, bind_Ok. unfold def_eqb.
  destruct (intermediate_storage_def_for_mode ext env mode) as [d|];
    [|reflexivity].
  destruct (decide (obj_id d = obj_id (mem_intermediate_storage ext)))
    as [Hd|Hd];
    destruct (decide (obj_id asset_store = obj_id (mem_asset_store ext)))
    as [Ha|Ha].
  - rewrite !bool_decide_eq_true_2 by done. rewrite decide_False; [done|].
    by intros [? _].
  - rewrite bool_decide_eq_true_2 by done. rewrite decide_False; [done|].
    by intros [? _].
  - rewrite bool_decide_eq_false_2 by done.
    rewrite bool_decide_eq_true_2 by done. rewrite decide_False; [done|].
    by intros [_ ?].
  - rewrite !bool_decide_eq_false_2 by done. by rewrite decide_True.
Qed.

(** C7: given the [asset_store] resource of the mode, the guard raises the
    invariant violation, with a message that tells to specify only one and
    how to omit either, iff the intermediate storage of the run and the
    asset store are both other than their in-memory defaults; otherwise the
    guard passes, and [build], once the traversal is done, goes on to the
    persistence flag and the construction of the plan. *)
Theorem C7_storage_and_asset_store_guard (mode : ModeDefinition)
    (env : EnvironmentConfig) (asset_store : ResourceDefinition) :
  resource_defs mode !! "asset_store" = Some asset_store →
  let custom_storage :=
    ∃ d, intermediate_storage_def_for_mode ext env mode = Some d
         ∧ obj_id d ≠ obj_id (mem_intermediate_storage ext) in
  let custom_asset_store :=
    obj_id asset_store ≠ obj_id (mem_asset_store ext) in
  ((∃ msg, check_asset_store_intermediate_storage ext mode env
           = Raise (DagsterInvariantViolationError msg)
           ∧ mentions msg "You must specify only one."
           ∧ mentions msg "omit")
   ↔ custom_storage ∧ custom_asset_store)
  ∧ (¬ (custom_storage ∧ custom_asset_store) →
     check_asset_store_intermediate_storage ext mode env = Ok ())
  ∧ (∀ b b',
       mode_definition b = mode → environment_config b = env →
       traverse ext b = Ok b' →
       (custom_storage ∧ custom_asset_store →
        ∃ msg, build ext b = Raise (DagsterInvariantViolationError msg)
               ∧ mentions msg "You must specify only one.")
       ∧ (¬ (custom_storage ∧ custom_asset_store) →
          build ext b
          = storage_is_persistent ext b'
            ≫= λ artifacts_persisted,
              ExecutionPlan.new (pipeline b')
                (construct_step_dict (od_values (_steps b')))
                (construct_deps (od_values (_steps b')))
                artifacts_persisted
                (keys_or_all (step_keys_to_execute b')
                   (od_values (_steps b')))
                (environment_config b'))).
Proof.
  intros Hasset custom_storage custom_asset_store.
  assert (Hguard := guard_cases mode env asset_store Hasset).
  assert (Hraise : custom_storage ∧ custom_asset_store →
            ∃ msg, check_asset_store_intermediate_storage ext mode env
                   = Raise (DagsterInvariantViolationError msg)
                   ∧ mentions msg "You must specify only one."
                   ∧ mentions msg "omit").
  { intros [(d & Hd & Hne) Hcustom]. rewrite Hd in Hguard.
    rewrite decide_True in Hguard by done. rewrite Hguard. eexists. split; [reflexivity|].
    apply mentions_only_one. }
  assert (Hpass : ¬ (custom_storage ∧ custom_asset_store) →
            check_asset_store_intermediate_storage ext mode env = Ok ()).
  { intros Hnot. rewrite Hguard.
    destruct (intermediate_storage_def_for_mode ext env mode) as [d|] eqn:Hd;
      [|done].
    destruct (decide _) as [[Hne Hcustom]|_]; [|done].
    destruct Hnot. split; [by exists d|done]. }
  split; [|split; [done|]].
  - split; [|done]. intros (msg & Hmsg & _).
    destruct (intermediate_storage_def_for_mode ext env mode) as [d|] eqn:Hd.
    + rewrite Hguard in Hmsg.
      destruct (decide _) as [[Hne Hcustom]|_]; [|done].
      split; [|done]. by exists d.
    + by rewrite Hguard in Hmsg.
  - intros b b' Hmode Henv Htraverse.
    assert (Hstatic := traverse_static b b' Htraverse).
    injection Hstatic as _ Henv' _ Hmode'.
    unfold build. rewrite Htraverse, bind_Ok. unfold finish.
    rewrite Hmode', Henv', Hmode, Henv. split.
    + intros (msg & -> & Hm & _)%Hraise. rewrite bind_Raise. by exists msg.
    + intros ->%Hpass. rewrite bind_Ok. by rewrite <- Henv, <- Henv'.
Qed.

(** *** An empty subset is no subset *)

Lemma init_with_keys (pipeline : PipelineDefinition)
    (env : EnvironmentConfig) (mode : option string)
    (x : option (list string)) :
  init ext pipeline env mode x
  = lift_keys x (init ext pipeline env mode None).
Proof.
  unfold init, lift_keys.
  by destruct (match mode with
               | Some m => get_mode_definition ext pipeline m
               | None => Ok (get_default_mode ext pipeline)
               end).
Qed.

Lemma build_with_keys (x : option (list string)) (b : _PlanBuilder) :
  build ext (with_keys x b)
  = traverse ext b ≫= λ b', finish ext (with_keys x b').
Proof.
  unfold build. rewrite traverse_with_keys.
  by destruct (traverse ext b).
Qed.

Lemma ExecutionPlan_build_with_keys (pipeline : PipelineDefinition)
    (env : EnvironmentConfig) (mode : option string)
    (x : option (list string)) :
  ExecutionPlan_build ext pipeline env mode x
  = init ext pipeline env mode None
    ≫= λ b0, traverse ext b0 ≫= λ b', finish ext (with_keys x b').
Proof.
  unfold ExecutionPlan_build. rewrite init_with_keys.
  destruct (init ext pipeline env mode None) as [b0|e]; [|reflexivity].
  unfold lift_keys. rewrite !bind_Ok. apply build_with_keys.
Qed.

(** C10: [step_keys_to_execute=[]] builds the plan that no subset builds,
    and the plan that is built executes every step key, in the order in
    which the traversal planned the steps. *)
Theorem C10_empty_subset_is_no_subset (pipeline : PipelineDefinition)
    (env : EnvironmentConfig) (mode : option string) :
  ExecutionPlan_build ext pipeline env mode (Some [])
  = ExecutionPlan_build ext pipeline env mode None
  ∧ ∀ plan,
      ExecutionPlan_build ext pipeline env mode (Some []) = Ok plan →
      ∃ b0 b',
        init ext pipeline env mode None = Ok b0
        ∧ traverse ext b0 = Ok b'
        ∧ ExecutionPlan.step_keys_to_execute plan
          = key <$> od_values (_steps b').
Proof.
  split; [by rewrite !ExecutionPlan_build_with_keys|].
  intros plan. rewrite ExecutionPlan_build_with_keys.
  intros (b0 & Hinit & Hrest)%bind_Ok_inv.
  apply bind_Ok_inv in Hrest as (b' & Htraverse & Hfinish).
  exists b0, b'. split; [done|]. split; [done|].
  unfold finish in Hfinish.
  apply bind_Ok_inv in Hfinish as (_ & _ & Hfinish).
  apply bind_Ok_inv in Hfinish as (persisted & _ & Hnew).
  unfold ExecutionPlan.new in Hnew.
  destruct (filter _ _) in Hnew; [|done].
  by injection Hnew as <-.
Qed.

End planner_proofs.

(** *** Subset plans *)

(** C6: [build_subset_plan] returns a plan with the step dictionary and the
    dependencies of the plan it is called on and with the given keys to
    execute, or raises the step-not-found error, which it does iff one of
    the keys is not in the step dictionary; applied with the same keys to
    the plan it returned, it returns that plan again. *)
Theorem C6_build_subset_plan (P : ExecutionPlan.t) (S : list string) :
  ((∃ P', ExecutionPlan.build_subset_plan P S = Ok P')
   ∨ (∃ msg missing,
        ExecutionPlan.build_subset_plan P S
        = Raise (DagsterExecutionStepNotFoundError msg missing)))
  ∧ ((∃ msg missing,
        ExecutionPlan.build_subset_plan P S
        = Raise (DagsterExecutionStepNotFoundError msg missing))
     ↔ ∃ k, k ∈ S ∧ od_mem (ExecutionPlan.step_dict P) k = false)
  ∧ (∀ P', ExecutionPlan.build_subset_plan P S = Ok P' →
       ExecutionPlan.step_dict P' = ExecutionPlan.step_dict P
       ∧ ExecutionPlan.deps P' = ExecutionPlan.deps P
       ∧ ExecutionPlan.step_keys_to_execute P' = S
       ∧ ExecutionPlan.build_subset_plan P' S = Ok P').
Proof.
  unfold ExecutionPlan.build_subset_plan, ExecutionPlan.new.
  destruct (filter (λ k, od_mem (ExecutionPlan.step_dict P) k = false) S)
    as [|k missing] eqn:Hmissing.
  - split; [left; by eexists|]. split.
    + split; [by intros (? & ? & ?)|]. intros (k & Hin & Hk).
      by destruct (filter_nil_not_elem_of _ _ k Hmissing Hk).
    + intros P' [= <-]; cbn. rewrite Hmissing. done.
  - split; [right; by eexists _, _|]. split; [|done].
    split; [|by eexists _, _]. intros _. exists k.
    assert (Hin : k ∈ filter (λ k, od_mem (ExecutionPlan.step_dict P) k = false) S)
      by (rewrite Hmissing; by apply elem_of_cons; left).
    apply list_elem_of_filter in Hin as [? ?]. done.
Qed.

(** *** The theorems at work on the example pipelines *)

Lemma C1_get_step_input_rules_witness :
  get_step_input Examples.ex_collaborators
    (mk_PlanBuilder Examples.composite
       (mkEnvironmentConfig
          {[ "G.X" := mkSolidConfig {[ "i" := VInt 9 ]} ]} "in_memory")
       None Examples.default_mode [] ∅ ∅)
    Examples.solid_X "i" (mkInputDef "i" Examples.Int_dt) (mkDeps ∅)
    (mkHandle "X" (Some (mkHandle "G" None)))
    (Some [mkStepInput "i" Examples.Int_dt
             (FromDefaultValue (VInt 1))])
  = Ok (Some (mkStepInput "i" Examples.Int_dt
                (FromConfig (VInt 9) Examples.Int_dt "i")))
  ∧ get_step_input Examples.ex_collaborators Examples.builder_after_A
      Examples.solid_B "x" (mkInputDef "x" Examples.Int_dt)
      Examples.chain_deps (mkHandle "B" None) None
    = Ok (Some (mkStepInput "x" Examples.Int_dt
                  (FromStepOutput (mkStepOutputHandle "A" "result")
                     Examples.Int_dt false)))
  ∧ get_step_input Examples.ex_collaborators
      (Examples.empty_builder Examples.composite)
      Examples.solid_X "i" (mkInputDef "i" Examples.Int_dt) (mkDeps ∅)
      (mkHandle "X" (Some (mkHandle "G" None)))
      (Some [mkStepInput "i" Examples.Int_dt (FromDefaultValue (VInt 1));
             mkStepInput "i" Examples.Int_dt
               (FromConfig (VInt 5) Examples.Int_dt "i");
             mkStepInput "j" Examples.Int_dt (FromDefaultValue (VInt 2))])
    = Ok (Some (mkStepInput "i" Examples.Int_dt
                  (FromConfig (VInt 5) Examples.Int_dt "i"))).
Proof.
  split; [|split].
  - apply (C1_get_step_input_rules Examples.ex_collaborators
             (mk_PlanBuilder Examples.composite
                (mkEnvironmentConfig
                   {[ "G.X" := mkSolidConfig {[ "i" := VInt 9 ]} ]}
                   "in_memory")
                None Examples.default_mode [] ∅ ∅)
             Examples.solid_X "i" (mkInputDef "i" Examples.Int_dt)
             (mkDeps ∅) (mkHandle "X" (Some (mkHandle "G" None)))
             (Some [mkStepInput "i" Examples.Int_dt
                      (FromDefaultValue (VInt 1))]))
      with (solid_config := mkSolidConfig {[ "i" := VInt 9 ]});
      reflexivity.
  - destruct (C1_get_step_input_rules Examples.ex_collaborators
                Examples.builder_after_A Examples.solid_B "x"
                (mkInputDef "x" Examples.Int_dt) Examples.chain_deps
                (mkHandle "B" None) None) as (_ & Hsingular & _).
    apply (Hsingular ltac:(by intros ? [=]) ("A", "result")); reflexivity.
  - destruct (C1_get_step_input_rules Examples.ex_collaborators
                (Examples.empty_builder Examples.composite)
                Examples.solid_X "i" (mkInputDef "i" Examples.Int_dt)
                (mkDeps ∅) (mkHandle "X" (Some (mkHandle "G" None)))
                (Some [mkStepInput "i" Examples.Int_dt
                         (FromDefaultValue (VInt 1));
                       mkStepInput "i" Examples.Int_dt
                         (FromConfig (VInt 5) Examples.Int_dt "i");
                       mkStepInput "j" Examples.Int_dt
                         (FromDefaultValue (VInt 2))]))
      as (_ & _ & _ & Hparent & _).
    apply (Hparent ltac:(by intros ? [=]) eq_refl "i"
             [mkStepInput "i" Examples.Int_dt (FromDefaultValue (VInt 1))]
             (mkStepInput "i" Examples.Int_dt
                (FromConfig (VInt 5) Examples.Int_dt "i"))
             [mkStepInput "j" Examples.Int_dt (FromDefaultValue (VInt 2))]);
      [reflexivity..|].
    by intros i ->%list_elem_of_singleton.
Defined.

(** C4, as the spec states it, fails on the class of the error: the input
    [z] of [F], which nothing provides, makes the resolver raise, and what
    it raises is no [DagsterInvalidDefinitionError]. *)
Lemma C4_error_is_no_definition_error :
  (∃ e, get_step_input Examples.ex_collaborators
          (Examples.empty_builder Examples.lonely) Examples.solid_F "z"
          (mkInputDef "z" Examples.Int_dt) (mkDeps ∅) (mkHandle "F" None)
          None
        = Raise e)
  ∧ ¬ ∃ msg,
        get_step_input Examples.ex_collaborators
          (Examples.empty_builder Examples.lonely) Examples.solid_F "z"
          (mkInputDef "z" Examples.Int_dt) (mkDeps ∅) (mkHandle "F" None)
          None
        = Raise (DagsterInvalidDefinitionError msg).
Proof.
  split; [eexists; by vm_compute|].
  intros [msg Hmsg]. vm_compute in Hmsg. discriminate.
Qed.

Lemma C4_unsatisfied_input_raises_witness :
  ∃ msg,
    get_step_input Examples.ex_collaborators
      (Examples.empty_builder Examples.lonely) Examples.solid_F "z"
      (mkInputDef "z" Examples.Int_dt) (mkDeps ∅) (mkHandle "F" None) None
    = Raise (DagsterInvariantViolationError msg)
    ∧ mentions msg "lonely" ∧ mentions msg "F" ∧ mentions msg "z".
Proof.
  apply (C4_unsatisfied_input_raises Examples.ex_collaborators
           (Examples.empty_builder Examples.lonely) Examples.solid_F "z"
           (mkInputDef "z" Examples.Int_dt) (mkDeps ∅) (mkHandle "F" None)
           None).
  - reflexivity.
  - reflexivity.
  - left. reflexivity.
  - reflexivity.
  - discriminate.
Defined.

Lemma C7_storage_and_asset_store_guard_witness :
  ∃ msg,
    check_asset_store_intermediate_storage Examples.ex_collaborators
      Examples.custom_mode Examples.fs_env
    = Raise (DagsterInvariantViolationError msg).
Proof.
  destruct (C7_storage_and_asset_store_guard Examples.ex_collaborators
              Examples.custom_mode Examples.fs_env Examples.custom_asset)
    as ([_ Hraise] & _); [reflexivity|].
  destruct Hraise as (msg & Hmsg & _); [|by exists msg].
  split; [exists Examples.fs_storage; split; [reflexivity|discriminate]|].
  discriminate.
Defined.

(** The example pipeline is planned as expected, whatever the empty
    subset argument. *)
Lemma chain_is_planned :
  ExecutionPlan_build Examples.ex_collaborators Examples.chain
    Examples.mem_env None None = Ok Examples.chain_plan
  ∧ ExecutionPlan.deps Examples.chain_plan
    = <[ "B" := {[ "A" ]} ]> {[ "A" := ∅ ]}.
Proof. split; by vm_compute. Qed.

(** The scenarios of the specification, run on the model: the legs of a
    fan-in, a default, no step input for kind [NOTHING], the source of the
    enclosing graph reused by the mapped input, and the error for an input
    that nothing provides. *)
Lemma fan_in_is_planned :
  planned_inputs
    (ExecutionPlan_build Examples.ex_collaborators Examples.fan_in
       Examples.mem_env None None)
  = Some [("A", []); ("A2", []);
          ("C", [mkStepInput "xs" Examples.IntList_dt
                   (FromMultipleSources
                      [FromStepOutput (mkStepOutputHandle "A" "result")
                         Examples.Int_dt true;
                       FromStepOutput (mkStepOutputHandle "A2" "result")
                         Examples.Int_dt true])])].
Proof. by vm_compute. Qed.

Lemma loose_ends_are_planned :
  planned_inputs
    (ExecutionPlan_build Examples.ex_collaborators Examples.loose_ends
       Examples.mem_env None None)
  = Some [("D", [mkStepInput "x" Examples.Int_dt
                   (FromDefaultValue (VInt 7))]);
          ("E", [])].
Proof. by vm_compute. Qed.

Lemma composite_is_planned :
  planned_inputs
    (ExecutionPlan_build Examples.ex_collaborators Examples.composite
       Examples.composite_env None None)
  = Some [("G.X", [mkStepInput "i" Examples.Int_dt
                     (FromConfig (VInt 5) Examples.Int_dt "i")]);
          ("G.Y", [mkStepInput "x" Examples.Int_dt
                     (FromStepOutput (mkStepOutputHandle "G.X" "result")
                        Examples.Int_dt false)])].
Proof. by vm_compute. Qed.

Lemma lonely_is_not_planned :
  ExecutionPlan_build Examples.ex_collaborators Examples.lonely
    Examples.mem_env None None
  = Raise (DagsterInvariantViolationError
             (must_get_a_value_message "lonely" "F" "z")).
Proof. by vm_compute. Qed.

Lemma C6_build_subset_plan_witness :
  ∃ subset,
    ExecutionPlan.build_subset_plan Examples.chain_plan ["B"] = Ok subset
    ∧ ExecutionPlan.step_keys_to_execute subset = ["B"]
    ∧ ExecutionPlan.build_subset_plan subset ["B"] = Ok subset.
Proof.
  destruct (C6_build_subset_plan Examples.chain_plan ["B"])
    as ([[subset Hsubset]|(msg & missing & Hraise)] & _ & Hok).
  - exists subset. destruct (Hok subset Hsubset) as (_ & _ & ? & ?).
    split; [|done]. exact Hsubset.
  - exfalso. vm_compute in Hraise. discriminate.
Defined.

Lemma C10_empty_subset_is_no_subset_witness :
  ExecutionPlan_build Examples.ex_collaborators Examples.chain
    Examples.mem_env None (Some []) = Ok Examples.chain_plan
  ∧ ExecutionPlan.step_keys_to_execute Examples.chain_plan = ["A"; "B"].
Proof.
  rewrite (proj1 (C10_empty_subset_is_no_subset Examples.ex_collaborators
                    Examples.chain Examples.mem_env None)).
  split; by vm_compute.
Defined.

End PlanProofs.

(* ===================================================================== *)
(** * Properties of the queued run coordinator *)
(* ===================================================================== *)

Module RunCoordinatorProofs.
Import RunCoordinator.

(** C9, as the spec states it, fails: a second [cancel_run] on the run that
    the first one cancelled hands the run to the launcher, whose
    termination request is logged on the instance; and for a run that left
    the queue because it was started, the launcher's answer is true. *)
Lemma C9_repeated_cancel_reaches_the_launcher :
  ¬ spec_cancel_is_idempotent Examples.reporting_launcher
  ∧ ∃ once twice,
      cancel_run Examples.reporting_launcher (Some Examples.ex_instance) "r1"
      = Ok (true, once)
      ∧ cancel_run Examples.reporting_launcher (Some once) "r1"
        = Ok (false, twice)
      ∧ event_log twice
        = event_log once
          ++ [LAUNCHER_EVENT "Received pipeline termination request." "r1"].
Proof.
  split.
  - intros Hspec.
    specialize (Hspec Examples.ex_instance "r2" Examples.started_run
                  eq_refl ltac:(discriminate)).
    vm_compute in Hspec. discriminate.
  - eexists _, _. split; [reflexivity|]. split; reflexivity.
Qed.

(** C9, amended: [cancel_run] returns false and leaves the instance as it
    is when the run is missing; while the run is queued it reports an engine
    event, marks the run failed and returns true; for a run that is no
    longer queued, so also when it is called again after a cancellation, it
    does nothing of its own and returns what [terminate] of the launcher
    returns, with the effects of the launcher on the instance. *)
Theorem C9_cancel_run (run_launcher : RunLauncher)
    (instance : DagsterInstance) (id : string) :
  (runs instance !! id = None →
   cancel_run run_launcher (Some instance) id = Ok (false, instance))
  ∧ (∀ run, runs instance !! id = Some run → status run = QUEUED →
       ∃ cancelled,
         cancel_run run_launcher (Some instance) id = Ok (true, cancelled)
         ∧ event_log cancelled
           = event_log instance
             ++ [ENGINE_EVENT "Cancelling pipeline from the queue."
                   (run_id run) "QueuedRunCoordinator"]
         ∧ (status <$> runs cancelled !! run_id run) = Some FAILURE
         ∧ (run_id run = id →
            cancel_run run_launcher (Some cancelled) id
            = terminate run_launcher id cancelled))
  ∧ (∀ run, runs instance !! id = Some run → status run ≠ QUEUED →
       cancel_run run_launcher (Some instance) id
       = terminate run_launcher id instance).
Proof.
  unfold cancel_run, deref, get_run_by_id. rewrite !bind_Ok.
  split; [by intros ->|split].
  - intros run -> Hqueued. rewrite decide_True by done.
    eexists. split; [reflexivity|]. split; [reflexivity|].
    split; [cbn; by rewrite lookup_insert_eq|].
    intros <-. rewrite bind_Ok. cbn. rewrite lookup_insert_eq.
    by rewrite decide_False.
  - intros run -> Hstatus. by rewrite decide_False.
Qed.

Lemma C9_cancel_run_witness :
  ∃ cancelled,
    cancel_run Examples.reporting_launcher (Some Examples.ex_instance) "r1"
    = Ok (true, cancelled)
    ∧ (status <$> runs cancelled !! "r1") = Some FAILURE.
Proof.
  destruct (C9_cancel_run Examples.reporting_launcher Examples.ex_instance
              "r1") as (_ & Hqueued & _).
  destruct (Hqueued Examples.queued_run eq_refl eq_refl)
    as (cancelled & Hcancel & _ & Hfailed & _).
  by exists cancelled.
Defined.

End RunCoordinatorProofs.

(* ===================================================================== *)
(** * Further facts about dictionaries *)
(* ===================================================================== *)

Module DictFacts.

Lemma dict_is_empty_spec {V} (d : gmap string V) :
  SchemaSynthesis.dict_is_empty d = true ↔ d = ∅.
Proof.
  unfold SchemaSynthesis.dict_is_empty.
  destruct (map_to_list d) as [|kv l] eqn:Hl.
  - split; [|done]. intros _. by apply map_to_list_empty_iff.
  - split; [done|]. intros ->. by rewrite map_to_list_empty in Hl.
Qed.

Lemma remove_none_entries_lookup (ddict : gmap string (option Field))
    (k : string) :
  remove_none_entries ddict !! k = ddict !! k ≫= id.
Proof. unfold remove_none_entries. by rewrite lookup_omap. Qed.

Lemma od_get_values {V} (d : list (string * V)) (k : string) (v : V) :
  od_get d k = Some v → v ∈ od_values d.
Proof.
  induction d as [|[k' v'] d IH]; cbn; [done|].
  destruct (decide (k' = k)).
  - intros [= ->]. by apply elem_of_cons; left.
  - intros ?. apply elem_of_cons; right. by apply IH.
Qed.

Lemma od_get_None {V} (d : list (string * V)) (k : string) :
  od_get d k = None ↔ k ∉ od_keys d.
Proof.
  induction d as [|[k' v'] d IH]; cbn.
  - split; [|done]. intros _. apply not_elem_of_nil.
  - rewrite not_elem_of_cons. destruct (decide (k' = k)) as [->|Hne].
    + split; [done|]. by intros [? _].
    + rewrite IH. unfold od_keys. naive_solver.
Qed.

Lemma od_set_fresh {V} (d : list (string * V)) (k : string) (v : V) :
  k ∉ od_keys d → od_set d k v = d ++ [(k, v)].
Proof.
  induction d as [|[k' v'] d IH]; cbn; [done|].
  rewrite not_elem_of_cons. intros [Hne Hnot].
  rewrite decide_False by done. by rewrite IH.
Qed.

Lemma od_set_values {V} (d : list (string * V)) (k : string) (v x : V) :
  x ∈ od_values (od_set d k v) → x = v ∨ x ∈ od_values d.
Proof.
  induction d as [|[k' v'] d IH]; cbn.
  - intros ->%list_elem_of_singleton. by left.
  - destruct (decide (k' = k)); cbn.
    + intros [->|?]%elem_of_cons; [by left|].
      right. by apply elem_of_cons; right.
    + intros [->|[->|?]%IH]%elem_of_cons.
      * right. by apply elem_of_cons; left.
      * by left.
      * right. by apply elem_of_cons; right.
Qed.

Lemma od_set_keys {V} (d : list (string * V)) (k : string) (v : V)
    (k0 : string) :
  k0 ∈ od_keys (od_set d k v) ↔ k0 = k ∨ k0 ∈ od_keys d.
Proof.
  unfold od_keys. induction d as [|[k' v'] d IH]; cbn.
  - rewrite list_elem_of_singleton, elem_of_nil. naive_solver.
  - destruct (decide (k' = k)) as [->|Hne]; cbn.
    + rewrite !elem_of_cons. naive_solver.
    + rewrite !elem_of_cons, IH. naive_solver.
Qed.

(** Assigning a value whose image under [f] is new keeps the images of the
    values distinct, whether the key is new or not. *)
Lemma od_set_NoDup_image {V W} (f : V → W) (d : list (string * V))
    (k : string) (v : V) :
  NoDup (f <$> od_values d) → f v ∉ f <$> od_values d →
  NoDup (f <$> od_values (od_set d k v)).
Proof.
  unfold od_values. induction d as [|[k' v'] d IH]; cbn.
  - intros _ _. apply NoDup_singleton.
  - rewrite NoDup_cons, not_elem_of_cons. intros [Hv' Hd] [Hne Hv].
    destruct (decide (k' = k)) as [->|Hk]; cbn.
    + apply NoDup_cons. by split.
    + apply NoDup_cons. split; [|by apply IH].
      intros (x & Hfx & Hx)%list_elem_of_fmap.
      apply od_set_values in Hx as [->|Hx]; [congruence|].
      apply Hv'. apply list_elem_of_fmap. by exists x.
Qed.

(** A comprehension whose element expression raises only [KeyError], and
    does so for an element, raises [KeyError]. *)
Lemma comprehension_KeyError {A B} (f : A → Result B) (xs : list A) (x : A) :
  x ∈ xs →
  (∀ y, y ∈ xs → (∃ v, f y = Ok v) ∨ ∃ k, f y = Raise (KeyError k)) →
  (∃ k, f x = Raise (KeyError k)) →
  ∃ k, comprehension f xs = Raise (KeyError k).
Proof.
  intros Hin Hall Hx. induction xs as [|y xs IH]; [by apply elem_of_nil in Hin|].
  cbn [comprehension].
  destruct (Hall y) as [[v Hv]|[k Hk]]; [by apply elem_of_cons; left| |].
  - rewrite Hv, bind_Ok.
    apply elem_of_cons in Hin as [->|Hin].
    + destruct Hx as [k Hk]. congruence.
    + destruct IH as [k ->]; [done| |by exists k].
      intros y' Hy'. apply Hall. by apply elem_of_cons; right.
  - rewrite Hk. by exists k.
Qed.

(** A loop with a turn that raises from any state raises. *)
Lemma for_each_raises {A S} (body : S → A → Result S) (xs : list A) (x : A) :
  x ∈ xs → (∀ s, ∃ e, body s x = Raise e) →
  ∀ s, ∃ e, for_each body xs s = Raise e.
Proof.
  intros Hin Hx. induction xs as [|y xs IH]; [by apply elem_of_nil in Hin|].
  intros s. rewrite for_each_cons.
  destruct (body s y) as [s'|e] eqn:Hy; [|by exists e].
  rewrite bind_Ok. apply elem_of_cons in Hin as [->|Hin].
  - destruct (Hx s) as [e He]. congruence.
  - by apply IH.
Qed.

Lemma comprehension_Ok_elem {A B} (f : A → Result B) (xs : list A)
    (ys : list B) :
  comprehension f xs = Ok ys → ∀ y, y ∈ ys → ∃ x, x ∈ xs ∧ f x = Ok y.
Proof.
  revert ys. induction xs as [|x xs IH]; intros ys; cbn [comprehension].
  - intros [= <-] y ?%elem_of_nil. done.
  - intros (y0 & Hy0 & Hrest)%bind_Ok_inv.
    apply bind_Ok_inv in Hrest as (ys0 & Hys0 & [= <-]).
    intros y [->|Hin]%elem_of_cons.
    + exists x. split; [by apply elem_of_cons; left|done].
    + destruct (IH ys0 Hys0 y Hin) as (x' & ? & ?). exists x'.
      split; [by apply elem_of_cons; right|done].
Qed.

End DictFacts.
Import DictFacts.


(* ===================================================================== *)
(** * Further properties of the schema synthesizer *)
(* ===================================================================== *)

Module SchemaProofs.
Import SchemaSynthesis.

(** ** Selectors of named definitions and the storage field *)

(** X1: a selector of named definitions has a field under a name exactly
    when a definition of that name is listed; the field is
    [def_config_field] of a listed definition of that name, and of two
    definitions with the same name the later one provides it. *)
Theorem X1_selector_for_named_defs (defs : list ConfigurableDefinition)
    (n : string) :
  (is_Some (fields (selector_for_named_defs defs) !! n)
   ↔ ∃ d, d ∈ defs ∧ name d = n)
  ∧ (∀ f, fields (selector_for_named_defs defs) !! n = Some f →
       ∃ d, d ∈ defs ∧ name d = n ∧ f = def_config_field d None)
  ∧ (∀ l1 d l2, defs = l1 ++ d :: l2 → name d = n →
       (∀ d', d' ∈ l2 → name d' ≠ n) →
       fields (selector_for_named_defs defs) !! n
       = Some (def_config_field d None)).
Proof.
  split; [split|split].
  - intros [f (d & ? & ? & _)%selector_lookup_from]. by exists d.
  - intros (d & Hin & <-). by apply selector_lookup_in.
  - apply selector_lookup_from.
  - intros l1 d l2 -> <- Hlast. by apply selector_lookup_last.
Qed.

(** When the declared storage names are the default set, the storage
    field is optional and without default, whatever the selector holds. *)
Theorem storage_field_of_defaults (storage_selector : ConfigType)
    (storage_names : list string) (defaults : gset string) :
  list_to_set storage_names = defaults →
  ∃ f, define_storage_field storage_selector storage_names defaults = Ok f
       ∧ config_type f = storage_selector
       ∧ is_required f = false
       ∧ default_value f = None.
Proof.
  intros Heq. unfold define_storage_field. rewrite decide_True by done.
  by eexists.
Qed.

(** When the declared storage names are not the default set and the
    first of them has no field in the selector, [define_storage_field]
    raises [KeyError] for that name. *)
Theorem storage_field_KeyError (storage_selector : ConfigType)
    (first : string) (rest : list string) (defaults : gset string) :
  list_to_set (first :: rest) ≠ defaults →
  fields storage_selector !! first = None →
  define_storage_field storage_selector (first :: rest) defaults
  = Raise (KeyError first).
Proof.
  intros Hne Hnone. unfold define_storage_field, subscript.
  rewrite decide_False by done. by rewrite Hnone.
Qed.

(** The storage field of a mode, as [define_environment_cls] builds it. *)
Lemma storage_field_of_mode
    (default_defs : list IntermediateStorageDefinition)
    (mode : ModeDefinition) :
  ∃ f, intermediate_storage_field default_defs mode = Ok f
       ∧ config_type f
         = selector_for_named_defs (intermediate_storage_defs mode)
       ∧ ∀ first rest,
           intermediate_storage_defs mode = first :: rest →
           list_to_set (name <$> intermediate_storage_defs mode)
           ≠@{gset string} list_to_set (name <$> default_defs) →
           ∃ d, d ∈ intermediate_storage_defs mode
                ∧ name d = name first
                ∧ default_value f
                  = if has_config_field d && is_required (config_field d)
                    then None
                    else Some (VDict [(name first, VDict [])]).
Proof.
  unfold intermediate_storage_field, define_storage_field.
  destruct (decide _) as [Heq|Hne].
  - eexists. split; [done|]. split; [done|]. intros first rest _ Hne'. done.
  - destruct (intermediate_storage_defs mode) as [|first rest] eqn:Hdefs.
    + eexists. split; [done|]. split; [done|]. intros ?? [=].
    + cbn [fmap list_fmap].
      destruct (selector_lookup_in (first :: rest) first) as [fld Hfld];
        [by apply elem_of_cons; left|].
      unfold subscript. rewrite Hfld, bind_Ok.
      destruct (selector_lookup_from _ _ _ Hfld) as (d & Hin & Hname & ->).
      rewrite all_optional_def_config_field.
      destruct (has_config_field d && is_required (config_field d)) eqn:Hreq;
        cbn [negb]; rewrite bind_Ok; eexists; (split; [done|]);
        (split; [done|]); intros first' rest' [= <- <-] _; exists d;
        by rewrite Hreq.
Qed.


(** X2: the [intermediate_storage] field of a mode never fails: the
    selector is built from the storage definitions whose names are passed,
    so the first name has its field.  When the names are the default set,
    the field is optional and without default.  When they are not, the
    storage that decides is the one whose field the selector holds under
    the name of the first declared storage, which is the last declared
    storage of that name: the default is [{name: {}}] unless that storage
    has a required config field, in which case there is no default. *)
Theorem X2_intermediate_storage_field
    (default_defs : list IntermediateStorageDefinition)
    (mode : ModeDefinition) :
  let storage_defs := intermediate_storage_defs mode in
  ∃ f, intermediate_storage_field default_defs mode = Ok f
       ∧ config_type f = selector_for_named_defs storage_defs
       ∧ (list_to_set (name <$> storage_defs)
          =@{gset string} list_to_set (name <$> default_defs) →
          is_required f = false ∧ default_value f = None)
       ∧ ∀ first rest earlier d later,
           storage_defs = first :: rest →
           list_to_set (name <$> storage_defs)
           ≠@{gset string} list_to_set (name <$> default_defs) →
           storage_defs = earlier ++ d :: later →
           name d = name first →
           (∀ d', d' ∈ later → name d' ≠ name first) →
           fields (config_type f) !! name first
           = Some (def_config_field d None)
           ∧ default_value f
             = if has_config_field d && is_required (config_field d)
               then None
               else Some (VDict [(name first, VDict [])]).
Proof.
  cbv zeta. unfold intermediate_storage_field, define_storage_field.
  destruct (decide _) as [Heq|Hne].
  - eexists. split; [done|]. split; [done|]. split; [done|].
    intros first rest earlier d later _ Hne. done.
  - destruct (intermediate_storage_defs mode) as [|first rest] eqn:Hdefs.
    + eexists. split; [done|]. split; [done|]. split; [done|].
      intros ????? [=].
    + cbn [fmap list_fmap].
      destruct (selector_lookup_in (first :: rest) first) as [fld Hfld];
        [by apply elem_of_cons; left|].
      unfold subscript. rewrite Hfld, bind_Ok.
      assert (Hlast : ∀ earlier d later,
                first :: rest = earlier ++ d :: later →
                name d = name first →
                (∀ d', d' ∈ later → name d' ≠ name first) →
                fld = def_config_field d None).
      { intros earlier d later Hsplit Hname Hlater.
        rewrite Hsplit, <- Hname, selector_lookup_last in Hfld;
          [congruence|by rewrite Hname]. }
      destruct (all_optional_type (config_type fld)) eqn:Hopt;
        rewrite bind_Ok; eexists; (split; [done|]); (split; [done|]);
        (split; [done|]);
        intros first' rest' earlier d later [= <- <-] _ Hsplit Hname Hlater;
        cbn [config_type Field_ default_value];
        rewrite (Hlast _ _ _ Hsplit Hname Hlater) in Hopt, Hfld;
        rewrite all_optional_def_config_field in Hopt;
        (split; [done|]);
        by destruct (has_config_field d && is_required (config_field d)).
Qed.

Lemma X2_intermediate_storage_field_witness :
  ∃ f, intermediate_storage_field
         [Examples.mem_storage; Examples.fs_storage]
         (mkMode "s3_first" ∅ ∅ []
            [Examples.s3_storage; Examples.fs_storage])
       = Ok f
       ∧ default_value f = None.
Proof.
  destruct (X2_intermediate_storage_field
              [Examples.mem_storage; Examples.fs_storage]
              (mkMode "s3_first" ∅ ∅ []
                 [Examples.s3_storage; Examples.fs_storage]))
    as (f & Hf & _ & _ & Hdefault).
  exists f. split; [done|].
  destruct (Hdefault Examples.s3_storage [Examples.fs_storage] []
              Examples.s3_storage [Examples.fs_storage] eq_refl)
    as [_ ->]; [|reflexivity..| |reflexivity].
  - cbn. intros Heq.
    assert (Hin : "s3" ∈@{gset string} {[ "s3" ]} ∪ ({[ "filesystem" ]} ∪ ∅))
      by set_solver.
    rewrite Heq in Hin. set_solver.
  - by intros d' ->%list_elem_of_singleton.
Defined.

(** ** Loggers *)

(** X3: the [loggers] shape has a field for every logger of the mode and
    for nothing else, and every such field is optional and without default,
    also when the config field of the logger is required. *)
Theorem X3_loggers_are_optional
    (logger_defs : gmap string LoggerDefinition) (n : string) :
  fields (define_logger_dictionary_cls logger_defs) !! n
  = (λ d, def_config_field d (Some false)) <$> logger_defs !! n
  ∧ ∀ f, fields (define_logger_dictionary_cls logger_defs) !! n = Some f →
         is_required f = false ∧ default_value f = None.
Proof.
  unfold define_logger_dictionary_cls; cbn [fields]. rewrite lookup_fmap.
  split; [done|]. intros f. destruct (logger_defs !! n) as [d|]; [|done].
  by intros [= <-].
Qed.

(** ** [remove_none_entries] and the config of one solid *)

(** [define_solid_config_cls] is a shape with the keys [config],
    [inputs] and [outputs] for those of the three fields that are given,
    and with no other key. *)
Theorem solid_config_cls_fields
    (config_schema inputs_field outputs_field : option Field) (k : string) :
  fields (define_solid_config_cls config_schema inputs_field outputs_field)
    !! k
  = if decide (k = "config") then config_schema
    else if decide (k = "inputs") then inputs_field
    else if decide (k = "outputs") then outputs_field
    else None.
Proof.
  unfold define_solid_config_cls; cbn [fields].
  rewrite remove_none_entries_lookup.
  destruct (decide (k = "outputs")) as [->|Hout].
  { rewrite lookup_insert_eq. by destruct outputs_field. }
  rewrite lookup_insert_ne by done.
  destruct (decide (k = "inputs")) as [->|Hin].
  { rewrite lookup_insert_eq. by destruct inputs_field. }
  rewrite lookup_insert_ne by done.
  destruct (decide (k = "config")) as [->|Hcfg].
  { rewrite lookup_singleton_eq. by destruct config_schema. }
  by rewrite lookup_singleton_ne.
Qed.

(** ** The inputs and outputs schema of a solid *)

Section synthesis_proofs.

Variable acc : NodeAccessors.

Lemma inputs_fields_from (solid : Solid) (ds : DependencyStructure)
    (n : string) (fld : Field) :
  inputs_field_fields solid ds !! n = Some fld →
  ∃ inp schema_type,
    (n, inp) ∈ input_dict (node_data (definition solid))
    ∧ loader (input_dagster_type inp) = Some schema_type
    ∧ has_deps ds (input_handle solid (input_name inp)) = false
    ∧ container_maps_input solid n = false
    ∧ fld = Field_ schema_type None
              (Some (negb (input_has_default (definition solid) n))) None.
Proof.
  unfold inputs_field_fields.
  induction (input_dict (node_data (definition solid)))
    as [|[n' inp] l IH] using rev_ind; cbn.
  - by rewrite lookup_empty.
  - rewrite foldl_app; cbn.
    assert (Hold : ∀ m : gmap string Field,
              m = foldl
                    (λ (fields : gmap string Field) '(name, inp0),
                       match loader (input_dagster_type inp0) with
                       | Some schema_type =>
                           if negb (has_deps ds
                                      (input_handle solid (input_name inp0)))
                              && negb (container_maps_input solid name)
                           then <[ name :=
                                     Field_ schema_type None
                                       (Some (negb (input_has_default
                                                      (definition solid) name)))
                                       None ]> fields
                           else fields
                       | None => fields
                       end) ∅ l →
              m !! n = Some fld →
              ∃ inp0 schema_type,
                (n, inp0) ∈ l ++ [(n', inp)]
                ∧ loader (input_dagster_type inp0) = Some schema_type
                ∧ has_deps ds (input_handle solid (input_name inp0)) = false
                ∧ container_maps_input solid n = false
                ∧ fld = Field_ schema_type None
                          (Some (negb (input_has_default (definition solid) n)))
                          None).
    { intros m -> (inp0 & schema & Hin & ?)%IH. exists inp0, schema.
      split; [apply elem_of_app; by left|done]. }
    destruct (loader (input_dagster_type inp)) as [schema|] eqn:Hloader;
      [|by apply Hold].
    destruct (has_deps ds (input_handle solid (input_name inp))) eqn:Hdeps;
      cbn [negb andb]; [by apply Hold|].
    destruct (container_maps_input solid n') eqn:Hmap;
      cbn [negb andb]; [by apply Hold|].
    destruct (decide (n' = n)) as [->|Hne].
    + rewrite lookup_insert_eq. intros [= <-]. exists inp, schema.
      split; [|done]. apply elem_of_app; right.
      by apply list_elem_of_singleton.
    + rewrite lookup_insert_ne by done. by apply Hold.
Qed.

Lemma inputs_fields_in (solid : Solid) (ds : DependencyStructure)
    (n : string) (inp : InputDefinition) :
  (n, inp) ∈ input_dict (node_data (definition solid)) →
  configurable_input solid ds n inp →
  is_Some (inputs_field_fields solid ds !! n).
Proof.
  unfold inputs_field_fields, configurable_input.
  intros Hin ([schema Hloader] & Hdeps & Hmap). revert Hin.
  induction (input_dict (node_data (definition solid)))
    as [|[n' inp'] l IH] using rev_ind; [by intros ?%elem_of_nil|].
  rewrite foldl_app; cbn.
  intros [Hin|[= -> ->]%list_elem_of_singleton]%elem_of_app.
  - specialize (IH Hin).
    destruct (loader (input_dagster_type inp')); [|done].
    destruct (negb _ && negb _); [|done].
    destruct (decide (n' = n)) as [->|Hne].
    + rewrite lookup_insert_eq. by eexists.
    + by rewrite lookup_insert_ne.
  - rewrite Hloader, Hdeps, Hmap; cbn. rewrite lookup_insert_eq. by eexists.
Qed.

(** X4: the inputs schema of a solid offers exactly the inputs whose type
    has a loader, that no dependency feeds and that are not mapped from the
    enclosing graph; such an input is required unless it has a default.
    There is no inputs field when the definition has no configurable input
    or when no input qualifies. *)
Theorem X4_get_inputs_field (solid : Solid) (handle : SolidHandle)
    (ds : DependencyStructure) :
  (get_inputs_field acc solid handle ds = None
   ↔ has_configurable_inputs acc (definition solid) = false
     ∨ ∀ n inp, (n, inp) ∈ input_dict (node_data (definition solid)) →
                ¬ configurable_input solid ds n inp)
  ∧ ∀ f, get_inputs_field acc solid handle ds = Some f →
      ∃ fs, config_type f = Shape fs
        ∧ (∀ n inp, (n, inp) ∈ input_dict (node_data (definition solid)) →
                    configurable_input solid ds n inp → is_Some (fs !! n))
        ∧ ∀ n fld, fs !! n = Some fld →
            is_required fld = negb (input_has_default (definition solid) n)
            ∧ default_value fld = None
            ∧ ∃ inp,
                (n, inp) ∈ input_dict (node_data (definition solid))
                ∧ configurable_input solid ds n inp
                ∧ loader (input_dagster_type inp) = Some (config_type fld).
Proof.
  unfold get_inputs_field.
  assert (Hempty : inputs_field_fields solid ds = ∅
            ↔ ∀ n inp, (n, inp) ∈ input_dict (node_data (definition solid)) →
                       ¬ configurable_input solid ds n inp).
  { split.
    - intros Hfs n inp Hin Hcfg.
      destruct (inputs_fields_in solid ds n inp Hin Hcfg) as [fld Hfld].
      by rewrite Hfs, lookup_empty in Hfld.
    - intros Hnone. apply map_eq. intros n. rewrite lookup_empty.
      destruct (inputs_field_fields solid ds !! n) as [fld|] eqn:Hfld;
        [|done].
      destruct (inputs_fields_from _ _ _ _ Hfld)
        as (inp & schema & Hin & Hloader & Hdeps & Hmap & _).
      destruct (Hnone n inp Hin). split; [by eexists|done]. }
  destruct (has_configurable_inputs acc (definition solid)); cbn [negb].
  - destruct (dict_is_empty (inputs_field_fields solid ds)) eqn:Hd.
    + apply dict_is_empty_spec in Hd. split; [|done].
      split; [|done]. intros _. right. by apply Hempty.
    + split.
      * split; [done|]. intros [?|Hnone]; [done|].
        apply Hempty, dict_is_empty_spec in Hnone. congruence.
      * intros f [= <-]. eexists. split; [reflexivity|].
        split; [apply inputs_fields_in|].
        intros n fld (inp & schema & Hin & Hloader & Hdeps & Hmap & ->)
                     %inputs_fields_from.
        split; [done|]. split; [done|]. exists inp.
        split; [done|]. split; [|done]. split; [by eexists|done].
  - split; [|done]. split; [|done]. intros _. by left.
Qed.

Lemma output_fields_from (solid : Solid) (n : string) (fld : Field) :
  output_dict_fields solid !! n = Some fld →
  ∃ out schema_type,
    (n, out) ∈ output_dict (node_data (definition solid))
    ∧ materializer (output_dagster_type out) = Some schema_type
    ∧ fld = Field_ schema_type None (Some false) None.
Proof.
  unfold output_dict_fields.
  induction (output_dict (node_data (definition solid)))
    as [|[n' out] l IH] using rev_ind; cbn.
  - by rewrite lookup_empty.
  - rewrite foldl_app; cbn.
    destruct (materializer (output_dagster_type out)) as [schema|] eqn:Hm.
    + destruct (decide (n' = n)) as [->|Hne].
      * rewrite lookup_insert_eq. intros [= <-]. exists out, schema.
        split; [|done]. apply elem_of_app; right.
        by apply list_elem_of_singleton.
      * rewrite lookup_insert_ne by done.
        intros (out0 & schema0 & Hin & ?)%IH. exists out0, schema0.
        split; [apply elem_of_app; by left|done].
    + intros (out0 & schema0 & Hin & ?)%IH. exists out0, schema0.
      split; [apply elem_of_app; by left|done].
Qed.

(** X5: the outputs schema of a solid is absent exactly when the
    definition has no configurable output; otherwise it is an optional
    field over an array of shapes, whose entries are optional and stand for
    outputs whose type has a materializer, also when there is none. *)
Theorem X5_get_outputs_field (solid : Solid) (handle : SolidHandle) :
  (get_outputs_field acc solid handle = None
   ↔ has_configurable_outputs acc (definition solid) = false)
  ∧ ∀ f, get_outputs_field acc solid handle = Some f →
      is_required f = false
      ∧ ∃ fs, config_type f = Array (Shape fs)
          ∧ ∀ n fld, fs !! n = Some fld →
              is_required fld = false
              ∧ ∃ out,
                  (n, out) ∈ output_dict (node_data (definition solid))
                  ∧ materializer (output_dagster_type out)
                    = Some (config_type fld).
Proof.
  unfold get_outputs_field.
  destruct (has_configurable_outputs acc (definition solid)); cbn [negb].
  - split; [done|]. intros f [= <-]. split; [done|].
    eexists. split; [reflexivity|].
    intros n fld (out & schema & Hin & Hm & ->)%output_fields_from.
    split; [done|]. by exists out.
  - done.
Qed.

(** ** The field of a solid and the dictionary of solids *)

Lemma solid_config_field_facts (fs : gmap string (option Field))
    (ignored : bool) :
  config_type (solid_config_field fs ignored) = Shape (remove_none_entries fs)
  ∧ (ignored = true →
     is_required (solid_config_field fs ignored) = false
     ∧ description (solid_config_field fs ignored)
       = Some ignored_description).
Proof. unfold solid_config_field. by destruct ignored. Qed.

(** [define_isolid_field] with the dictionary of the solids of a graph
    written as the call it is in the source. *)
Lemma define_isolid_field_unfold (solid : Solid) (handle : SolidHandle)
    (ds : DependencyStructure) (ignored : bool) :
  define_isolid_field acc solid handle ds ignored
  = match definition solid with
    | SolidDefinition _ =>
        construct_leaf_solid_config acc solid handle ds
          (node_config_schema acc (definition solid)) ignored
    | GraphDefinition _ graph_solids _ graph_structure =>
        if has_config_mapping acc (definition solid) then
          construct_leaf_solid_config acc solid handle ds
            (node_config_schema acc (definition solid)) ignored
        else
          solid_config_field
            (<[ "solids" :=
                  Some (Field_
                          (define_solid_dictionary_cls acc graph_solids None
                             graph_structure (Some handle))
                          None None None) ]>
               (<[ "outputs" := get_outputs_field acc solid handle ]>
                  {[ "inputs" := get_inputs_field acc solid handle ds ]}))
            ignored
    end.
Proof.
  destruct solid as [n [data|data graph_solids topo gds] m]; [reflexivity|].
  cbn [define_isolid_field definition].
  destruct (has_config_mapping acc _); [reflexivity|].
  do 5 f_equal.
  unfold define_solid_dictionary_cls, add_solid_fields; cbn [default foldl].
  f_equal. generalize (∅ : gmap string Field) as fs.
  induction graph_solids as [|s l IH]; intros fs; [reflexivity|].
  cbn [foldl]. apply IH.
Qed.

Lemma add_solid_fields_lookup (l : list Solid) (ds : DependencyStructure)
    (parent_handle : option SolidHandle) (ignored : bool)
    (fs : gmap string Field) (n : string) :
  (∃ s, s ∈ l ∧ solid_name s = n
        ∧ has_config_entry acc (definition s) = true
        ∧ add_solid_fields acc l ds parent_handle ignored fs !! n
          = Some (define_isolid_field acc s
                    (mkHandle (solid_name s) parent_handle) ds ignored))
  ∨ ((∀ s, s ∈ l → solid_name s = n →
           has_config_entry acc (definition s) = false)
     ∧ add_solid_fields acc l ds parent_handle ignored fs !! n = fs !! n).
Proof.
  unfold add_solid_fields.
  induction l as [|s l IH] using rev_ind.
  - right. split; [|done]. by intros s ?%elem_of_nil.
  - rewrite foldl_app; cbn [foldl].
    destruct (has_config_entry acc (definition s)) eqn:Hentry.
    + destruct (decide (solid_name s = n)) as [<-|Hne].
      * left. exists s. rewrite lookup_insert_eq.
        split; [apply elem_of_app; right; by apply list_elem_of_singleton|].
        done.
      * rewrite lookup_insert_ne by done.
        destruct IH as [(s' & ? & ? & ? & ?)|[Hnone ?]].
        -- left. exists s'. split; [apply elem_of_app; by left|done].
        -- right. split; [|done].
           intros s' [?|Heq%list_elem_of_singleton]%elem_of_app ?;
             [by apply Hnone|by subst].
    + destruct IH as [(s' & ? & ? & ? & ?)|[Hnone ?]].
      * left. exists s'. split; [apply elem_of_app; by left|done].
      * right. split; [|done].
        intros s' [?|Heq%list_elem_of_singleton]%elem_of_app ?;
          [by apply Hnone|by subst].
Qed.

(** X6: the field of a solid.  A graph without config mapping exposes its
    children under [solids], and has no [config] entry: the [solids] entry
    is the field of the dictionary of the solids of the graph, built with
    the dependency structure of the graph, below the handle of the solid
    and with no ignored solid, so that a child with a config entry has its
    field there under its name.  A leaf, and a graph with config mapping,
    have no [solids] entry, and their [config] entry is the field of the
    config schema of the definition, if it has one.  The field of an
    ignored solid is optional and carries the description that its values
    are allowed but ignored. *)
Theorem X6_define_isolid_field (solid : Solid) (handle : SolidHandle)
    (ds : DependencyStructure) (ignored : bool) :
  let f := define_isolid_field acc solid handle ds ignored in
  (∀ data graph_solids sorted graph_structure,
     definition solid
     = GraphDefinition data graph_solids sorted graph_structure →
     has_config_mapping acc (definition solid) = false →
     let children :=
       define_solid_dictionary_cls acc graph_solids None graph_structure
         (Some handle) in
     fields (config_type f) !! "solids"
     = Some (Field_ children None None None)
     ∧ fields (config_type f) !! "config" = None
     ∧ ∀ child, child ∈ graph_solids →
         has_config_entry acc (definition child) = true →
         ∃ s, s ∈ graph_solids ∧ solid_name s = solid_name child
              ∧ has_config_entry acc (definition s) = true
              ∧ fields children !! solid_name child
                = Some (define_isolid_field acc s
                          (mkHandle (solid_name s) (Some handle))
                          graph_structure false))
  ∧ (¬ is_open_graph acc solid →
     fields (config_type f) !! "solids" = None
     ∧ fields (config_type f) !! "config"
       = as_field <$> node_config_schema acc (definition solid))
  ∧ fields (config_type f) !! "inputs" = get_inputs_field acc solid handle ds
  ∧ fields (config_type f) !! "outputs" = get_outputs_field acc solid handle
  ∧ (ignored = true →
     is_required f = false ∧ description f = Some ignored_description).
Proof.
  cbv zeta. rewrite define_isolid_field_unfold. unfold is_open_graph.
  assert (Hleaf : ∀ schema,
            let f := construct_leaf_solid_config acc solid handle ds schema
                       ignored in
            fields (config_type f) !! "solids" = None
            ∧ fields (config_type f) !! "config" = as_field <$> schema
            ∧ fields (config_type f) !! "inputs"
              = get_inputs_field acc solid handle ds
            ∧ fields (config_type f) !! "outputs"
              = get_outputs_field acc solid handle
            ∧ (ignored = true →
               is_required f = false
               ∧ description f = Some ignored_description)).
  { intros schema. cbv zeta. unfold construct_leaf_solid_config.
    destruct (solid_config_field_facts
                (<[ "config" := as_field <$> schema ]>
                   (<[ "outputs" := get_outputs_field acc solid handle ]>
                      {[ "inputs" := get_inputs_field acc solid handle ds ]}))
                ignored) as [-> Hignored].
    cbn [fields]. rewrite !remove_none_entries_lookup.
    split; [by vm_compute|]. split; [by rewrite lookup_insert_eq|].
    split; [|split; [|done]].
    - rewrite !lookup_insert_ne by done. by rewrite lookup_singleton_eq.
    - rewrite lookup_insert_ne by done. by rewrite lookup_insert_eq. }
  destruct (definition solid) as [data|data graph_solids topo gds] eqn:Hdef.
  - destruct (Hleaf (node_config_schema acc (SolidDefinition data)))
      as (? & ? & ? & ? & ?).
    split; [by intros ???? [=]|]. split; [done|]. done.
  - destruct (has_config_mapping acc _) eqn:Hmapping.
    + destruct (Hleaf (node_config_schema acc
                         (GraphDefinition data graph_solids topo gds)))
        as (? & ? & ? & ? & ?).
      split; [by intros ???? _ [=]|]. split; [done|]. done.
    + match goal with
      | |- context [solid_config_field ?fs ignored] =>
          destruct (solid_config_field_facts fs ignored) as [-> Hignored]
      end.
      cbn [fields]. rewrite !remove_none_entries_lookup.
      split; [|split; [done|split; [|split; [|done]]]].
      * intros data' graph_solids' sorted' graph_structure' [= <- <- <- <-] _.
        split; [by rewrite lookup_insert_eq|]. split; [by vm_compute|].
        intros child Hchild Hentry.
        unfold define_solid_dictionary_cls; cbn [default fields].
        unfold add_solid_fields at 1; cbn [foldl].
        destruct (add_solid_fields_lookup graph_solids gds (Some handle)
                    false ∅ (solid_name child))
          as [(s & ? & ? & ? & ?)|[Hnone _]].
        -- by exists s.
        -- specialize (Hnone child Hchild eq_refl). congruence.
      * rewrite !lookup_insert_ne by done. by rewrite lookup_singleton_eq.
      * rewrite lookup_insert_ne by done. by rewrite lookup_insert_eq.
Qed.

Lemma ignored_field_is_optional (s : Solid) (handle : SolidHandle)
    (ds : DependencyStructure) :
  is_required (define_isolid_field acc s handle ds true) = false
  ∧ description (define_isolid_field acc s handle ds true)
    = Some ignored_description.
Proof.
  rewrite define_isolid_field_unfold.
  destruct (definition s); [|destruct (has_config_mapping acc _)];
    unfold construct_leaf_solid_config;
    by apply solid_config_field_facts.
Qed.

(** X7: the dictionary of solids has a field under a name exactly when a
    solid of that name, selected or ignored, has a config entry; when an
    ignored solid of that name has one, the field is that of an ignored
    solid, optional and so described, whatever the selected solids are. *)
Theorem X7_define_solid_dictionary_cls (solids : list Solid)
    (ignored_solids : option (list Solid)) (ds : DependencyStructure)
    (parent_handle : option SolidHandle) (n : string) :
  let fs :=
    fields (define_solid_dictionary_cls acc solids ignored_solids ds
              parent_handle) in
  (is_Some (fs !! n)
   ↔ ∃ s, s ∈ solids ++ default [] ignored_solids ∧ solid_name s = n
          ∧ has_config_entry acc (definition s) = true)
  ∧ ((∃ s, s ∈ default [] ignored_solids ∧ solid_name s = n
           ∧ has_config_entry acc (definition s) = true) →
     ∃ f, fs !! n = Some f ∧ is_required f = false
          ∧ description f = Some ignored_description).
Proof.
  cbv zeta. unfold define_solid_dictionary_cls; cbn [fields].
  destruct (add_solid_fields_lookup (default [] ignored_solids) ds
              parent_handle true
              (add_solid_fields acc solids ds parent_handle false ∅) n)
    as [(s & Hin & Hname & Hentry & ->)|[Hnone ->]].
  - split.
    + split; [|by eexists]. intros _. exists s.
      split; [apply elem_of_app; by right|done].
    + intros _. eexists. split; [reflexivity|].
      by apply (ignored_field_is_optional s).
  - destruct (add_solid_fields_lookup solids ds parent_handle false ∅ n)
      as [(s & Hin & Hname & Hentry & ->)|[Hnone' ->]].
    + split.
      * split; [|by eexists]. intros _. exists s.
        split; [apply elem_of_app; by left|done].
      * intros (s' & Hin' & Hname' & Hentry').
        rewrite (Hnone s' Hin' Hname') in Hentry'. done.
    + rewrite lookup_empty. split.
      * split; [by intros [? ?]|].
        intros (s & [Hin|Hin]%elem_of_app & Hname & Hentry).
        -- rewrite (Hnone' s Hin Hname) in Hentry. done.
        -- rewrite (Hnone s Hin Hname) in Hentry. done.
      * intros (s' & Hin' & Hname' & Hentry').
        rewrite (Hnone s' Hin' Hname') in Hentry'. done.
Qed.

(** ** The environment shape *)

(** X8: [define_environment_cls] never fails.  The environment shape has
    the six entries [solids], [storage], [intermediate_storage],
    [execution], [loggers] and [resources] and no other; [storage] and
    [execution] are optional selectors without default, and
    [intermediate_storage] is the storage field of the mode. *)
Theorem X8_define_environment_cls
    (default_defs : list IntermediateStorageDefinition)
    (creation_data : EnvironmentClassCreationData) :
  let mode := creation_mode_definition creation_data in
  ∃ fs storage_field,
    define_environment_cls acc default_defs creation_data = Ok (Shape fs)
    ∧ (∀ k, is_Some (fs !! k)
            ↔ k ∈ ["solids"; "storage"; "intermediate_storage"; "execution";
                   "loggers"; "resources"])
    ∧ intermediate_storage_field default_defs mode = Ok storage_field
    ∧ fs !! "intermediate_storage" = Some storage_field
    ∧ (∃ f, fs !! "storage" = Some f
            ∧ config_type f
              = selector_for_named_defs (intermediate_storage_defs mode)
            ∧ is_required f = false ∧ default_value f = None)
    ∧ (∃ f, fs !! "execution" = Some f
            ∧ config_type f = selector_for_named_defs (executor_defs mode)
            ∧ is_required f = false ∧ default_value f = None)
    ∧ (∃ f, fs !! "loggers" = Some f
            ∧ config_type f
              = define_logger_dictionary_cls
                  (creation_logger_defs creation_data))
    ∧ (∃ f, fs !! "resources" = Some f
            ∧ config_type f
              = define_resource_dictionary_cls (resource_defs mode)).
Proof.
  cbv zeta.
  destruct (storage_field_of_mode default_defs
              (creation_mode_definition creation_data))
    as (storage_field & Hstorage & _).
  unfold define_environment_cls.
  unfold intermediate_storage_field in Hstorage. rewrite Hstorage, bind_Ok.
  eexists _, storage_field. split; [reflexivity|].
  split; [|split; [exact Hstorage|]].
  - intros k. rewrite remove_none_entries_lookup.
    repeat (rewrite elem_of_cons). rewrite elem_of_nil.
    destruct (decide (k = "resources")) as [->|?];
      [rewrite lookup_insert_eq; cbn; split; [intros _|by eexists];
       do 5 right; by left|].
    rewrite lookup_insert_ne by done.
    destruct (decide (k = "loggers")) as [->|?];
      [rewrite lookup_insert_eq; cbn; split; [intros _|by eexists];
       do 4 right; by left|].
    rewrite lookup_insert_ne by done.
    destruct (decide (k = "execution")) as [->|?];
      [rewrite lookup_insert_eq; cbn; split; [intros _|by eexists];
       do 3 right; by left|].
    rewrite lookup_insert_ne by done.
    destruct (decide (k = "intermediate_storage")) as [->|?];
      [rewrite lookup_insert_eq; cbn; split; [intros _|by eexists];
       do 2 right; by left|].
    rewrite lookup_insert_ne by done.
    destruct (decide (k = "storage")) as [->|?];
      [rewrite lookup_insert_eq; cbn; split; [intros _|by eexists];
       right; by left|].
    rewrite lookup_insert_ne by done.
    destruct (decide (k = "solids")) as [->|?];
      [rewrite lookup_singleton_eq; cbn; split; [intros _|by eexists];
       by left|].
    rewrite lookup_singleton_ne by done. cbn.
    split; [by intros [? ?]|]. naive_solver.
  - rewrite !remove_none_entries_lookup.
    split; [|split; [|split; [|split]]].
    + do 3 (rewrite lookup_insert_ne by done). by rewrite lookup_insert_eq.
    + do 4 (rewrite lookup_insert_ne by done). rewrite lookup_insert_eq.
      by eexists.
    + do 2 (rewrite lookup_insert_ne by done). rewrite lookup_insert_eq.
      by eexists.
    + rewrite lookup_insert_ne by done. rewrite lookup_insert_eq.
      by eexists.
    + rewrite lookup_insert_eq. by eexists.
Qed.

End synthesis_proofs.

(** ** Gathering the config types of nested nodes *)

Section gather_proofs.

Variable iterate_config_types : ConfigType → list ConfigType.
Variable construct_dagster_type_dictionary :
  list NodeDefinition → list DagsterType.
Variable ALL_RUNTIME_BUILTINS : list DagsterType.

(** X9: no config type is lost through composition.  The types reached
    from the config field of a solid definition nested at any depth in a
    node definition are gathered for that node definition, hence for any
    list of node definitions that holds it. *)
Theorem X9_nested_config_types_are_gathered (root : NodeDefinition)
    (data : NodeData) (t : ConfigType) :
  reaches root (SolidDefinition data) →
  node_has_config_field data = true →
  t ∈ iterate_config_types (config_type (node_config_field data)) →
  t ∈ iterate_node_def_config_types iterate_config_types root
  ∧ ∀ node_defs environment_type,
      root ∈ node_defs →
      t ∈ all_types iterate_config_types construct_dagster_type_dictionary
            ALL_RUNTIME_BUILTINS node_defs environment_type.
Proof.
  intros Hreach Hfield Ht.
  assert (Hroot : t ∈ iterate_node_def_config_types iterate_config_types
                        root).
  { remember (SolidDefinition data) as leaf eqn:Hleaf.
    induction Hreach as [d|data' graph_solids sorted ds s d' Hin _ IH].
    - subst d. cbn. by rewrite Hfield.
    - apply RegistryProofs.iterate_graph. exists s. split; [done|]. by apply IH. }
  split; [done|]. intros node_defs environment_type Hin.
  unfold all_types, _gather_all_config_types.
  apply elem_of_app; left. apply elem_of_app; left.
  apply list_elem_of_In, in_flat_map. exists root.
  split; by apply list_elem_of_In.
Qed.

End gather_proofs.

Lemma X9_nested_config_types_are_gathered_witness :
  Examples.Int_type
  ∈ iterate_node_def_config_types Examples.ex_iterate_config_types
      MoreExamples.wrapping_graph.
Proof.
  apply (X9_nested_config_types_are_gathered
           Examples.ex_iterate_config_types (λ _, []) []
           MoreExamples.wrapping_graph MoreExamples.configured_data).
  - eapply reaches_inside; [by apply elem_of_cons; left|].
    apply reaches_here.
  - reflexivity.
  - by apply elem_of_cons; left.
Defined.

End SchemaProofs.

(* ===================================================================== *)
(** * Further properties of the plan builder and of the plan *)
(* ===================================================================== *)

Module PlanMoreProofs.
Import Plan.

Section resolver_proofs.

Variable ext : Collaborators.

Lemma get_step_input_shape (b : _PlanBuilder) (solid : Solid)
    (input_name : string) (input_def : InputDefinition)
    (ds : DependencyStructure) (handle : SolidHandle)
    (parent_step_inputs : option (list StepInput)) :
  (∀ step_input,
     get_step_input ext b solid input_name input_def ds handle
       parent_step_inputs = Ok (Some step_input) →
     step_input_name step_input = input_name
     ∧ step_input_type step_input = input_dagster_type input_def)
  ∧ (get_step_input ext b solid input_name input_def ds handle
       parent_step_inputs = Ok None →
     kind (input_dagster_type input_def) = NOTHING
     ∧ config_input (environment_config b) handle input_name = None
     ∧ handle_dict ds !! input_handle solid input_name = None
     ∧ default_value_for_input (definition solid) input_name = None).
Proof.
  unfold get_step_input, has_singular_dep, has_multi_deps, get_singular_dep,
    get_multi_deps, default_or_nothing.
  destruct (config_input _ _ _) as [config_data|]; [split; [by intros ? [= <-]|done]|].
  destruct (handle_dict ds !! _) as [[upstream|upstreams]|].
  - rewrite bind_Ok. destruct (get_output_handle b upstream); [|done].
    split; [by intros ? [= <-]|done].
  - rewrite bind_Ok. destruct (comprehension _ upstreams); [|done].
    split; [by intros ? [= <-]|done].
  - assert (Htail :
      (∀ step_input,
         match default_value_for_input (definition solid) input_name with
         | Some value =>
             Ok (Some (mkStepInput input_name (input_dagster_type input_def)
                         (FromDefaultValue value)))
         | None =>
             if decide (kind (input_dagster_type input_def) = NOTHING)
             then Ok None
             else Raise (DagsterInvariantViolationError
                           (must_get_a_value_message (pipeline_name b)
                              (solid_name solid) input_name))
         end = Ok (Some step_input) →
         step_input_name step_input = input_name
         ∧ step_input_type step_input = input_dagster_type input_def)
      ∧ (match default_value_for_input (definition solid) input_name with
         | Some value =>
             Ok (Some (mkStepInput input_name (input_dagster_type input_def)
                         (FromDefaultValue value)))
         | None =>
             if decide (kind (input_dagster_type input_def) = NOTHING)
             then Ok None
             else Raise (DagsterInvariantViolationError
                           (must_get_a_value_message (pipeline_name b)
                              (solid_name solid) input_name))
         end = Ok None →
         kind (input_dagster_type input_def) = NOTHING
         ∧ (None : option PyValue) = None
         ∧ (None : option Dependency) = None
         ∧ default_value_for_input (definition solid) input_name = None)).
    { destruct (default_value_for_input _ _); [split; [by intros ? [= <-]|done]|].
      destruct (decide _); [|done]. split; [done|]. done. }
    destruct (mapped_inputs solid !! input_name) as [parent_name|];
      [|exact Htail].
    destruct parent_step_inputs as [l|]; [|done].
    destruct (parent_inputs_dict l !! parent_name); [|exact Htail].
    split; [by intros ? [= <-]|done].
Qed.

(** X10: whatever rule decides, a step input that [get_step_input] returns
    carries the name of the input and the type of its definition; and no
    step input is returned only for an input of kind [NOTHING] that has
    neither config entry, nor dependency, nor default. *)
Theorem X10_get_step_input_result (b : _PlanBuilder) (solid : Solid)
    (input_name : string) (input_def : InputDefinition)
    (ds : DependencyStructure) (handle : SolidHandle)
    (parent_step_inputs : option (list StepInput)) :
  (∀ step_input,
     get_step_input ext b solid input_name input_def ds handle
       parent_step_inputs = Ok (Some step_input) →
     step_input_name step_input = input_name
     ∧ step_input_type step_input = input_dagster_type input_def)
  ∧ (get_step_input ext b solid input_name input_def ds handle
       parent_step_inputs = Ok None →
     kind (input_dagster_type input_def) = NOTHING
     ∧ config_input (environment_config b) handle input_name = None
     ∧ handle_dict ds !! input_handle solid input_name = None
     ∧ default_value_for_input (definition solid) input_name = None).
Proof. apply get_step_input_shape. Qed.

(** X11: what [get_step_input] raises besides the invariant violation.  A
    singular dependency on an output that has no step output yet raises
    [KeyError]; so does a fan-in with such an output; and an input mapped
    from the enclosing graph, without config entry and dependency, raises
    [TypeError] when no parent step inputs are passed. *)
Theorem X11_get_step_input_lookup_errors (b : _PlanBuilder) (solid : Solid)
    (input_name : string) (input_def : InputDefinition)
    (ds : DependencyStructure) (handle : SolidHandle)
    (parent_step_inputs : option (list StepInput)) :
  config_input (environment_config b) handle input_name = None →
  (∀ upstream,
     handle_dict ds !! input_handle solid input_name
     = Some (Singular upstream) →
     step_output_map b !! upstream = None →
     ∃ k, get_step_input ext b solid input_name input_def ds handle
            parent_step_inputs = Raise (KeyError k))
  ∧ (∀ upstreams upstream,
       handle_dict ds !! input_handle solid input_name
       = Some (FanIn upstreams) →
       upstream ∈ upstreams → step_output_map b !! upstream = None →
       ∃ k, get_step_input ext b solid input_name input_def ds handle
              parent_step_inputs = Raise (KeyError k))
  ∧ (∀ parent_name,
       handle_dict ds !! input_handle solid input_name = None →
       mapped_inputs solid !! input_name = Some parent_name →
       parent_step_inputs = None →
       ∃ msg, get_step_input ext b solid input_name input_def ds handle
                parent_step_inputs = Raise (TypeError msg)).
Proof.
  intros Hcfg. unfold get_step_input. rewrite Hcfg.
  unfold has_singular_dep, has_multi_deps, get_singular_dep, get_multi_deps,
    get_output_handle.
  split; [|split].
  - intros upstream -> Hnone. rewrite bind_Ok, Hnone. by eexists.
  - intros upstreams upstream -> Hin Hnone. rewrite bind_Ok.
    match goal with
    | |- context [comprehension ?f upstreams] =>
        destruct (comprehension_KeyError f upstreams upstream Hin) as [k Hk]
    end.
    { intros y _. cbv beta.
      destruct (step_output_map b !! y); [left|right]; by eexists. }
    { cbv beta. rewrite Hnone. by eexists. }
    rewrite Hk. by exists k.
  - intros parent_name -> -> ->. by eexists.
Qed.

(** The loop over the inputs, from any list of step inputs collected so
    far. *)
Lemma collect_loop (b : _PlanBuilder) (solid : Solid)
    (ds : DependencyStructure) (handle : SolidHandle)
    (parent_step_inputs : option (list StepInput))
    (l : list (string * InputDefinition)) :
  ∀ collected result,
    for_each
      (λ (step_inputs : list StepInput) '(input_name, input_def),
         step_input ← get_step_input ext b solid input_name input_def ds
                        handle parent_step_inputs;
         match step_input with
         | None => Ok step_inputs
         | Some step_input => Ok (step_inputs ++ [step_input])
         end) l collected = Ok result →
    ∃ new,
      result = collected ++ new
      ∧ sublist (step_input_name <$> new) l.*1
      ∧ ((∀ n inp, (n, inp) ∈ l → kind (input_dagster_type inp) ≠ NOTHING) →
         step_input_name <$> new = l.*1)
      ∧ ∀ i, i ∈ new →
          ∃ inp, (step_input_name i, inp) ∈ l
                 ∧ get_step_input ext b solid (step_input_name i) inp ds
                     handle parent_step_inputs = Ok (Some i).
Proof.
  induction l as [|[n inp] l IH]; intros collected result.
  - intros [= <-]. exists []. rewrite app_nil_r.
    split; [done|]. split; [done|]. split; [done|].
    by intros i ?%elem_of_nil.
  - rewrite for_each_cons.
    destruct (get_step_input ext b solid n inp ds handle parent_step_inputs)
      as [[i|]|e] eqn:Hget; [| |done]; rewrite !bind_Ok.
    + intros (new & -> & Hsub & Hall & Hfrom)%IH.
      destruct (proj1 (get_step_input_shape _ _ _ _ _ _ _) _ Hget) as [Hname _].
      exists (i :: new). rewrite <- app_assoc.
      split; [done|]. cbn. rewrite Hname.
      split; [by apply sublist_skip|].
      split.
      * intros Hkind. f_equal. apply Hall.
        intros n' inp' Hin. apply (Hkind n' inp').
        by apply elem_of_cons; right.
      * intros i' [->|Hin]%elem_of_cons.
        -- exists inp. rewrite Hname.
           split; [by apply elem_of_cons; left|done].
        -- destruct (Hfrom i' Hin) as (inp' & ? & ?). exists inp'.
           split; [by apply elem_of_cons; right|done].
    + intros (new & -> & Hsub & Hall & Hfrom)%IH.
      exists new. split; [done|]. cbn.
      split; [by apply sublist_cons|].
      split.
      * intros Hkind. exfalso.
        destruct (proj2 (get_step_input_shape _ _ _ _ _ _ _) Hget) as [Hnothing _].
        apply (Hkind n inp); [by apply elem_of_cons; left|done].
      * intros i' Hin. destruct (Hfrom i' Hin) as (inp' & ? & ?).
        exists inp'. split; [by apply elem_of_cons; right|done].
Qed.

(** X12: the step inputs collected for a solid follow the order of its
    input definitions, one for an input at most; when no input is of kind
    [NOTHING], there is one step input for every input. *)
Theorem X12_collect_step_inputs (b : _PlanBuilder) (solid : Solid)
    (ds : DependencyStructure) (handle : SolidHandle)
    (parent_step_inputs : option (list StepInput))
    (step_inputs : list StepInput) :
  collect_step_inputs ext b solid ds handle parent_step_inputs
  = Ok step_inputs →
  sublist (step_input_name <$> step_inputs)
          (input_dict (node_data (definition solid))).*1
  ∧ ((∀ n inp, (n, inp) ∈ input_dict (node_data (definition solid)) →
               kind (input_dagster_type inp) ≠ NOTHING) →
     step_input_name <$> step_inputs
     = (input_dict (node_data (definition solid))).*1).
Proof.
  unfold collect_step_inputs.
  intros (new & -> & Hsub & Hall & _)%collect_loop. by rewrite app_nil_l.
Qed.

End resolver_proofs.

Lemma X11_get_step_input_lookup_errors_witness :
  ∃ k, get_step_input Examples.ex_collaborators
         (Examples.empty_builder Examples.chain) Examples.solid_B "x"
         (mkInputDef "x" Examples.Int_dt) Examples.chain_deps
         (mkHandle "B" None) None
       = Raise (KeyError k).
Proof.
  destruct (X11_get_step_input_lookup_errors Examples.ex_collaborators
              (Examples.empty_builder Examples.chain) Examples.solid_B "x"
              (mkInputDef "x" Examples.Int_dt) Examples.chain_deps
              (mkHandle "B" None) None) as (Hsingular & _);
    [reflexivity|].
  apply (Hsingular ("A", "result")); reflexivity.
Defined.

Lemma X12_collect_step_inputs_witness :
  ∃ step_inputs,
    collect_step_inputs Examples.ex_collaborators Examples.builder_after_A
      Examples.solid_B Examples.chain_deps (mkHandle "B" None) None
    = Ok step_inputs
    ∧ sublist (step_input_name <$> step_inputs) ["x"].
Proof.
  eexists. split; [reflexivity|].
  apply (X12_collect_step_inputs Examples.ex_collaborators
           Examples.builder_after_A Examples.solid_B Examples.chain_deps
           (mkHandle "B" None) None).
  reflexivity.
Defined.

(** ** The builder *)

Lemma add_step_Ok_inv (b b' : _PlanBuilder) (step : ExecutionStep) :
  add_step b step = Ok b' →
  (key step ∉ _seen_keys b)
  ∧ b' = mk_PlanBuilder (pipeline b) (environment_config b)
           (step_keys_to_execute b) (mode_definition b)
           (od_set (_steps b) (to_string (solid_handle step)) step)
           (step_output_map b) ({[ key step ]} ∪ _seen_keys b).
Proof.
  unfold add_step. destruct (decide (key step ∈ _seen_keys b)) as [Hin|Hnot].
  - by destruct (comprehension getattr_key (iter_dict (_steps b))).
  - rewrite bind_Ok. by intros [= <-].
Qed.

(** X13: [add_step] adds a step exactly when its key was not seen.  The
    step is then found under its handle, its key is seen, the steps under
    other handle strings and the step output map are as before; for a key
    that was seen, [add_step] raises and adds nothing. *)
Theorem X13_add_step (b : _PlanBuilder) (step : ExecutionStep) :
  (key step ∉ _seen_keys b →
   ∃ b', add_step b step = Ok b'
         ∧ get_step_by_handle b' (solid_handle step) = Ok step
         ∧ _seen_keys b' = {[ key step ]} ∪ _seen_keys b
         ∧ step_output_map b' = step_output_map b
         ∧ ∀ h, to_string h ≠ to_string (solid_handle step) →
                get_step_by_handle b' h = get_step_by_handle b h)
  ∧ (key step ∈ _seen_keys b → ∃ e, add_step b step = Raise e)
  ∧ (∀ b', add_step b step = Ok b' → key step ∉ _seen_keys b).
Proof.
  split; [|split].
  - intros Hnot. unfold add_step. rewrite decide_False by done.
    rewrite bind_Ok. eexists. split; [reflexivity|].
    unfold get_step_by_handle, od_subscript; cbn.
    split; [by rewrite od_get_set_eq|]. split; [done|]. split; [done|].
    intros h Hne. by rewrite od_get_set_ne.
  - intros Hin. destruct (add_step b step) as [b'|e] eqn:Hadd; [|by eexists].
    by apply add_step_Ok_inv in Hadd as [? _].
  - intros b' Hadd. by apply add_step_Ok_inv in Hadd as [? _].
Qed.

Lemma X13_add_step_witness :
  ∃ b', add_step (Examples.empty_builder Examples.chain) Examples.step_A
        = Ok b'
        ∧ get_step_by_handle b' (mkHandle "A" None) = Ok Examples.step_A.
Proof.
  destruct (X13_add_step (Examples.empty_builder Examples.chain)
              Examples.step_A) as (Hadd & _).
  destruct Hadd as (b' & ? & ? & _); [cbn; set_solver|]. by exists b'.
Defined.

Lemma add_step_keys_distinct (b b' : _PlanBuilder) (step : ExecutionStep) :
  keys_distinct b → add_step b step = Ok b' → keys_distinct b'.
Proof.
  intros [Hnodup Hseen] [Hnot ->]%add_step_Ok_inv. split; cbn.
  - apply od_set_NoDup_image; [done|].
    intros (step' & Hkey & Hin)%list_elem_of_fmap.
    apply Hnot. rewrite Hkey. by apply Hseen.
  - intros step' [->|Hin]%od_set_values; [set_solver|].
    apply elem_of_union; right. by apply Hseen.
Qed.

Section traversal_proofs.

Variable ext : Collaborators.

(** The loop over the outputs only assigns step output handles. *)
Lemma record_outputs_invariant (P : _PlanBuilder → Prop) :
  (∀ b k v, P b → P (set_output_handle b k v)) →
  ∀ solid handle b b',
    P b → record_outputs ext b solid handle = Ok b' → P b'.
Proof.
  intros Hset solid handle b b'. unfold record_outputs.
  apply (for_each_preserves P).
  intros s [out_name out_def] s' _ Hs.
  intros ([resolved_name resolved_handle] & _ & Hrest)%bind_Ok_inv.
  apply bind_Ok_inv in Hrest as (step & _ & [= <-]). by apply Hset.
Qed.

(** What [add_step] and the assignment of a step output handle keep, the
    traversal of a solid keeps. *)
Lemma traversal_invariant (P : _PlanBuilder → Prop) :
  (∀ b step b', P b → add_step b step = Ok b' → P b') →
  (∀ b k v, P b → P (set_output_handle b k v)) →
  ∀ solid ds parent_handle parent_step_inputs b b',
    P b →
    build_from_solid ext solid ds parent_handle parent_step_inputs b = Ok b' →
    P b'.
Proof.
  intros Hadd Hset solid.
  induction solid as [n data m|n data sl topo ids m IH]
    using PlanProofs.Solid_nested_ind;
    intros ds ph psi b b' Hb; rewrite PlanProofs.build_from_solid_unfold;
    cbv zeta; intros (step_inputs & _ & Hrest)%bind_Ok_inv;
    apply bind_Ok_inv in Hrest as (b1 & Hb1 & Hout);
    apply (record_outputs_invariant P Hset _ _ _ _) in Hout; [done| |done|];
    cbn [definition] in Hb1.
  - apply bind_Ok_inv in Hb1 as (step & _ & Hstep). by eapply Hadd.
  - revert Hb1. apply (for_each_preserves P); [|done].
    intros s inner s' Hin Hs Hbuild.
    rewrite Forall_forall in IH. by eapply (IH inner Hin).
Qed.

Lemma traverse_invariant (P : _PlanBuilder → Prop) :
  (∀ b step b', P b → add_step b step = Ok b' → P b') →
  (∀ b k v, P b → P (set_output_handle b k v)) →
  ∀ b b', P b → traverse ext b = Ok b' → P b'.
Proof.
  intros Hadd Hset b b'. unfold traverse, _build_from_sorted_solids.
  apply (for_each_preserves P).
  intros s solid s' _ Hs Hbuild. by eapply traversal_invariant.
Qed.

(** The step dictionary of steps with distinct keys lists them in order. *)
Lemma construct_step_dict_distinct (steps : list ExecutionStep) :
  NoDup (key <$> steps) →
  construct_step_dict steps = (λ step, (key step, step)) <$> steps.
Proof.
  unfold construct_step_dict.
  induction steps as [|step steps IH] using rev_ind; [done|].
  rewrite fmap_app. intros [Hnodup [Hfresh _]]%NoDup_app.
  rewrite foldl_app; cbn. rewrite IH by done.
  rewrite od_set_fresh; [by rewrite fmap_app|].
  unfold od_keys. rewrite <- list_fmap_compose.
  intros Hin. apply (Hfresh (key step)); [done|].
  by apply list_elem_of_singleton.
Qed.

Lemma od_get_of_distinct (steps : list ExecutionStep) (step : ExecutionStep) :
  NoDup (key <$> steps) → step ∈ steps →
  od_get ((λ step, (key step, step)) <$> steps) (key step) = Some step.
Proof.
  induction steps as [|step' steps IH]; [by intros _ ?%elem_of_nil|].
  cbn. intros [Hfresh Hnodup]%NoDup_cons [->|Hin]%elem_of_cons.
  - by rewrite decide_True.
  - rewrite decide_False; [by apply IH|].
    intros Heq. apply Hfresh. rewrite Heq. by apply list_elem_of_fmap_2.
Qed.

(** X14: in a plan that [ExecutionPlan.build] returns, whatever the subset,
    the steps have pairwise distinct keys, the step dictionary lists them
    under their keys in the order of the plan, and every one of them is
    found by its key. *)
Theorem X14_built_plan_has_distinct_keys (pipeline : PipelineDefinition)
    (env : EnvironmentConfig) (mode : option string)
    (subset : option (list string)) (plan : ExecutionPlan.t) :
  ExecutionPlan_build ext pipeline env mode subset = Ok plan →
  NoDup (key <$> ExecutionPlan.steps plan)
  ∧ ExecutionPlan.step_dict plan
    = (λ step, (key step, step)) <$> ExecutionPlan.steps plan
  ∧ ∀ step, step ∈ ExecutionPlan.steps plan →
            ExecutionPlan.get_step_by_key plan (key step) = Ok step.
Proof.
  unfold ExecutionPlan_build, build.
  intros (b0 & Hinit & Hrest)%bind_Ok_inv.
  apply bind_Ok_inv in Hrest as (b' & Htraverse & Hfinish).
  assert (Hdistinct : keys_distinct b').
  { eapply (traverse_invariant keys_distinct); [| |
      |exact Htraverse].
    - intros ???. apply add_step_keys_distinct.
    - by intros ???.
    - unfold init in Hinit.
      apply bind_Ok_inv in Hinit as (m & _ & [= <-]). split; cbn.
      + apply NoDup_nil_2.
      + by intros step ?%elem_of_nil. }
  destruct Hdistinct as [Hnodup _].
  unfold finish in Hfinish.
  apply bind_Ok_inv in Hfinish as (_ & _ & Hfinish).
  apply bind_Ok_inv in Hfinish as (persisted & _ & Hnew).
  unfold ExecutionPlan.new in Hnew.
  destruct (filter _ _) in Hnew; [|done]. injection Hnew as <-.
  cbn [ExecutionPlan.steps ExecutionPlan.step_dict].
  rewrite (construct_step_dict_distinct _ Hnodup).
  assert (Hvalues : od_values ((λ step, (key step, step))
                                 <$> od_values (_steps b'))
                    = od_values (_steps b')).
  { unfold od_values at 1. rewrite <- list_fmap_compose.
    apply list_fmap_id. }
  rewrite Hvalues. split; [done|]. split; [done|].
  intros step Hin. unfold ExecutionPlan.get_step_by_key, od_subscript.
  cbn [ExecutionPlan.step_dict]. by rewrite od_get_of_distinct.
Qed.

End traversal_proofs.

Lemma X14_built_plan_has_distinct_keys_witness :
  NoDup (key <$> ExecutionPlan.steps Examples.chain_plan).
Proof.
  apply (X14_built_plan_has_distinct_keys Examples.ex_collaborators
           Examples.chain Examples.mem_env None None Examples.chain_plan).
  by vm_compute.
Defined.

(** ** The plan *)

Lemma od_mem_keys {V} (d : list (string * V)) (k : string) :
  od_mem d k = true ↔ k ∈ od_keys d.
Proof.
  unfold od_mem. rewrite bool_decide_eq_true.
  destruct (od_get d k) as [v|] eqn:Hget.
  - split; [intros _|by eexists].
    destruct (decide (k ∈ od_keys d)) as [?|Hnot]; [done|].
    apply od_get_None in Hnot. congruence.
  - apply od_get_None in Hget. split; [by intros [? ?]|done].
Qed.

Lemma construct_step_dict_keys (steps : list ExecutionStep) (k : string) :
  k ∈ od_keys (construct_step_dict steps) ↔ k ∈ key <$> steps.
Proof.
  unfold construct_step_dict.
  induction steps as [|step steps IH] using rev_ind.
  - cbn. by rewrite !elem_of_nil.
  - rewrite foldl_app, fmap_app. cbn [foldl].
    rewrite od_set_keys, elem_of_app, IH, list_fmap_singleton.
    rewrite list_elem_of_singleton. naive_solver.
Qed.

(** X15: a subset plan keeps what is needed to take any other subset of
    the same steps: a subset of a subset plan is the subset of the plan
    itself, also when it names steps outside the first subset.  In a
    subset plan no step to execute is missing, and the steps are the
    values of the step dictionary. *)
Theorem X15_subset_of_subset (P P1 : ExecutionPlan.t) (S1 S2 : list string) :
  ExecutionPlan.build_subset_plan P S1 = Ok P1 →
  ExecutionPlan.build_subset_plan P1 S2 = ExecutionPlan.build_subset_plan P S2
  ∧ ExecutionPlan.missing_steps P1 = []
  ∧ ExecutionPlan.steps P1 = od_values (ExecutionPlan.step_dict P)
  ∧ ∀ k, k ∈ S1 → ExecutionPlan.has_step P1 k = true.
Proof.
  unfold ExecutionPlan.build_subset_plan, ExecutionPlan.new.
  destruct (filter (λ k, od_mem (ExecutionPlan.step_dict P) k = false) S1)
    as [|k missing] eqn:Hmissing; [|done].
  intros [= <-]. cbn. split; [done|].
  unfold ExecutionPlan.missing_steps, ExecutionPlan.has_step; cbn.
  split; [done|]. split; [done|]. intros k Hin.
  destruct (od_mem (ExecutionPlan.step_dict P) k) eqn:Hmem; [done|].
  by destruct (filter_nil_not_elem_of _ _ k Hmissing Hmem).
Qed.

Lemma X15_subset_of_subset_witness :
  ∃ P1, ExecutionPlan.build_subset_plan Examples.chain_plan ["B"] = Ok P1
        ∧ ExecutionPlan.build_subset_plan P1 ["A"]
          = ExecutionPlan.build_subset_plan Examples.chain_plan ["A"].
Proof.
  eexists. split; [reflexivity|].
  apply (X15_subset_of_subset Examples.chain_plan _ ["B"] ["A"]).
  reflexivity.
Defined.

Section finish_proofs.

Variable ext : Collaborators.

(** X16: without a subset ([None] or the empty list) the construction of
    the plan cannot fail: once the traversal is done, [build] fails only in
    the guard or in the lookup of the storage definition, and otherwise
    returns the plan of all steps, to execute in the order they were
    planned. *)
Theorem X16_full_plan_is_constructed (b : _PlanBuilder) :
  opt_list_truthy (step_keys_to_execute b) = false →
  finish ext b
  = check_asset_store_intermediate_storage ext (mode_definition b)
      (environment_config b)
    ≫= λ _, storage_is_persistent ext b
    ≫= λ artifacts_persisted,
      Ok (ExecutionPlan.mk (pipeline b)
            (construct_step_dict (od_values (_steps b)))
            (construct_deps (od_values (_steps b)))
            (od_values (construct_step_dict (od_values (_steps b))))
            artifacts_persisted
            (key <$> od_values (_steps b))
            (environment_config b)).
Proof.
  intros Hfalsy. unfold finish, keys_or_all. rewrite Hfalsy.
  destruct (check_asset_store_intermediate_storage ext _ _); [|done].
  rewrite !bind_Ok.
  destruct (storage_is_persistent ext b); [|done]. rewrite !bind_Ok.
  unfold ExecutionPlan.new.
  destruct (filter _ _) as [|k missing] eqn:Hmissing; [done|].
  assert (Hin : k ∈ filter
                  (λ step_key,
                     od_mem (construct_step_dict (od_values (_steps b)))
                       step_key = false)
                  (key <$> od_values (_steps b)))
    by (rewrite Hmissing; by apply elem_of_cons; left).
  apply list_elem_of_filter in Hin as [Hmem Hin].
  apply construct_step_dict_keys, od_mem_keys in Hin. congruence.
Qed.

(** X17: with a subset to execute, once the traversal, the guard and the
    lookup of the storage definition are done, [build] returns a plan that
    executes exactly the given keys, or raises the step-not-found error,
    which it does iff one of the given keys is not the key of a planned
    step. *)
Theorem X17_subset_build (b : _PlanBuilder) (k : string) (S : list string)
    (artifacts_persisted : bool) :
  step_keys_to_execute b = Some (k :: S) →
  check_asset_store_intermediate_storage ext (mode_definition b)
    (environment_config b) = Ok () →
  storage_is_persistent ext b = Ok artifacts_persisted →
  ((∃ plan, finish ext b = Ok plan)
   ∨ ∃ msg missing,
       finish ext b = Raise (DagsterExecutionStepNotFoundError msg missing))
  ∧ ((∃ msg missing,
        finish ext b = Raise (DagsterExecutionStepNotFoundError msg missing))
     ↔ ∃ k', k' ∈ k :: S ∧ k' ∉ key <$> od_values (_steps b))
  ∧ ∀ plan, finish ext b = Ok plan →
      ExecutionPlan.step_keys_to_execute plan = k :: S
      ∧ ExecutionPlan.steps plan
        = od_values (construct_step_dict (od_values (_steps b))).
Proof.
  intros Hkeys Hguard Hpersist. unfold finish, keys_or_all.
  rewrite Hkeys, Hguard, Hpersist, !bind_Ok.
  cbn [opt_list_truthy default from_option]. unfold id.
  unfold ExecutionPlan.new.
  destruct (filter _ _) as [|k0 missing] eqn:Hmissing.
  - split; [left; by eexists|]. split; [|by intros ? [= <-]].
    split; [by intros (? & ? & ?)|]. intros (k' & Hin & Hnot). exfalso.
    destruct (od_mem (construct_step_dict (od_values (_steps b))) k')
      eqn:Hmem.
    + by apply od_mem_keys, construct_step_dict_keys in Hmem.
    + by destruct (filter_nil_not_elem_of _ _ k' Hmissing Hmem).
  - split; [right; by eexists _, _|]. split; [|done].
    split; [|by eexists _, _]. intros _. exists k0.
    assert (Hin : k0 ∈ filter
                    (λ step_key,
                       od_mem (construct_step_dict (od_values (_steps b)))
                         step_key = false)
                    (k :: S))
      by (rewrite Hmissing; by apply elem_of_cons; left).
    apply list_elem_of_filter in Hin as [Hmem Hin]. split; [done|].
    intros Hplanned%construct_step_dict_keys%od_mem_keys. congruence.
Qed.

End finish_proofs.

Lemma X16_full_plan_is_constructed_witness :
  ∃ plan, finish Examples.ex_collaborators Examples.builder_after_A = Ok plan
          ∧ ExecutionPlan.step_keys_to_execute plan = ["A"].
Proof.
  rewrite (X16_full_plan_is_constructed Examples.ex_collaborators
             Examples.builder_after_A eq_refl).
  eexists. split; reflexivity.
Defined.

Lemma X17_subset_build_witness :
  ∃ msg missing,
    finish Examples.ex_collaborators
      (with_keys (Some ["B"]) Examples.builder_after_A)
    = Raise (DagsterExecutionStepNotFoundError msg missing).
Proof.
  destruct (X17_subset_build Examples.ex_collaborators
              (with_keys (Some ["B"]) Examples.builder_after_A) "B" [] false
              eq_refl eq_refl eq_refl) as (_ & [_ Hraise] & _).
  apply Hraise. exists "B". split; [by apply elem_of_cons; left|].
  cbn. by intros [?|?%elem_of_nil]%elem_of_cons.
Defined.

(** ** execution_deps *)

(** X18: [execution_deps] has an entry for every key to execute and for no
    other key, and the dependencies it lists are themselves keys to
    execute; it raises when a key to execute has no step in the step
    dictionary. *)
Theorem X18_execution_deps (plan : ExecutionPlan.t) :
  let keys := ExecutionPlan.step_keys_to_execute plan in
  (∀ deps, ExecutionPlanQueries.execution_deps plan = Ok deps →
     (∀ k, k ∈ keys → is_Some (od_get deps k))
     ∧ ∀ k ds, od_get deps k = Some ds →
         k ∈ keys ∧ ∀ d, d ∈ ds → d ∈ keys)
  ∧ ((∃ k, k ∈ keys ∧ od_get (ExecutionPlan.step_dict plan) k = None) →
     ∃ e, ExecutionPlanQueries.execution_deps plan = Raise e).
Proof.
  intros keys. unfold ExecutionPlanQueries.execution_deps. fold keys.
  set (inv := λ deps : list (string * gset string),
         (∀ k, k ∈ keys → is_Some (od_get deps k))
         ∧ ∀ k ds, od_get deps k = Some ds →
             k ∈ keys ∧ ∀ d, d ∈ ds → d ∈ keys).
  assert (Hinit : inv (foldl (λ deps k, od_set deps k ∅) [] keys)).
  { assert (Hgen : ∀ l,
              (∀ k, k ∈ l →
                 is_Some (od_get (foldl (λ deps k, od_set deps k (∅ : gset string)) [] l) k))
              ∧ ∀ k ds,
                  od_get (foldl (λ deps k, od_set deps k (∅ : gset string)) [] l) k
                  = Some ds → k ∈ l ∧ ds = ∅).
    { induction l as [|k0 l [IH1 IH2]] using rev_ind;
        [split; [by intros k ?%elem_of_nil|done]|].
      rewrite foldl_app; cbn [foldl]. split.
      - intros k [Hin|Heq%list_elem_of_singleton]%elem_of_app; [|subst k].
        + destruct (decide (k0 = k)) as [->|Hne];
            [rewrite od_get_set_eq; by eexists|].
          rewrite od_get_set_ne by done. by apply IH1.
        + rewrite od_get_set_eq. by eexists.
      - intros k ds. destruct (decide (k0 = k)) as [->|Hne].
        + rewrite od_get_set_eq. intros [= <-].
          split; [|done]. apply elem_of_app; right.
          by apply list_elem_of_singleton.
        + rewrite od_get_set_ne by done. intros [? ?]%IH2.
          split; [|done]. apply elem_of_app; by left. }
    destruct (Hgen keys) as [H1 H2]. split; [done|].
    intros k ds [? ->]%H2. split; [done|]. set_solver. }
  split.
  - intros deps. revert Hinit.
    generalize (foldl (λ deps k, od_set deps k (∅ : gset string)) [] keys).
    intros deps0 Hinv0 Hloop. revert Hloop.
    apply (for_each_preserves inv); [|done].
    intros deps1 k deps2 _ Hinv1.
    intros (step & _ & Hinner)%bind_Ok_inv. revert Hinner.
    apply (for_each_preserves inv); [|done].
    intros deps3 step_input deps4 _ [Hall Hfrom].
    unfold od_subscript.
    destruct (od_get deps3 (key step)) as [current|] eqn:Hcurrent; [|done].
    rewrite bind_Ok. intros [= <-].
    destruct (Hfrom _ _ Hcurrent) as [Hkey Hcur]. split.
    + intros k' Hk'. destruct (decide (key step = k')) as [->|Hne];
        [rewrite od_get_set_eq; by eexists|].
      rewrite od_get_set_ne by done. by apply Hall.
    + intros k' ds. destruct (decide (key step = k')) as [<-|Hne].
      * rewrite od_get_set_eq. intros [= <-]. split; [done|].
        intros d [?|[_ ?%elem_of_list_to_set]%elem_of_intersection]
                 %elem_of_union; [by apply Hcur|done].
      * rewrite od_get_set_ne by done. apply Hfrom.
  - intros (k & Hin & Hnone).
    apply (for_each_raises _ keys k Hin). intros deps.
    unfold od_subscript. rewrite Hnone. by eexists.
Qed.

Lemma X18_execution_deps_witness :
  ∃ deps,
    ExecutionPlanQueries.execution_deps MoreExamples.only_B = Ok deps
    ∧ is_Some (od_get deps "B").
Proof.
  assert (Hrun : ExecutionPlanQueries.execution_deps MoreExamples.only_B
                 = Ok [("B", ∅)]) by (by vm_compute).
  exists [("B", ∅)]. split; [exact Hrun|].
  apply (proj1 (proj1 (X18_execution_deps MoreExamples.only_B) _ Hrun)).
  by apply elem_of_cons; left.
Defined.

(** ** The step outputs of a solid *)

Section outputs_proofs.

Variable ext : Collaborators.

Lemma record_outputs_loop (solid : Solid) (handle : SolidHandle)
    (l : list (string * OutputDefinition)) :
  ∀ b b',
    for_each
      (λ (self : _PlanBuilder) '(output_name_, output_def),
         let output_handle := output_handle solid output_name_ in
         '(resolved_output_name, resolved_handle) ←
           resolve_output_to_origin ext (definition solid)
             (output_name output_def) handle;
         compute_step ← get_step_by_handle self resolved_handle;
         Ok (set_output_handle self output_handle
               (from_step compute_step resolved_output_name)))
      l b = Ok b' →
    _steps b' = _steps b ∧ _seen_keys b' = _seen_keys b
    ∧ static b' = static b
    ∧ (∀ k, names_planned_step b (step_output_map b !! k) →
            names_planned_step b (step_output_map b' !! k))
    ∧ (∀ n out, (n, out) ∈ l →
         names_planned_step b (step_output_map b' !! output_handle solid n))
    ∧ (∀ k, k.1 ≠ solid_name solid →
            step_output_map b' !! k = step_output_map b !! k).
Proof.
  induction l as [|[n out] l IH]; intros b b'.
  - intros [= <-]. repeat split; try done. by intros ?? ?%elem_of_nil.
  - rewrite for_each_cons. intros (b1 & Hb1 & Hrest)%bind_Ok_inv.
    cbv zeta in Hb1.
    apply bind_Ok_inv in Hb1 as ([rn rh] & _ & Hb1).
    apply bind_Ok_inv in Hb1 as (step & Hstep & [= <-]).
    unfold get_step_by_handle, od_subscript in Hstep.
    destruct (od_get (_steps b) (to_string rh)) as [step'|] eqn:Hget;
      [|done].
    injection Hstep as ->. apply od_get_values in Hget.
    destruct (IH _ _ Hrest) as (Hsteps & Hseen & Hstatic & Hkeep & Hnew & Hother).
    cbn in Hsteps, Hseen, Hstatic.
    assert (Hgood : ∀ k,
              names_planned_step b
                (<[ output_handle solid n := from_step step rn ]>
                   (step_output_map b) !! k)
              → names_planned_step b (step_output_map b' !! k)).
    { intros k (h & st & Hk & Hst & Hkey). apply Hkeep. by exists h, st. }
    split; [done|]. split; [done|]. split; [done|].
    split; [|split].
    + intros k Hk. apply Hgood.
      destruct (decide (output_handle solid n = k)) as [<-|Hne].
      * rewrite lookup_insert_eq. by exists (from_step step rn), step.
      * by rewrite lookup_insert_ne.
    + intros n' out' [[= -> ->]|Hin]%elem_of_cons.
      * apply Hgood. rewrite lookup_insert_eq.
        by exists (from_step step rn), step.
      * destruct (Hnew n' out' Hin) as (h & st & ? & ? & ?).
        by exists h, st.
    + intros k Hk. rewrite Hother by done. cbn.
      rewrite lookup_insert_ne; [done|]. unfold output_handle.
      intros <-. done.
Qed.

(** X19: once the outputs of a solid are recorded, every output of the
    solid has a step output handle, and that handle names a step that is
    planned; handles recorded before still name planned steps, those of
    other solids are as they were, and no step is added or removed. *)
Theorem X19_record_outputs (b b' : _PlanBuilder) (solid : Solid)
    (handle : SolidHandle) :
  record_outputs ext b solid handle = Ok b' →
  _steps b' = _steps b ∧ _seen_keys b' = _seen_keys b
  ∧ (∀ n out, (n, out) ∈ output_dict (node_data (definition solid)) →
       names_planned_step b' (step_output_map b' !! output_handle solid n))
  ∧ (∀ k, names_planned_step b (step_output_map b !! k) →
          names_planned_step b' (step_output_map b' !! k))
  ∧ (∀ k, k.1 ≠ solid_name solid →
          step_output_map b' !! k = step_output_map b !! k).
Proof.
  unfold record_outputs.
  intros (Hsteps & Hseen & _ & Hkeep & Hnew & Hother)%record_outputs_loop.
  assert (Hsame : ∀ o, names_planned_step b o → names_planned_step b' o).
  { intros o (h & st & ? & ? & ?). exists h, st. by rewrite Hsteps. }
  split; [done|]. split; [done|]. split; [|split; [|done]].
  - intros n out Hin. apply Hsame. by apply (Hnew n out).
  - intros k Hk. by apply Hsame, Hkeep.
Qed.

End outputs_proofs.

Lemma X19_record_outputs_witness :
  names_planned_step Examples.builder_after_A
    (step_output_map Examples.builder_after_A
       !! output_handle Examples.solid_A "result").
Proof.
  destruct (X19_record_outputs Examples.ex_collaborators
              (mk_PlanBuilder Examples.chain Examples.mem_env None
                 Examples.default_mode [("A", Examples.step_A)] ∅ {[ "A" ]})
              Examples.builder_after_A Examples.solid_A (mkHandle "A" None))
    as (_ & _ & Hnew & _); [by vm_compute|].
  apply (Hnew "result" (mkOutputDef "result" Examples.Int_dt)).
  by apply elem_of_cons; left.
Defined.

(** ** The dependencies of a built plan *)

Lemma multiple_sources_keys (legs : list StepInputSource) (k : string) :
  k ∈ source_dependency_keys (FromMultipleSources legs)
  ↔ ∃ leg, leg ∈ legs ∧ k ∈ source_dependency_keys leg.
Proof.
  cbn [source_dependency_keys].
  induction legs as [|leg legs IH].
  - split; [set_solver|]. by intros (leg & ?%elem_of_nil & _).
  - rewrite elem_of_union, IH. split.
    + intros [?|(leg' & ? & ?)].
      * exists leg. split; [by apply elem_of_cons; left|done].
      * exists leg'. split; [by apply elem_of_cons; right|done].
    + intros (leg' & [->|?]%elem_of_cons & ?); [by left|].
      right. by exists leg'.
Qed.

(** The entries of the dependency dictionary come from the steps. *)
Lemma construct_deps_from (steps : list ExecutionStep) (k : string)
    (ds : gset string) :
  construct_deps steps !! k = Some ds →
  k ∈ key <$> steps
  ∧ ∀ d, d ∈ ds →
      ∃ step i, step ∈ steps ∧ key step = k ∧ i ∈ step_inputs step
                ∧ d ∈ dependency_keys i.
Proof.
  unfold construct_deps.
  set (inv := λ m : gmap string (gset string),
         ∀ k ds, m !! k = Some ds →
           k ∈ key <$> steps
           ∧ ∀ d, d ∈ ds →
               ∃ step i, step ∈ steps ∧ key step = k ∧ i ∈ step_inputs step
                         ∧ d ∈ dependency_keys i).
  assert (Hinit : inv (foldl (λ (acc : gmap string (gset string)) step,
                                <[ key step := ∅ ]> acc) ∅ steps)).
  { assert (Hgen : ∀ l k ds,
              foldl (λ (acc : gmap string (gset string)) step,
                       <[ key step := ∅ ]> acc) ∅ l !! k = Some ds →
              k ∈ key <$> l ∧ ds = ∅).
    { induction l as [|step l IH] using rev_ind; intros k0 ds0.
      - cbn. by rewrite lookup_empty.
      - rewrite foldl_app, fmap_app; cbn [foldl].
        destruct (decide (key step = k0)) as [<-|Hne].
        + rewrite lookup_insert_eq. intros [= <-]. split; [|done].
          apply elem_of_app; right. rewrite list_fmap_singleton.
          by apply list_elem_of_singleton.
        + rewrite lookup_insert_ne by done. intros [? ?]%IH.
          split; [|done]. apply elem_of_app; by left. }
    intros k0 ds0 [? ->]%Hgen. split; [done|]. set_solver. }
  assert (Hloop : ∀ l m,
            (∀ step, step ∈ l → step ∈ steps) → inv m →
            inv (foldl
                   (λ (acc : gmap string (gset string)) step,
                      foldl (λ (acc : gmap string (gset string)) step_input,
                               alter (λ s, s ∪ dependency_keys step_input)
                                     (key step) acc)
                            acc (step_inputs step))
                   m l)).
  { induction l as [|step l IH]; intros m Hl Hm; [done|].
    cbn [foldl]. apply IH; [by intros ??; apply Hl, elem_of_cons; right|].
    assert (Hstep : step ∈ steps) by (by apply Hl, elem_of_cons; left).
    assert (Hinner : ∀ sis m0,
              (∀ i, i ∈ sis → i ∈ step_inputs step) → inv m0 →
              inv (foldl (λ (acc : gmap string (gset string)) step_input,
                            alter (λ s, s ∪ dependency_keys step_input)
                                  (key step) acc) m0 sis)).
    { induction sis as [|i sis IHs]; intros m0 Hsis Hm0; [done|].
      cbn [foldl]. apply IHs; [by intros ??; apply Hsis, elem_of_cons; right|].
      intros k0 ds0. destruct (decide (key step = k0)) as [<-|Hne].
      - rewrite lookup_alter_eq.
        destruct (m0 !! key step) as [old|] eqn:Hold; [|done].
        cbn. intros [= <-]. destruct (Hm0 _ _ Hold) as [Hk Hds].
        split; [done|]. intros d [?|?]%elem_of_union; [by apply Hds|].
        exists step, i. split; [done|]. split; [done|].
        split; [by apply Hsis, elem_of_cons; left|done].
      - rewrite lookup_alter_ne by done. apply Hm0. }
    by apply Hinner. }
  intros Hk. by apply (Hloop steps _ (λ _ H, H) Hinit).
Qed.

Lemma construct_deps_dom (steps : list ExecutionStep) (step : ExecutionStep) :
  step ∈ steps → is_Some (construct_deps steps !! key step).
Proof.
  intros Hin. unfold construct_deps.
  assert (Hinit : is_Some (foldl (λ (acc : gmap string (gset string)) step,
                                    <[ key step := ∅ ]> acc) ∅ steps
                             !! key step)).
  { induction steps as [|step' l IH] using rev_ind;
      [by apply elem_of_nil in Hin|].
    rewrite foldl_app; cbn [foldl].
    destruct (decide (key step' = key step)) as [->|Hne].
    - rewrite lookup_insert_eq. by eexists.
    - rewrite lookup_insert_ne by done. apply IH.
      apply elem_of_app in Hin as [?|Heq%list_elem_of_singleton]; [done|].
      by subst. }
  revert Hinit.
  generalize (foldl (λ (acc : gmap string (gset string)) step,
                       <[ key step := ∅ ]> acc) ∅ steps).
  generalize steps at 1. clear Hin.
  induction steps0 as [|step' l IH]; intros m Hm; [done|].
  cbn [foldl]. apply IH.
  generalize (step_inputs step'). revert Hm. generalize m.
  intros m0 Hm0 sis. revert m0 Hm0.
  induction sis as [|i sis IHs]; intros m0 Hm0; [done|].
  cbn [foldl]. apply IHs. by apply lookup_alter_is_Some.
Qed.

Section dependency_proofs.

Variable ext : Collaborators.
Variable key_of : string → string.
Hypothesis keyed : steps_keyed_by_handle ext key_of.

Lemma planned_extends (b b' : _PlanBuilder) (k : string) :
  extends b b' → planned b k → planned b' k.
Proof. intros Hext (step & ? & ?). exists step. split; [by apply Hext|done]. Qed.

Lemma inputs_planned_extends (b b' : _PlanBuilder) (l : list StepInput) :
  extends b b' → inputs_planned b l → inputs_planned b' l.
Proof.
  intros Hext Hl i k Hi Hk. eapply planned_extends; [done|]. by eapply Hl.
Qed.

(** The source that [get_step_input] resolves depends on planned steps. *)
Lemma get_step_input_planned (b : _PlanBuilder) (solid : Solid)
    (input_name : string) (input_def : InputDefinition)
    (ds : DependencyStructure) (handle : SolidHandle)
    (parent_step_inputs : option (list StepInput)) (i : StepInput) :
  well_planned key_of b →
  from_option (inputs_planned b) True parent_step_inputs →
  get_step_input ext b solid input_name input_def ds handle
    parent_step_inputs = Ok (Some i) →
  ∀ k, k ∈ dependency_keys i → planned b k.
Proof.
  intros (_ & _ & Hmap & _) Hparent.
  unfold get_step_input, has_singular_dep, has_multi_deps, get_singular_dep,
    get_multi_deps, default_or_nothing, dependency_keys.
  destruct (config_input _ _ _) as [config_data|];
    [intros [= <-] k; cbn; set_solver|].
  assert (Hout : ∀ up out, get_output_handle b up = Ok out →
                           planned b (step_key out)).
  { intros up out. unfold get_output_handle.
    destruct (step_output_map b !! up) as [h|] eqn:Hup; [|done].
    intros [= <-]. by eapply Hmap. }
  assert (Htail : ∀ k,
            match default_value_for_input (definition solid) input_name with
            | Some value =>
                Ok (Some (mkStepInput input_name (input_dagster_type input_def)
                            (FromDefaultValue value)))
            | None =>
                if decide (kind (input_dagster_type input_def) = NOTHING)
                then Ok None
                else Raise (DagsterInvariantViolationError
                              (must_get_a_value_message (pipeline_name b)
                                 (solid_name solid) input_name))
            end = Ok (Some i) →
            k ∈ source_dependency_keys (source i) → planned b k).
  { intros k. destruct (default_value_for_input _ _);
      [intros [= <-]; cbn; set_solver|].
    by destruct (decide _). }
  destruct (handle_dict ds !! _) as [[upstream|upstreams]|].
  - rewrite bind_Ok.
    destruct (get_output_handle b upstream) as [out|] eqn:Hup; [|done].
    rewrite bind_Ok. intros [= <-] k; cbn.
    intros ->%elem_of_singleton. by eapply Hout.
  - rewrite bind_Ok.
    destruct (comprehension _ upstreams) as [legs|] eqn:Hlegs; [|done].
    rewrite bind_Ok. intros [= <-] k; cbn [source].
    intros (leg & Hleg & Hk)%multiple_sources_keys.
    destruct (comprehension_Ok_elem _ _ _ Hlegs leg Hleg) as (up & _ & Hup).
    cbv beta in Hup.
    destruct (get_output_handle b up) as [out|] eqn:Hget; [|done].
    rewrite bind_Ok in Hup. injection Hup as <-. cbn in Hk.
    apply elem_of_singleton in Hk as ->. by eapply Hout.
  - destruct (mapped_inputs solid !! input_name) as [parent_name|];
      [|intros ??; by eapply Htail].
    destruct parent_step_inputs as [l|]; [|done].
    destruct (parent_inputs_dict l !! parent_name) as [parent_input|] eqn:Hp;
      [|intros ??; by eapply Htail].
    intros [= <-] k; cbn [source]. intros Hk.
    apply PlanProofs.parent_inputs_dict_lookup in Hp as [Hin _].
    by apply (Hparent parent_input k Hin).
Qed.

Lemma collect_step_inputs_planned (b : _PlanBuilder) (solid : Solid)
    (ds : DependencyStructure) (handle : SolidHandle)
    (parent_step_inputs : option (list StepInput))
    (inputs : list StepInput) :
  well_planned key_of b →
  from_option (inputs_planned b) True parent_step_inputs →
  collect_step_inputs ext b solid ds handle parent_step_inputs = Ok inputs →
  inputs_planned b inputs.
Proof.
  intros Hb Hparent. unfold collect_step_inputs.
  intros (new & -> & _ & _ & Hfrom)%(collect_loop ext).
  intros i k Hi Hk. rewrite app_nil_l in Hi.
  destruct (Hfrom i Hi) as (inp & _ & Hget).
  by eapply get_step_input_planned.
Qed.

(** Adding a step that is keyed by its handle and whose inputs are planned
    appends it to the steps. *)
Lemma add_keyed_step (b b' : _PlanBuilder) (step : ExecutionStep) :
  well_planned key_of b →
  key step = key_of (to_string (solid_handle step)) →
  inputs_planned b (step_inputs step) →
  add_step b step = Ok b' →
  well_planned key_of b' ∧ extends b b'.
Proof.
  intros (Hkeys & Hseen & Hmap & Hinputs) Hkey Hstep
         [Hnot ->]%add_step_Ok_inv.
  assert (Hfresh : to_string (solid_handle step) ∉ od_keys (_steps b)).
  { unfold od_keys. intros ([h step'] & Hh & Hin)%list_elem_of_fmap.
    cbn in Hh. subst h. apply Hnot.
    rewrite Hkey, <- (Hkeys _ _ Hin). apply Hseen.
    unfold od_values. apply list_elem_of_fmap.
    by exists (to_string (solid_handle step), step'). }
  assert (Hvalues : od_values (od_set (_steps b)
                                 (to_string (solid_handle step)) step)
                    = od_values (_steps b) ++ [step]).
  { rewrite od_set_fresh by done. unfold od_values. by rewrite fmap_app. }
  assert (Hext : extends b
                   (mk_PlanBuilder (pipeline b) (environment_config b)
                      (step_keys_to_execute b) (mode_definition b)
                      (od_set (_steps b) (to_string (solid_handle step)) step)
                      (step_output_map b) ({[ key step ]} ∪ _seen_keys b))).
  { intros step' Hin. cbn [_steps]. rewrite Hvalues.
    apply elem_of_app; by left. }
  split; [|done].
  split; [|split; [|split]]; cbn [_steps _seen_keys step_output_map].
  - rewrite od_set_fresh by done.
    intros h step' [Hin|[= -> ->]%list_elem_of_singleton]%elem_of_app;
      [by apply Hkeys|done].
  - rewrite Hvalues.
    intros step' [Hin|Heq%list_elem_of_singleton]%elem_of_app;
      [|subst; set_solver].
    apply elem_of_union; right. by apply Hseen.
  - intros k h Hk. eapply planned_extends; [exact Hext|]. by eapply Hmap.
  - rewrite Hvalues.
    intros step' [Hin|Heq%list_elem_of_singleton]%elem_of_app.
    + eapply inputs_planned_extends; [exact Hext|]. by apply Hinputs.
    + subst. by eapply inputs_planned_extends.
Qed.

Lemma record_outputs_well_planned (b b' : _PlanBuilder) (solid : Solid)
    (handle : SolidHandle) :
  well_planned key_of b → record_outputs ext b solid handle = Ok b' →
  well_planned key_of b' ∧ extends b b'.
Proof.
  intros Hb. unfold record_outputs.
  apply (for_each_preserves (λ s, well_planned key_of s ∧ extends b s));
    [|split; [done|by intros ??]].
  intros s [n out] s' _ [(Hkeys & Hseen & Hmap & Hinputs) Hext].
  cbv zeta. intros ([rn rh] & _ & Hs)%bind_Ok_inv.
  apply bind_Ok_inv in Hs as (step & Hstep & [= <-]).
  unfold get_step_by_handle, od_subscript in Hstep.
  destruct (od_get (_steps s) (to_string rh)) as [step'|] eqn:Hget; [|done].
  injection Hstep as ->. apply od_get_values in Hget.
  split; [|done]. split; [done|]. split; [done|]. split; [|done].
  cbn. intros k h.
  destruct (decide (output_handle solid n = k)) as [<-|Hne].
  - rewrite lookup_insert_eq. intros [= <-]. by exists step.
  - rewrite lookup_insert_ne by done. apply Hmap.
Qed.

(** The traversal of a solid keeps the builder well planned and removes no
    step. *)
Lemma build_from_solid_well_planned (solid : Solid) :
  ∀ ds parent_handle parent_step_inputs b b',
    well_planned key_of b →
    from_option (inputs_planned b) True parent_step_inputs →
    build_from_solid ext solid ds parent_handle parent_step_inputs b = Ok b' →
    well_planned key_of b' ∧ extends b b'.
Proof.
  induction solid as [n data m|n data sl topo ids m IH]
    using PlanProofs.Solid_nested_ind;
    intros ds ph psi b b' Hb Hpsi; rewrite PlanProofs.build_from_solid_unfold;
    cbv zeta; intros (step_inputs & Hinputs & Hrest)%bind_Ok_inv;
    apply bind_Ok_inv in Hrest as (b1 & Hb1 & Hout);
    apply collect_step_inputs_planned in Hinputs; [|done|done| |done|done];
    cbn [definition] in Hb1.
  - apply bind_Ok_inv in Hb1 as (step & Hcreate & Hadd).
    apply keyed in Hcreate as (Hkey & Hhandle & Hsi).
    apply add_keyed_step in Hadd as [Hb1 Hext];
      [|done|by rewrite Hhandle|by rewrite Hsi].
    apply record_outputs_well_planned in Hout as [Hb' Hext']; [|done].
    split; [done|]. intros step' ?. by apply Hext', Hext.
  - assert (Hloop : well_planned key_of b1 ∧ extends b b1).
    { revert Hb1.
      apply (for_each_preserves (λ s, well_planned key_of s ∧ extends b s));
        [|split; [done|by intros ??]].
      intros s inner s' Hin [Hs Hext] Hbuild.
      rewrite Forall_forall in IH.
      apply (IH inner Hin) in Hbuild as [Hs' Hext'];
        [|done|by eapply inputs_planned_extends].
      split; [done|]. intros step' ?. by apply Hext', Hext. }
    destruct Hloop as [Hb1' Hext].
    apply record_outputs_well_planned in Hout as [Hb' Hext']; [|done].
    split; [done|]. intros step' ?. by apply Hext', Hext.
Qed.

(** X20: when the step factory keys steps by their handles, the dependency
    dictionary of a built plan is closed: it has an entry for exactly the
    steps of the plan, and every key a step depends on is the key of a
    step of the plan. *)
Theorem X20_dependencies_are_planned (pipeline : PipelineDefinition)
    (env : EnvironmentConfig) (mode : option string)
    (subset : option (list string)) (plan : ExecutionPlan.t) :
  ExecutionPlan_build ext pipeline env mode subset = Ok plan →
  ∀ k, (is_Some (ExecutionPlan.deps plan !! k)
        ↔ ExecutionPlan.has_step plan k = true)
       ∧ ∀ ds d, ExecutionPlan.deps plan !! k = Some ds → d ∈ ds →
                 ExecutionPlan.has_step plan d = true.
Proof.
  unfold ExecutionPlan_build, build.
  intros (b0 & Hinit & Hrest)%bind_Ok_inv.
  apply bind_Ok_inv in Hrest as (b' & Htraverse & Hfinish).
  assert (Hb' : well_planned key_of b').
  { revert Htraverse. unfold traverse, _build_from_sorted_solids.
    apply (for_each_preserves (well_planned key_of)).
    - intros s solid s' _ Hs Hbuild.
      by apply build_from_solid_well_planned in Hbuild as [? _].
    - unfold init in Hinit.
      apply bind_Ok_inv in Hinit as (m & _ & [= <-]).
      split; [|split; [|split]]; cbn.
      + by intros h step ?%elem_of_nil.
      + by intros step ?%elem_of_nil.
      + intros k h. by rewrite lookup_empty.
      + by intros step ?%elem_of_nil. }
  destruct Hb' as (_ & _ & _ & Hinputs).
  unfold finish in Hfinish.
  apply bind_Ok_inv in Hfinish as (_ & _ & Hfinish).
  apply bind_Ok_inv in Hfinish as (persisted & _ & Hnew).
  unfold ExecutionPlan.new in Hnew.
  destruct (filter _ _) in Hnew; [|done]. injection Hnew as <-.
  unfold ExecutionPlan.has_step.
  cbn [ExecutionPlan.deps ExecutionPlan.step_dict].
  assert (Hhas : ∀ k, od_mem (construct_step_dict (od_values (_steps b'))) k
                      = true ↔ k ∈ key <$> od_values (_steps b')).
  { intros k. by rewrite od_mem_keys, construct_step_dict_keys. }
  intros k. split; [split|].
  - intros [ds Hds]. apply Hhas. by apply construct_deps_from in Hds as [? _].
  - intros (step & -> & Hin)%Hhas%list_elem_of_fmap.
    by apply construct_deps_dom.
  - intros ds d Hds Hd. apply Hhas.
    apply construct_deps_from in Hds as [_ Hds].
    destruct (Hds d Hd) as (step & i & Hstep & _ & Hi & Hk).
    destruct (Hinputs step Hstep i d Hi Hk) as (step' & Hin' & <-).
    by apply list_elem_of_fmap_2.
Qed.

End dependency_proofs.

Lemma X20_dependencies_are_planned_witness :
  ExecutionPlan.deps Examples.chain_plan !! "B" = Some {[ "A" ]}
  ∧ ExecutionPlan.has_step Examples.chain_plan "A" = true.
Proof.
  assert (Hkeyed : steps_keyed_by_handle Examples.ex_collaborators id).
  { by intros ?????? [= <-]. }
  assert (Hdeps : ExecutionPlan.deps Examples.chain_plan !! "B"
                  = Some {[ "A" ]}) by (vm_compute; reflexivity).
  split; [exact Hdeps|].
  apply (proj2 (X20_dependencies_are_planned Examples.ex_collaborators id
                  Hkeyed Examples.chain Examples.mem_env None None
                  Examples.chain_plan ltac:(by vm_compute) "B")
           {[ "A" ]} "A" Hdeps).
  by apply elem_of_singleton.
Defined.

End PlanMoreProofs.

(* ===================================================================== *)
(** * Further properties of the queued run coordinator *)
(* ===================================================================== *)

Module RunCoordinatorMoreProofs.
Import RunCoordinator.

(** X21: [can_cancel_run] and [cancel_run] decide alike.  Once the instance
    is gone both raise [AttributeError].  Where the coordinator decides by
    itself, they give the same answer, which is true exactly when the run
    exists: false for a missing run, true for a queued one.  Only a run
    that exists and is not queued is handed to the launcher, to
    [can_terminate] by the one, to [terminate] by the other. *)
Theorem X21_can_cancel_agrees_with_cancel (run_launcher : RunLauncher)
    (id : string) :
  ((∃ msg, can_cancel_run run_launcher None id = Raise (AttributeError msg))
   ∧ ∃ msg, cancel_run run_launcher None id = Raise (AttributeError msg))
  ∧ ∀ instance,
      ((runs instance !! id = None
        ∨ ∃ run, runs instance !! id = Some run ∧ status run = QUEUED) →
       ∃ answer after,
         can_cancel_run run_launcher (Some instance) id = Ok answer
         ∧ cancel_run run_launcher (Some instance) id = Ok (answer, after)
         ∧ (answer = true ↔ is_Some (runs instance !! id)))
      ∧ ∀ run, runs instance !! id = Some run → status run ≠ QUEUED →
          can_cancel_run run_launcher (Some instance) id
          = Ok (can_terminate run_launcher id instance)
          ∧ cancel_run run_launcher (Some instance) id
            = terminate run_launcher id instance.
Proof.
  split; [split; by eexists|].
  intros instance. unfold can_cancel_run, cancel_run, deref, get_run_by_id.
  rewrite !bind_Ok. split.
  - intros [->|(run & -> & Hqueued)].
    + exists false, instance. split; [done|]. split; [done|].
      split; [done|]. by intros [? ?].
    + rewrite !decide_True by done. eexists true, _.
      split; [done|]. split; [reflexivity|]. split; [by eexists|done].
  - intros run -> Hstatus. by rewrite !decide_False.
Qed.

(** X22: [submit_run] checks the status before it reaches for the
    instance: a run that is not [NOT_STARTED] raises [CheckError], also
    when the instance is gone, and nothing is logged.  It succeeds exactly
    for a run that is [NOT_STARTED] on a live instance; it then returns the
    run it was given, and what it hands to the instance is one
    [PIPELINE_ENQUEUED] event with the pipeline name and the id of that
    run. *)
Theorem X22_submit_run (_instance : option DagsterInstance)
    (pipeline_run : PipelineRun) :
  (status pipeline_run ≠ NOT_STARTED →
   ∃ msg, submit_run _instance pipeline_run = Raise (CheckError msg))
  ∧ (status pipeline_run = NOT_STARTED → _instance = None →
     ∃ msg, submit_run _instance pipeline_run = Raise (AttributeError msg))
  ∧ ∀ returned after,
      submit_run _instance pipeline_run = Ok (returned, after)
      ↔ status pipeline_run = NOT_STARTED
        ∧ returned = pipeline_run
        ∧ ∃ instance,
            _instance = Some instance
            ∧ after
              = handle_new_event instance
                  (PIPELINE_ENQUEUED (run_pipeline_name pipeline_run)
                                     (run_id pipeline_run)).
Proof.
  unfold submit_run, deref.
  destruct (decide (status pipeline_run = NOT_STARTED)) as [Hnew|Hold].
  - split; [done|]. split; [intros _ ->; by eexists|].
    intros returned after. destruct _instance as [instance|].
    + rewrite bind_Ok. split.
      * intros [= <- <-]. split; [done|]. split; [done|]. by exists instance.
      * by intros (_ & -> & instance' & [= <-] & ->).
    + split; [done|]. by intros (_ & _ & instance' & ? & _).
  - split; [intros _; by eexists|]. split; [done|].
    intros returned after. split; [done|]. by intros [? _].
Qed.

End RunCoordinatorMoreProofs.
